(** * The stdio JSON-RPC transport of the Graphonomous MCP test scripts

    A shallow embedding of the transport layer that
    [scripts/mcp_smoke_test.py] and [scripts/mcp_e2e_regression.py] embed:
    the frame codec ([send], [_try_parse_one], [_find_header_end],
    [_parse_content_length]), the incremental reader ([recv_message],
    [recv_response_for_id]) and the staged shutdown ([_terminate_process]).

    Layout: module [Py] holds the pieces of the Python runtime the scripts
    call (bytes and str operations, the UTF-8 codec, the interfaces of the
    Unicode tables and of the [json] module); modules [Smoke] and [E2E]
    translate the two scripts function by function; the theorems follow. *)

From Stdlib Require Import ZArith List Bool Lia String Ascii.
From Stdlib.Strings Require Import Byte.
Import ListNotations.
Local Open Scope Z_scope.

(* ================================================================== *)
(** * The Python runtime the scripts rely on *)
(* ================================================================== *)

Module Py.

(** [bytes] / [bytearray]: a sequence of octets.  [str]: a sequence of
    Unicode code points. *)
Definition bytes := list byte.
Definition text := list Z.

Definition byte_val (c : byte) : Z := Z.of_N (Byte.to_N c).

Definition byte_of_Z (z : Z) : byte :=
  match Byte.of_N (Z.to_N z) with
  | Some c => c
  | None => x00
  end.

(** Literals: [b "abc"] is the bytes literal, [u "abc"] the ASCII str. *)
Definition b (s : string) : bytes := list_byte_of_string s.
Definition u (s : string) : text := map byte_val (list_byte_of_string s).

Definition CR : byte := x0d.
Definition LF : byte := x0a.
Definition CRLFCRLF : bytes := [CR; LF; CR; LF].
Definition LFLF : bytes := [LF; LF].

(** ** bytes operations *)

Fixpoint bytes_eqb (s t : bytes) : bool :=
  match s, t with
  | [], [] => true
  | c :: s', d :: t' => Byte.eqb c d && bytes_eqb s' t'
  | _, _ => false
  end.

(** [s[lo:hi]] for indices [0 <= lo], clamped at the end like Python. *)
Definition slice (s : bytes) (lo hi : Z) : bytes :=
  firstn (Z.to_nat (hi - lo)) (skipn (Z.to_nat lo) s).

(** [del s[:n]] *)
Definition del_front (s : bytes) (n : Z) : bytes := skipn (Z.to_nat n) s.

Definition len (s : bytes) : Z := Z.of_nat (List.length s).

Fixpoint startswith (pat s : bytes) : bool :=
  match pat, s with
  | [], _ => true
  | p :: pat', c :: s' => Byte.eqb p c && startswith pat' s'
  | _ :: _, [] => false
  end.

(** [s.find(pat)]: lowest index where [pat] occurs, [-1] when it does not. *)
Fixpoint find_from (pat s : bytes) (i : Z) : Z :=
  if startswith pat s then i
  else match s with
       | [] => -1
       | _ :: s' => find_from pat s' (i + 1)
       end.

Definition find (s pat : bytes) : Z := find_from pat s 0.

(** ** The UTF-8 codec *)

Definition is_continuation (c : Z) : bool := (0x80 <=? c) && (c <=? 0xBF).

(** Second byte of a three-byte form: [E0] needs [A0..BF] (no overlong
    form), [ED] needs [80..9F] (no surrogate). *)
Definition second_of_3 (c0 c1 : Z) : bool :=
  is_continuation c1 &&
  negb (if c1 <? 0xA0 then c0 =? 0xE0 else c0 =? 0xED).

(** Second byte of a four-byte form: [F0] needs [90..BF], [F4] needs
    [80..8F] (nothing above U+10FFFF). *)
Definition second_of_4 (c0 c1 : Z) : bool :=
  is_continuation c1 &&
  negb (if c1 <? 0x90 then c0 =? 0xF0 else c0 =? 0xF4).

Definition low6 (c : Z) : Z := Z.land c 0x3F.

(** The decoder's scan: one item per decoded character, [None] for each
    malformed sequence.  A malformed sequence spans the lead byte and the
    continuation bytes that were acceptable so far; decoding resumes at
    the offending byte. *)
Fixpoint utf8_scan (s : bytes) : list (option Z) :=
  match s with
  | [] => []
  | b0 :: r0 =>
    let c0 := byte_val b0 in
    if c0 <? 0x80 then Some c0 :: utf8_scan r0
    else if c0 <? 0xC2 then None :: utf8_scan r0
    else if c0 <? 0xE0 then
      match r0 with
      | [] => [None]
      | b1 :: r1 =>
        let c1 := byte_val b1 in
        if is_continuation c1
        then Some (Z.lor (Z.shiftl (Z.land c0 0x1F) 6) (low6 c1)) :: utf8_scan r1
        else None :: utf8_scan r0
      end
    else if c0 <? 0xF0 then
      match r0 with
      | [] => [None]
      | b1 :: r1 =>
        let c1 := byte_val b1 in
        if second_of_3 c0 c1 then
          match r1 with
          | [] => [None]
          | b2 :: r2 =>
            let c2 := byte_val b2 in
            if is_continuation c2
            then Some (Z.lor (Z.shiftl (Z.land c0 0x0F) 12)
                         (Z.lor (Z.shiftl (low6 c1) 6) (low6 c2)))
                   :: utf8_scan r2
            else None :: utf8_scan r1
          end
        else None :: utf8_scan r0
      end
    else if c0 <? 0xF5 then
      match r0 with
      | [] => [None]
      | b1 :: r1 =>
        let c1 := byte_val b1 in
        if second_of_4 c0 c1 then
          match r1 with
          | [] => [None]
          | b2 :: r2 =>
            let c2 := byte_val b2 in
            if is_continuation c2 then
              match r2 with
              | [] => [None]
              | b3 :: r3 =>
                let c3 := byte_val b3 in
                if is_continuation c3
                then Some (Z.lor (Z.shiftl (Z.land c0 0x07) 18)
                             (Z.lor (Z.shiftl (low6 c1) 12)
                                (Z.lor (Z.shiftl (low6 c2) 6) (low6 c3))))
                       :: utf8_scan r3
                else None :: utf8_scan r2
              end
            else None :: utf8_scan r1
          end
        else None :: utf8_scan r0
      end
    else None :: utf8_scan r0
  end.

Definition REPLACEMENT : Z := 0xFFFD.

(** [s.decode("utf-8", errors="replace")] *)
Definition decode_utf8_replace (s : bytes) : text :=
  map (fun item => match item with Some c => c | None => REPLACEMENT end)
      (utf8_scan s).

Fixpoint sequence {A} (l : list (option A)) : option (list A) :=
  match l with
  | [] => Some []
  | None :: _ => None
  | Some a :: l' =>
    match sequence l' with
    | Some r => Some (a :: r)
    | None => None
    end
  end.

(** [s.decode("utf-8")]; [None] stands for [UnicodeDecodeError]. *)
Definition decode_utf8 (s : bytes) : option text := sequence (utf8_scan s).

Definition encode_cp (c : Z) : option bytes :=
  if (c <? 0) || (0x10FFFF <? c) then None
  else if c <? 0x80 then Some [byte_of_Z c]
  else if c <? 0x800 then
    Some [byte_of_Z (Z.lor 0xC0 (Z.shiftr c 6)); byte_of_Z (Z.lor 0x80 (low6 c))]
  else if (0xD800 <=? c) && (c <=? 0xDFFF) then None
  else if c <? 0x10000 then
    Some [byte_of_Z (Z.lor 0xE0 (Z.shiftr c 12));
          byte_of_Z (Z.lor 0x80 (low6 (Z.shiftr c 6)));
          byte_of_Z (Z.lor 0x80 (low6 c))]
  else
    Some [byte_of_Z (Z.lor 0xF0 (Z.shiftr c 18));
          byte_of_Z (Z.lor 0x80 (low6 (Z.shiftr c 12)));
          byte_of_Z (Z.lor 0x80 (low6 (Z.shiftr c 6)));
          byte_of_Z (Z.lor 0x80 (low6 c))].

(** [t.encode("utf-8")]; [None] stands for [UnicodeEncodeError]
    (a lone surrogate). *)
Fixpoint encode_utf8 (t : text) : option bytes :=
  match t with
  | [] => Some []
  | c :: t' =>
    match encode_cp c, encode_utf8 t' with
    | Some cs, Some r => Some (cs ++ r)
    | _, _ => None
    end
  end.

(** [t.encode("ascii")]; [None] stands for [UnicodeEncodeError]. *)
Fixpoint encode_ascii (t : text) : option bytes :=
  match t with
  | [] => Some []
  | c :: t' =>
    if (0 <=? c) && (c <? 0x80) then
      match encode_ascii t' with
      | Some r => Some (byte_of_Z c :: r)
      | None => None
      end
    else None
  end.

(** ** str operations *)

Fixpoint text_eqb (s t : text) : bool :=
  match s, t with
  | [], [] => true
  | c :: s', d :: t' => (c =? d) && text_eqb s' t'
  | _, _ => false
  end.

Fixpoint text_startswith (pat s : text) : bool :=
  match pat, s with
  | [], _ => true
  | p :: pat', c :: s' => (p =? c) && text_startswith pat' s'
  | _ :: _, [] => false
  end.

(** [s.replace(old, new)] for a non-empty [old]: occurrences are replaced
    left to right and do not overlap.  [skip] counts the characters of an
    occurrence already replaced that are still to be passed over. *)
Fixpoint replace_go (old new : text) (skip : nat) (s : text) : text :=
  match s with
  | [] => []
  | c :: s' =>
    match skip with
    | S k => replace_go old new k s'
    | O =>
      if text_startswith old s
      then new ++ replace_go old new (List.length old - 1) s'
      else c :: replace_go old new 0 s'
    end
  end.

Definition replace (s old new : text) : text := replace_go old new 0 s.

(** [s.split(sep)] for a one-character separator. *)
Fixpoint split (s : text) (sep : Z) : list text :=
  match s with
  | [] => [[]]
  | c :: s' =>
    if c =? sep then [] :: split s' sep
    else match split s' sep with
         | piece :: pieces => (c :: piece) :: pieces
         | [] => [[c]]
         end
  end.

(** [sep in s] for a one-character [sep]. *)
Definition contains (s : text) (sep : Z) : bool := existsb (Z.eqb sep) s.

(** [k, v = s.split(sep, 1)] when [sep in s]: the parts before and after
    the first separator. *)
Fixpoint split_once (s : text) (sep : Z) : text * text :=
  match s with
  | [] => ([], [])
  | c :: s' =>
    if c =? sep then ([], s')
    else let (k, v) := split_once s' sep in (c :: k, v)
  end.

Fixpoint dropwhile (p : Z -> bool) (s : text) : text :=
  match s with
  | [] => []
  | c :: s' => if p c then dropwhile p s' else s
  end.

(** ** The Unicode character database

    [str.strip], [str.lower], [str.isdigit] and [int] consult the
    interpreter's Unicode tables, which are not part of the repository.
    They are a parameter; what is fixed is their ASCII part. *)

Definition ascii_isspace (c : Z) : bool :=
  ((0x09 <=? c) && (c <=? 0x0D)) || ((0x1C <=? c) && (c <=? 0x20)).

Definition ascii_lower (c : Z) : Z :=
  if (0x41 <=? c) && (c <=? 0x5A) then c + 32 else c.

Definition ascii_isdigit (c : Z) : bool := (0x30 <=? c) && (c <=? 0x39).

Class UnicodeData := {
  (** [c.isspace()] *)
  isspace_cp : Z -> bool;
  (** [c.lower()], which may be several characters *)
  lower_cp : Z -> text;
  (** [c.isdigit()]: Numeric_Type is Digit or Decimal *)
  isdigit_cp : Z -> bool;
  (** the digit value [int] reads, for a decimal digit (category Nd) *)
  decimal_cp : Z -> option Z;
  isspace_ascii : forall c, 0 <= c < 0x80 -> isspace_cp c = ascii_isspace c;
  lower_ascii : forall c, 0 <= c < 0x80 -> lower_cp c = [ascii_lower c];
  isdigit_ascii : forall c, 0 <= c < 0x80 -> isdigit_cp c = ascii_isdigit c;
  decimal_ascii : forall c, 0 <= c < 0x80 ->
    decimal_cp c = if ascii_isdigit c then Some (c - 0x30) else None;
  decimal_range : forall c d, decimal_cp c = Some d -> 0 <= d <= 9
}.

Section WithUnicode.
Context {U : UnicodeData}.

(** [s.strip()] *)
Definition strip (s : text) : text :=
  rev (dropwhile isspace_cp (rev (dropwhile isspace_cp s))).

(** [s.lower()], character by character.  (The one rule of [lower] that
    looks at the neighbours, for the Greek capital sigma, turns a
    non-ASCII character into another non-ASCII character.) *)
Definition lower (s : text) : text := flat_map lower_cp s.

(** [s.isdigit()]: at least one character, all of them digits *)
Definition isdigit (s : text) : bool :=
  match s with
  | [] => false
  | _ :: _ => forallb isdigit_cp s
  end.

(** [sys.get_int_max_str_digits()]: the most digits [int] converts from
    a string, at the default the scripts run with. *)
Definition int_max_str_digits : Z := 4300.

Fixpoint int_go (acc : Z) (s : text) : option Z :=
  match s with
  | [] => Some acc
  | c :: s' =>
    match decimal_cp c with
    | Some d => int_go (acc * 10 + d) s'
    | None => None
    end
  end.

(** [int(s)] on a string for which [s.isdigit()] holds (no sign, blank or
    underscore to deal with); [None] stands for [ValueError].  It is raised
    when a character is a digit without being a decimal digit, and when
    the string has more digits than the interpreter converts
    ([int_max_str_digits]; leading zeros count). *)
Definition int (s : text) : option Z :=
  match s with
  | [] => None
  | _ :: _ =>
    if int_max_str_digits <? Z.of_nat (List.length s) then None else int_go 0 s
  end.

End WithUnicode.

(** [str(n)] *)
Fixpoint digits_go (fuel : nat) (n : Z) (acc : text) : text :=
  match fuel with
  | O => acc
  | S fuel' =>
    let acc' := (0x30 + n mod 10) :: acc in
    if n <? 10 then acc' else digits_go fuel' (n / 10) acc'
  end.

Definition str (n : Z) : text :=
  if n <? 0
  then 0x2D :: digits_go (S (Z.to_nat (Z.log2 (- n)))) (- n) []
  else digits_go (S (Z.to_nat (Z.log2 n))) n [].

(** ** Python values and the [json] module *)

(** A finite float is [m * 2^e]. *)
Inductive pyfloat :=
| Finite (m e : Z)
| Infinite (negative : bool)
| NaN.

Set Warnings "-register-all".

(** The values [json.loads] produces, which are also the messages
    [send] takes ([Dict[str, Any]]: the keys of a dict are strings).  A
    dict keeps its items in insertion order, which is the order
    [json.dumps] writes them in. *)
Inductive value :=
| VNone
| VBool (x : bool)
| VInt (n : Z)
| VFloat (f : pyfloat)
| VStr (s : text)
| VList (items : list value)
| VDict (items : list (text * value)).

(** [isinstance(v, dict)] *)
Definition is_dict (v : value) : bool :=
  match v with
  | VDict _ => true
  | _ => false
  end.

Fixpoint lookup (items : list (text * value)) (key : text) : option value :=
  match items with
  | [] => None
  | (k, v) :: items' => if text_eqb k key then Some v else lookup items' key
  end.

(** [d.get(key)] on a dict: [None] when the key is absent *)
Definition dict_get (v : value) (key : text) : value :=
  match v with
  | VDict items =>
    match lookup items key with
    | Some x => x
    | None => VNone
    end
  | _ => VNone
  end.

Definition float_eq_int (f : pyfloat) (n : Z) : bool :=
  match f with
  | Finite m e => if 0 <=? e then m * 2 ^ e =? n else m =? n * 2 ^ (- e)
  | _ => false
  end.

(** [v == n] for an int [n]: numbers compare by value, and [True] and
    [False] are the ints 1 and 0; nothing else equals an int. *)
Definition eq_int (v : value) (n : Z) : bool :=
  match v with
  | VInt k => k =? n
  | VBool x => (if x then 1 else 0) =? n
  | VFloat f => float_eq_int f n
  | _ => false
  end.

(** [sys.maxsize]: no str, bytes or bytearray is longer (the value is
    that of a 64-bit build). *)
Definition max_size : Z := 2 ^ 63 - 1.

(** The [json] module is the standard library's, not the repository's:
    [json_dumps v] is [json.dumps(v, separators=(",", ":"))] ([None] when
    it raises), [json_loads t] is [json.loads(t)] ([None] when it raises).
    [ensure_ascii] is left at its default, so the output is ASCII; it is a
    str, so it has at most [max_size] characters. *)
Class JsonModule := {
  json_dumps : value -> option text;
  json_loads : text -> option value;
  json_dumps_ascii : forall v t,
    json_dumps v = Some t -> Forall (fun c => 0 <= c < 0x80) t;
  json_dumps_size : forall v t,
    json_dumps v = Some t -> Z.of_nat (List.length t) <= max_size
}.

(** ** Vocabulary of the statements *)

(** [pat] occurs in [s] at index [i]. *)
Definition occurs_at (pat s : bytes) (i : Z) : Prop :=
  exists pre post, s = pre ++ pat ++ post /\ len pre = i.

Definition first_occurrence (pat s : bytes) (i : Z) : Prop :=
  occurs_at pat s i /\ forall j, occurs_at pat s j -> i <= j.

(** ASCII text, and the bytes it is encoded as. *)
Definition is_ascii (t : text) : Prop := Forall (fun c => 0 <= c < 0x80) t.

Definition to_bytes (t : text) : bytes := map byte_of_Z t.

(** ASCII decimal numerals and the number they denote. *)
Definition is_digits (t : text) : Prop := Forall (fun c => 0x30 <= c <= 0x39) t.

Definition digits_value (t : text) : Z :=
  fold_left (fun a c => a * 10 + (c - 0x30)) t 0.

End Py.

Import Py.

(** Outcome of a call: a returned value or a raised exception. *)
Inductive result (E A : Type) :=
| Ok (a : A)
| Raise (e : E).
Arguments Ok {E A} a.
Arguments Raise {E A} e.

(* ================================================================== *)
(** * scripts/mcp_smoke_test.py *)
(* ================================================================== *)

Module Smoke.

(** The messages [SmokeTestError] is raised with, one per raise site. *)
Inductive message :=
| ServerExitedBeforeSend (code : Z)
| BrokenPipe
| TimedOutFrame
| TimedOutReadable
| StdoutClosed (code : option Z)
| TimedOutResponse (request_id : Z)
| InvalidHeader (header_bytes : bytes)
| JsonDecodeFailed (body : bytes)
| NotAnObject (msg : value).

(** [SmokeTestError] is the script's own exception class.  [ValueError] is
    the built-in exception [int] raises, [TypeError] the one [json.dumps]
    raises on a value it cannot serialise. *)
Inductive exn :=
| SmokeTestError (m : message)
| ValueError
| TypeError.

(** The header line [send] writes for a payload of [n] bytes. *)
Definition header_line (n : Z) : bytes := to_bytes (u "Content-Length: " ++ str n).

(** A frame of the wire format: header line, terminator, body. *)
Definition wire_frame (terminator body : bytes) : bytes :=
  header_line (len body) ++ terminator ++ body.

Section Codec.
Context {U : UnicodeData} {J : JsonModule}.

(** [MCPStdioClient._find_header_end] *)
Definition _find_header_end (buf : bytes) : option Z :=
  let i := find buf CRLFCRLF in
  if negb (i =? -1) then Some i
  else
    let i := find buf LFLF in
    if negb (i =? -1) then Some i
    else None.

(** The [for line in ...] loop of [_parse_content_length]. *)
Fixpoint content_length_of_lines (lines : list text) : result exn (option Z) :=
  match lines with
  | [] => Ok None
  | line :: lines' =>
    if negb (contains line 0x3A) then content_length_of_lines lines'
    else
      let (k, v) := split_once line 0x3A in
      if text_eqb (lower (strip k)) (u "content-length") then
        let v := strip v in
        if negb (isdigit v) then Ok None
        else match int v with
             | Some n => Ok (Some n)
             | None => Raise ValueError
             end
      else content_length_of_lines lines'
  end.

(** [MCPStdioClient._parse_content_length] *)
Definition _parse_content_length (header : bytes) : result exn (option Z) :=
  let text := decode_utf8_replace header in
  content_length_of_lines (split (replace text [0x0D; 0x0A] [0x0A]) 0x0A).

(** [json.loads(body.decode("utf-8"))] under [except Exception]. *)
Definition loads_body (body : bytes) : option value :=
  match decode_utf8 body with
  | Some t => json_loads t
  | None => None
  end.

(** [MCPStdioClient._try_parse_one]: the outcome and the buffer after the
    call. *)
Definition _try_parse_one (buffer : bytes) : result exn (option value) * bytes :=
  match buffer with
  | [] => (Ok None, buffer)
  | _ :: _ =>
    match _find_header_end buffer with
    | None => (Ok None, buffer)
    | Some header_end =>
      let header_bytes := slice buffer 0 header_end in
      let body_start :=
        header_end +
        (if bytes_eqb (slice buffer header_end (header_end + 4)) CRLFCRLF
         then 4 else 2) in
      match _parse_content_length header_bytes with
      | Raise e => (Raise e, buffer)
      | Ok None => (Raise (SmokeTestError (InvalidHeader header_bytes)), buffer)
      | Ok (Some content_length) =>
        if len buffer <? body_start + content_length then (Ok None, buffer)
        else
          let body := slice buffer body_start (body_start + content_length) in
          let buffer' := del_front buffer (body_start + content_length) in
          match loads_body body with
          | None => (Raise (SmokeTestError (JsonDecodeFailed body)), buffer')
          | Some msg =>
            if negb (is_dict msg)
            then (Raise (SmokeTestError (NotAnObject msg)), buffer')
            else (Ok (Some msg), buffer')
          end
      end
    end
  end.

(** The frame [MCPStdioClient.send] writes for [message]: the compact JSON
    payload behind its [Content-Length] header.  [None] when serialising
    or encoding raises. *)
Definition encode (message : value) : option bytes :=
  match json_dumps message with
  | None => None
  | Some dumped =>
    match encode_utf8 dumped with
    | None => None
    | Some payload =>
      match encode_ascii (u "Content-Length: " ++ str (len payload)
                            ++ [0x0D; 0x0A; 0x0D; 0x0A]) with
      | None => None
      | Some head => Some (head ++ payload)
      end
    end
  end.

(** What [_try_parse_one] does with the body it has cut out, [rest]
    being the buffer left behind. *)
Definition decode_body (body rest : bytes) : result exn (option value) * bytes :=
  match loads_body body with
  | None => (Raise (SmokeTestError (JsonDecodeFailed body)), rest)
  | Some msg =>
    if negb (is_dict msg)
    then (Raise (SmokeTestError (NotAnObject msg)), rest)
    else (Ok (Some msg), rest)
  end.

(** Width of the terminator found at [header_end]. *)
Definition terminator_width (buffer : bytes) (header_end : Z) : Z :=
  if bytes_eqb (slice buffer header_end (header_end + 4)) CRLFCRLF then 4 else 2.

(** The decoder seen as the function of the buffer the design describes:
    the message together with the number of bytes taken from the front. *)
Definition try_decode (buffer : bytes) : result exn (option (value * Z)) :=
  match _try_parse_one buffer with
  | (Ok (Some msg), buffer') => Ok (Some (msg, len buffer - len buffer'))
  | (Ok None, _) => Ok None
  | (Raise e, _) => Raise e
  end.

End Codec.

(** ** The reader and its environment

    What the operating system answers is given by a script.  Times are in
    an arbitrary unit.  [clock] lists the successive readings of
    [time.monotonic()].  [stdout] lists the successive answers of the
    selector: [NotReady] when [select] times out with no event, [Ready r]
    when it reports the descriptor readable and the [os.read] that follows
    answers [r].  A call that needs an answer the script does not hold is
    [Starved]. *)

Inductive read_result :=
| Data (chunk : bytes)    (* the bytes read; none at end of file *)
| WouldBlock.             (* BlockingIOError *)

Inductive select_result :=
| NotReady
| Ready (r : read_result).

Record client := {
  io_timeout_s : Z;
  _buffer : bytes;
  clock : list Z;
  stdout : list select_result;
  returncode : option Z      (* what [proc.poll()] answers *)
}.

Definition with_buffer (c : client) (buf : bytes) : client :=
  {| io_timeout_s := io_timeout_s c; _buffer := buf; clock := clock c;
     stdout := stdout c; returncode := returncode c |}.

Definition with_clock (c : client) (k : list Z) : client :=
  {| io_timeout_s := io_timeout_s c; _buffer := _buffer c; clock := k;
     stdout := stdout c; returncode := returncode c |}.

Definition with_stdout (c : client) (o : list select_result) : client :=
  {| io_timeout_s := io_timeout_s c; _buffer := _buffer c; clock := clock c;
     stdout := o; returncode := returncode c |}.

(** The client after a call that left [buffer] and the readings [later]
    behind and did not touch the answers of the selector. *)
Definition after (c : client) (buffer : bytes) (later : list Z) : client :=
  {| io_timeout_s := io_timeout_s c; _buffer := buffer; clock := later;
     stdout := stdout c; returncode := returncode c |}.


Inductive outcome (A : Type) :=
| Return (a : A)
| Raises (e : exn)
| Starved.
Arguments Return {A} a.
Arguments Raises {A} e.
Arguments Starved {A}.

Section Reader.
Context {U : UnicodeData} {J : JsonModule}.

(** [MCPStdioClient.send]: the bytes written to the child's stdin.
    [broken_pipe] tells whether the write raises [BrokenPipeError]. *)
Definition send (c : client) (broken_pipe : bool) (message : value)
  : result exn bytes :=
  match returncode c with
  | Some code => Raise (SmokeTestError (ServerExitedBeforeSend code))
  | None =>
    match encode message with
    | None => Raise TypeError
    | Some frame =>
      if broken_pipe then Raise (SmokeTestError BrokenPipe) else Ok frame
    end
  end.

(** The [while True] loop of [recv_message]. *)
Fixpoint recv_loop (deadline : Z) (out : list select_result) (c : client)
  : outcome value * client :=
  match _try_parse_one (_buffer c) with
  | (Raise e, buf) => (Raises e, with_stdout (with_buffer c buf) out)
  | (Ok (Some parsed), buf) => (Return parsed, with_stdout (with_buffer c buf) out)
  | (Ok None, buf) =>
    let c := with_buffer c buf in
    match clock c with
    | [] => (Starved, with_stdout c out)
    | now :: later =>
      let c := with_clock c later in
      let remaining := deadline - now in
      if remaining <=? 0
      then (Raises (SmokeTestError TimedOutFrame), with_stdout c out)
      else
        match out with
        | [] => (Starved, with_stdout c out)
        | NotReady :: out' =>
          (Raises (SmokeTestError TimedOutReadable), with_stdout c out')
        | Ready WouldBlock :: out' => recv_loop deadline out' c
        | Ready (Data chunk) :: out' =>
          match chunk with
          | [] => (Raises (SmokeTestError (StdoutClosed (returncode c))),
                   with_stdout c out')
          | _ :: _ => recv_loop deadline out' (with_buffer c (_buffer c ++ chunk))
          end
        end
    end
  end.

(** [MCPStdioClient.recv_message] *)
Definition recv_message (timeout_s : option Z) (c : client)
  : outcome value * client :=
  let timeout_s :=
    match timeout_s with
    | None => io_timeout_s c
    | Some t => t
    end in
  match clock c with
  | [] => (Starved, c)
  | now :: later =>
    let deadline := now + timeout_s in
    recv_loop deadline (stdout c) (with_clock c later)
  end.

(** [isinstance(msg, dict) and msg.get("id") == request_id] *)
Definition answers (msg : value) (request_id : Z) : bool :=
  is_dict msg && eq_int (dict_get msg (u "id")) request_id.

(** The [while True] loop of [recv_response_for_id]; [fuel] bounds the
    number of turns. *)
Fixpoint response_loop (fuel : nat) (request_id deadline : Z) (c : client)
  : outcome value * client :=
  match fuel with
  | O => (Starved, c)
  | S fuel' =>
    match clock c with
    | [] => (Starved, c)
    | now :: later =>
      let c := with_clock c later in
      let remaining := deadline - now in
      if remaining <=? 0
      then (Raises (SmokeTestError (TimedOutResponse request_id)), c)
      else
        match recv_message (Some remaining) c with
        | (Return msg, c') =>
          if answers msg request_id then (Return msg, c')
          else response_loop fuel' request_id deadline c'
        | (Raises e, c') => (Raises e, c')
        | (Starved, c') => (Starved, c')
        end
    end
  end.

(** [MCPStdioClient.recv_response_for_id].  Every turn of the loop reads
    the clock, so the turns are no more than the readings the script holds. *)
Definition recv_response_for_id (request_id : Z) (timeout_s : option Z)
  (c : client) : outcome value * client :=
  let timeout_s :=
    match timeout_s with
    | None => io_timeout_s c
    | Some t => t
    end in
  match clock c with
  | [] => (Starved, c)
  | now :: later =>
    let deadline := now + timeout_s in
    response_loop (List.length later) request_id deadline (with_clock c later)
  end.

End Reader.

(** ** The staged shutdown

    [_terminate_process] is followed through the calls it makes on the
    child.  The script gives what [proc.poll()] answers each time it is
    asked, the readings of the clock, whether the child has a stdin pipe
    and whether [proc.wait(timeout=2.0)] returns (the child is gone) or
    raises.  Exceptions of [close], [terminate] and [kill] are swallowed
    by the code and change nothing. *)

Inductive action :=
| CloseStdin
| Sleep
| Terminate
| Wait
| Kill.

Record process := {
  polls : list (option Z);
  readings : list Z;
  has_stdin : bool;
  wait_returns : bool
}.

Inductive status :=
| Finished
| Starving.

(** The grace-period loop and the escalation after it. *)
Fixpoint grace_loop (deadline : Z) (wait_returns : bool)
  (readings : list Z) (polls : list (option Z)) : list action * status :=
  match readings with
  | [] => ([], Starving)
  | now :: readings' =>
    if now <? deadline then
      match polls with
      | [] => ([], Starving)
      | Some _ :: _ => ([], Finished)
      | None :: polls' =>
        let (acts, st) := grace_loop deadline wait_returns readings' polls' in
        (Sleep :: acts, st)
      end
    else
      if wait_returns then ([Terminate; Wait], Finished)
      else ([Terminate; Wait; Kill], Finished)
  end.

(** [_terminate_process]: the calls made on the child, in order. *)
Definition _terminate_process (proc : process) (grace_s : Z)
  : list action * status :=
  match polls proc with
  | [] => ([], Starving)
  | Some _ :: _ => ([], Finished)
  | None :: polls' =>
    let closing := if has_stdin proc then [CloseStdin] else [] in
    match readings proc with
    | [] => (closing, Starving)
    | now :: readings' =>
      let deadline := now + grace_s in
      let (acts, st) := grace_loop deadline (wait_returns proc) readings' polls' in
      (closing ++ acts, st)
    end
  end.

(** The parts of a shutdown: the closing of stdin, when there is one, and
    the escalation that follows an expired grace period. *)
Definition closing (proc : process) : list action :=
  if has_stdin proc then [CloseStdin] else [].

Definition escalation (wait_returns : bool) : list action :=
  if wait_returns then [Terminate; Wait] else [Terminate; Wait; Kill].

End Smoke.

(* ================================================================== *)
(** * scripts/mcp_e2e_regression.py *)
(* ================================================================== *)

Module E2E.

(** The messages [E2EError] is raised with in the frame decoder. *)
Inductive message :=
| InvalidHeader (header_bytes : bytes)
| JsonDecodeFailed (body : bytes)
| NotAnObject (msg : value).

Inductive exn :=
| E2EError (m : message)
| ValueError.

Section Codec.
Context {U : UnicodeData} {J : JsonModule}.

(** [MCPStdioClient._find_header_end] *)
Definition _find_header_end (buf : bytes) : option Z :=
  let i := find buf CRLFCRLF in
  if negb (i =? -1) then Some i
  else
    let i := find buf LFLF in
    if negb (i =? -1) then Some i
    else None.

(** The [for line in ...] loop of [_parse_content_length]. *)
Fixpoint content_length_of_lines (lines : list text) : result exn (option Z) :=
  match lines with
  | [] => Ok None
  | line :: lines' =>
    if negb (contains line 0x3A) then content_length_of_lines lines'
    else
      let (k, v) := split_once line 0x3A in
      if text_eqb (lower (strip k)) (u "content-length") then
        let v := strip v in
        if negb (isdigit v) then Ok None
        else match int v with
             | Some n => Ok (Some n)
             | None => Raise ValueError
             end
      else content_length_of_lines lines'
  end.

(** [MCPStdioClient._parse_content_length] *)
Definition _parse_content_length (header : bytes) : result exn (option Z) :=
  let text := decode_utf8_replace header in
  content_length_of_lines (split (replace text [0x0D; 0x0A] [0x0A]) 0x0A).

(** [json.loads(body.decode("utf-8"))] under [except Exception]. *)
Definition loads_body (body : bytes) : option value :=
  match decode_utf8 body with
  | Some t => json_loads t
  | None => None
  end.

(** [MCPStdioClient._try_parse_one]: the outcome and the buffer after the
    call. *)
Definition _try_parse_one (buffer : bytes) : result exn (option value) * bytes :=
  match buffer with
  | [] => (Ok None, buffer)
  | _ :: _ =>
    match _find_header_end buffer with
    | None => (Ok None, buffer)
    | Some header_end =>
      let header_bytes := slice buffer 0 header_end in
      let body_start :=
        header_end +
        (if bytes_eqb (slice buffer header_end (header_end + 4)) CRLFCRLF
         then 4 else 2) in
      match _parse_content_length header_bytes with
      | Raise e => (Raise e, buffer)
      | Ok None => (Raise (E2EError (InvalidHeader header_bytes)), buffer)
      | Ok (Some content_length) =>
        if len buffer <? body_start + content_length then (Ok None, buffer)
        else
          let body := slice buffer body_start (body_start + content_length) in
          let buffer' := del_front buffer (body_start + content_length) in
          match loads_body body with
          | None => (Raise (E2EError (JsonDecodeFailed body)), buffer')
          | Some msg =>
            if negb (is_dict msg)
            then (Raise (E2EError (NotAnObject msg)), buffer')
            else (Ok (Some msg), buffer')
          end
      end
    end
  end.

End Codec.

End E2E.

(* ================================================================== *)
(** * Comparing the decoders of the two scripts *)
(* ================================================================== *)

Module Decoders.

(** The two scripts raise exception classes of their own; two errors are
    the same when they come from the same raise site with the same data. *)
Definition same_message (m : Smoke.message) (m' : E2E.message) : Prop :=
  match m, m' with
  | Smoke.InvalidHeader h, E2E.InvalidHeader h' => h = h'
  | Smoke.JsonDecodeFailed body, E2E.JsonDecodeFailed body' => body = body'
  | Smoke.NotAnObject v, E2E.NotAnObject v' => v = v'
  | _, _ => False
  end.

Definition same_exn (e : Smoke.exn) (e' : E2E.exn) : Prop :=
  match e, e' with
  | Smoke.SmokeTestError m, E2E.E2EError m' => same_message m m'
  | Smoke.ValueError, E2E.ValueError => True
  | _, _ => False
  end.

(** Both return the same value, or both raise the same error. *)
Definition same_result {A : Type} (r : result Smoke.exn A) (r' : result E2E.exn A)
  : Prop :=
  match r, r' with
  | Ok a, Ok a' => a = a'
  | Raise e, Raise e' => same_exn e e'
  | _, _ => False
  end.

End Decoders.

(* ================================================================== *)
(** * More of the Python runtime: what the checks on responses use *)
(* ================================================================== *)

Module PyValues.

(** [bool(v)]: the truth value of a value in [if v] and [not v]. *)
Definition truthy (v : value) : bool :=
  match v with
  | VNone => false
  | VBool x => x
  | VInt n => negb (n =? 0)
  | VFloat (Finite m _) => negb (m =? 0)
  | VFloat _ => true
  | VStr s => match s with [] => false | _ :: _ => true end
  | VList items => match items with [] => false | _ :: _ => true end
  | VDict items => match items with [] => false | _ :: _ => true end
  end.

(** [key in d] on the items of a dict *)
Definition has_key (items : list (text * value)) (key : text) : bool :=
  existsb (fun kv => text_eqb (fst kv) key) items.

(** [d.get(key)] on the items of a dict *)
Definition get (items : list (text * value)) (key : text) : value :=
  match lookup items key with
  | Some v => v
  | None => VNone
  end.

(** [v == s] for a str [s]: only a str of the same characters. *)
Definition eq_str (v : value) (s : text) : bool :=
  match v with
  | VStr t => text_eqb t s
  | _ => false
  end.

(** A value can be put in a set unless it is a list or a dict, for which
    [hash] raises [TypeError]. *)
Definition hashable (v : value) : bool :=
  match v with
  | VList _ | VDict _ => false
  | _ => true
  end.

Definition is_str (v : value) : bool :=
  match v with
  | VStr _ => true
  | _ => false
  end.

Definition is_number (v : value) : bool :=
  match v with
  | VBool _ | VInt _ | VFloat _ => true
  | _ => false
  end.

(** [sorted(vs)] on hashable values raises [TypeError] when it has to
    compare a str with a number or with [None]; values of one kind sort. *)
Definition sortable (vs : list value) : bool :=
  forallb is_str vs || forallb is_number vs.

End PyValues.

Import PyValues.

(* ================================================================== *)
(** * scripts/mcp_smoke_test.py: the checks on responses, the stderr pump *)
(* ================================================================== *)

Module SmokeChecks.

(** The messages [SmokeTestError] is raised with by the validators. *)
Inductive complaint :=
| InitializeReturnedError (error : value)
| InitializeMissingResult
| ProtocolVersionMismatch (got : value) (expected : text)
| ServerInfoInvalid (server_info : value)
| ToolsListReturnedError (error : value)
| ToolsListMissingResult
| ToolsNotAList (tools : value)
| ExpectedToolNotFound (expected_tool : text)
| ResourcesListReturnedError (error : value)
| ResourcesListMissingResult
| ResourcesNotAList (resources : value).

(** [SmokeTestError], or the [TypeError] of an unhashable or unsortable
    tool name. *)
Inductive exn :=
| SmokeTestError (m : complaint)
| TypeError.

(** [_validate_initialize_response] *)
Definition _validate_initialize_response (resp : list (text * value))
  (protocol_version : text) : result exn unit :=
  if has_key resp (u "error")
  then Raise (SmokeTestError (InitializeReturnedError (get resp (u "error"))))
  else
    match get resp (u "result") with
    | VDict result =>
      let pv := get result (u "protocolVersion") in
      if negb (eq_str pv protocol_version)
      then Raise (SmokeTestError (ProtocolVersionMismatch pv protocol_version))
      else
        let server_info := get result (u "serverInfo") in
        match server_info with
        | VDict info =>
          if negb (truthy (get info (u "name")))
          then Raise (SmokeTestError (ServerInfoInvalid server_info))
          else Ok tt
        | _ => Raise (SmokeTestError (ServerInfoInvalid server_info))
        end
    | _ => Raise (SmokeTestError InitializeMissingResult)
    end.

(** [if expected_tool:] for an optional str *)
Definition given (expected_tool : option text) : option text :=
  match expected_tool with
  | Some (c :: s) => Some (c :: s)
  | _ => None
  end.

(** The names collected by
    [{t.get("name") for t in tools if isinstance(t, dict)}], in the order
    they are met. *)
Definition tool_names (tools : list value) : list value :=
  map (fun t => dict_get t (u "name")) (filter is_dict tools).

(** [_validate_tools_list]: the number of tools.  Building the set of
    names raises [TypeError] at a name that is a list or a dict, and so does
    sorting the names for the message when they are not of one kind. *)
Definition _validate_tools_list (resp : list (text * value))
  (expected_tool : option text) : result exn Z :=
  if has_key resp (u "error")
  then Raise (SmokeTestError (ToolsListReturnedError (get resp (u "error"))))
  else
    match get resp (u "result") with
    | VDict result =>
      match get result (u "tools") with
      | VList tools =>
        match given expected_tool with
        | Some expected =>
          let names := tool_names tools in
          if negb (forallb hashable names) then Raise TypeError
          else if negb (existsb (fun n => eq_str n expected) names) then
            if sortable (filter truthy names)
            then Raise (SmokeTestError (ExpectedToolNotFound expected))
            else Raise TypeError
          else Ok (Z.of_nat (List.length tools))
        | None => Ok (Z.of_nat (List.length tools))
        end
      | tools => Raise (SmokeTestError (ToolsNotAList tools))
      end
    | _ => Raise (SmokeTestError ToolsListMissingResult)
    end.

(** [_validate_resources_list]: the number of resources *)
Definition _validate_resources_list (resp : list (text * value)) : result exn Z :=
  if has_key resp (u "error")
  then Raise (SmokeTestError (ResourcesListReturnedError (get resp (u "error"))))
  else
    match get resp (u "result") with
    | VDict result =>
      match get result (u "resources") with
      | VList resources => Ok (Z.of_nat (List.length resources))
      | resources => Raise (SmokeTestError (ResourcesNotAList resources))
      end
    | _ => Raise (SmokeTestError ResourcesListMissingResult)
    end.

Section WithUnicode.
Context {U : UnicodeData}.

(** What [main] does to [args.expected_tool] before the run: a blank
    name stands for no name. *)
Definition normalize_expected_tool (expected_tool : option text) : option text :=
  match expected_tool with
  | Some name =>
    match strip name with
    | [] => None
    | _ :: _ => Some name
    end
  | None => None
  end.

End WithUnicode.

(** ** The stderr pump

    What the pipe answers to the successive [pipe.readline()] calls: a
    raw line, or an exception with its text.  After the answers listed the
    pipe is at end of file, where [readline] gives [b""]. *)
Inductive readline_result :=
| Line (raw : bytes)
| ReadlineRaises (why : text).

(** The state the pump works on: the lines kept, and what was mirrored
    to the script's own stderr. *)
Record pump_state := {
  sink : list text;
  mirrored : list text
}.

Definition pump_error (why : text) : text :=
  u "[stderr-pump-error] " ++ why ++ [0x0A].

(** [_pump_stderr(pipe, sink, tee)].  [write_raises] tells, for the lines
    in turn, whether writing the line to [sys.stderr] raises (with what
    text); it is consulted only when [tee] is set. *)
Fixpoint _pump_stderr (pipe : list readline_result) (tee : bool)
  (write_raises : list (option text)) (st : pump_state) : pump_state :=
  match pipe with
  | [] => st
  | ReadlineRaises why :: _ =>
    {| sink := sink st ++ [pump_error why]; mirrored := mirrored st |}
  | Line [] :: _ => st
  | Line raw :: pipe' =>
    let line := decode_utf8_replace raw in
    let st := {| sink := sink st ++ [line]; mirrored := mirrored st |} in
    if tee then
      match write_raises with
      | Some why :: _ =>
        {| sink := sink st ++ [pump_error why]; mirrored := mirrored st |}
      | None :: write_raises' =>
        _pump_stderr pipe' tee write_raises'
          {| sink := sink st; mirrored := mirrored st ++ [line] |}
      | [] =>
        _pump_stderr pipe' tee []
          {| sink := sink st; mirrored := mirrored st ++ [line] |}
      end
    else _pump_stderr pipe' tee write_raises st
  end.

End SmokeChecks.

(* ================================================================== *)
(** * scripts/mcp_e2e_regression.py: the client and the tool calls *)
(* ================================================================== *)

Module E2EClient.

(** The messages [E2EError] is raised with by the client and by the
    reading of tool payloads; [Decoder] carries those of the frame
    decoder. *)
Inductive message :=
| ServerExitedBeforeSend (code : Z)
| BrokenPipe
| TimedOutFrame
| TimedOutReadable
| StdoutClosed (code : option Z)
| TimedOutResponse (request_id : Z)
| Decoder (m : E2E.message)
| ToolCallReturnedError (error : value)
| ToolCallResultInvalid
| PayloadUnsupportedShape.

Inductive exn :=
| E2EError (m : message)
| ValueError
| TypeError.

Definition of_decoder (e : E2E.exn) : exn :=
  match e with
  | E2E.E2EError m => E2EError (Decoder m)
  | E2E.ValueError => ValueError
  end.

(** The client with its environment.  The clock and the answers of the
    selector are those of the operating system, as for the smoke test;
    [written] is what has gone to the child's stdin so far and
    [broken_pipe] tells whether a write raises [BrokenPipeError]. *)
Record client := {
  io_timeout_s : Z;
  _buffer : bytes;
  clock : list Z;
  stdout : list Smoke.select_result;
  returncode : option Z;
  written : bytes;
  broken_pipe : bool
}.

Definition with_buffer (c : client) (buf : bytes) : client :=
  {| io_timeout_s := io_timeout_s c; _buffer := buf; clock := clock c;
     stdout := stdout c; returncode := returncode c; written := written c;
     broken_pipe := broken_pipe c |}.

Definition with_clock (c : client) (k : list Z) : client :=
  {| io_timeout_s := io_timeout_s c; _buffer := _buffer c; clock := k;
     stdout := stdout c; returncode := returncode c; written := written c;
     broken_pipe := broken_pipe c |}.

Definition with_stdout (c : client) (o : list Smoke.select_result) : client :=
  {| io_timeout_s := io_timeout_s c; _buffer := _buffer c; clock := clock c;
     stdout := o; returncode := returncode c; written := written c;
     broken_pipe := broken_pipe c |}.

Definition with_written (c : client) (w : bytes) : client :=
  {| io_timeout_s := io_timeout_s c; _buffer := _buffer c; clock := clock c;
     stdout := stdout c; returncode := returncode c; written := w;
     broken_pipe := broken_pipe c |}.

Inductive outcome (A : Type) :=
| Return (a : A)
| Raises (e : exn)
| Starved.
Arguments Return {A} a.
Arguments Raises {A} e.
Arguments Starved {A}.

Section Client.
Context {U : UnicodeData} {J : JsonModule}.

(** The frame [MCPStdioClient.send] builds. *)
Definition encode (message : value) : option bytes :=
  match json_dumps message with
  | None => None
  | Some dumped =>
    match encode_utf8 dumped with
    | None => None
    | Some payload =>
      match encode_ascii (u "Content-Length: " ++ str (len payload)
                            ++ [0x0D; 0x0A; 0x0D; 0x0A]) with
      | None => None
      | Some head => Some (head ++ payload)
      end
    end
  end.

(** [MCPStdioClient.send] *)
Definition send (c : client) (message : value) : outcome unit * client :=
  match returncode c with
  | Some code => (Raises (E2EError (ServerExitedBeforeSend code)), c)
  | None =>
    match encode message with
    | None => (Raises TypeError, c)
    | Some frame =>
      if broken_pipe c then (Raises (E2EError BrokenPipe), c)
      else (Return tt, with_written c (written c ++ frame))
    end
  end.

(** The [while True] loop of [recv_message]. *)
Fixpoint recv_loop (deadline : Z) (out : list Smoke.select_result) (c : client)
  : outcome value * client :=
  match E2E._try_parse_one (_buffer c) with
  | (Raise e, buf) => (Raises (of_decoder e), with_stdout (with_buffer c buf) out)
  | (Ok (Some parsed), buf) => (Return parsed, with_stdout (with_buffer c buf) out)
  | (Ok None, buf) =>
    let c := with_buffer c buf in
    match clock c with
    | [] => (Starved, with_stdout c out)
    | now :: later =>
      let c := with_clock c later in
      let remaining := deadline - now in
      if remaining <=? 0
      then (Raises (E2EError TimedOutFrame), with_stdout c out)
      else
        match out with
        | [] => (Starved, with_stdout c out)
        | Smoke.NotReady :: out' =>
          (Raises (E2EError TimedOutReadable), with_stdout c out')
        | Smoke.Ready Smoke.WouldBlock :: out' => recv_loop deadline out' c
        | Smoke.Ready (Smoke.Data chunk) :: out' =>
          match chunk with
          | [] => (Raises (E2EError (StdoutClosed (returncode c))),
                   with_stdout c out')
          | _ :: _ => recv_loop deadline out' (with_buffer c (_buffer c ++ chunk))
          end
        end
    end
  end.

(** [MCPStdioClient.recv_message] *)
Definition recv_message (timeout_s : option Z) (c : client)
  : outcome value * client :=
  let timeout_s :=
    match timeout_s with
    | None => io_timeout_s c
    | Some t => t
    end in
  match clock c with
  | [] => (Starved, c)
  | now :: later =>
    let deadline := now + timeout_s in
    recv_loop deadline (stdout c) (with_clock c later)
  end.

(** [isinstance(msg, dict) and msg.get("id") == request_id] *)
Definition answers (msg : value) (request_id : Z) : bool :=
  is_dict msg && eq_int (dict_get msg (u "id")) request_id.

(** The [while True] loop of [recv_response_for_id]. *)
Fixpoint response_loop (fuel : nat) (request_id deadline : Z) (c : client)
  : outcome value * client :=
  match fuel with
  | O => (Starved, c)
  | S fuel' =>
    match clock c with
    | [] => (Starved, c)
    | now :: later =>
      let c := with_clock c later in
      let remaining := deadline - now in
      if remaining <=? 0
      then (Raises (E2EError (TimedOutResponse request_id)), c)
      else
        match recv_message (Some remaining) c with
        | (Return msg, c') =>
          if answers msg request_id then (Return msg, c')
          else response_loop fuel' request_id deadline c'
        | (Raises e, c') => (Raises e, c')
        | (Starved, c') => (Starved, c')
        end
    end
  end.

(** [MCPStdioClient.recv_response_for_id] *)
Definition recv_response_for_id (request_id : Z) (timeout_s : option Z)
  (c : client) : outcome value * client :=
  let timeout_s :=
    match timeout_s with
    | None => io_timeout_s c
    | Some t => t
    end in
  match clock c with
  | [] => (Starved, c)
  | now :: later =>
    let deadline := now + timeout_s in
    response_loop (List.length later) request_id deadline (with_clock c later)
  end.

(** The items of the request object [MCPStdioClient.request] builds;
    [params] is [VNone] when the caller gives none. *)
Definition request_items (request_id : Z) (method : text) (params : value)
  : list (text * value) :=
  [(u "jsonrpc", VStr (u "2.0")); (u "id", VInt request_id);
   (u "method", VStr method)]
  ++ match params with
     | VNone => []
     | _ => [(u "params", params)]
     end.

(** [MCPStdioClient.request] *)
Definition request (c : client) (request_id : Z) (method : text)
  (params : value) : outcome value * client :=
  match send c (VDict (request_items request_id method params)) with
  | (Return _, c') => recv_response_for_id request_id None c'
  | (Raises e, c') => (Raises e, c')
  | (Starved, c') => (Starved, c')
  end.

(** The [for key in ("json", "structured", "data")] loop of
    [_extract_tool_payload] on one item. *)
Fixpoint first_dict_under (keys : list text) (item : list (text * value))
  : option value :=
  match keys with
  | [] => None
  | key :: keys' =>
    match get item key with
    | VDict d => Some (VDict d)
    | _ => first_dict_under keys' item
    end
  end.

(** What one item of [content] yields, if anything: its text read as
    JSON when that is a dict, else the first dict under the three keys. *)
Definition payload_of_item (item : list (text * value)) : option value :=
  let from_keys := first_dict_under [u "json"; u "structured"; u "data"] item in
  match get item (u "text") with
  | VStr text =>
    match strip text with
    | [] => from_keys
    | _ :: _ =>
      match json_loads text with
      | Some (VDict d) => Some (VDict d)
      | _ => from_keys
      end
    end
  | _ => from_keys
  end.

(** The [for item in content] loop of [_extract_tool_payload]. *)
Fixpoint payload_of_content (content : list value) : result exn value :=
  match content with
  | [] => Raise (E2EError PayloadUnsupportedShape)
  | VDict item :: content' =>
    match payload_of_item item with
    | Some payload => Ok payload
    | None => payload_of_content content'
    end
  | _ :: content' => payload_of_content content'
  end.

(** [_extract_tool_payload] *)
Definition _extract_tool_payload (tool_call_resp : list (text * value))
  : result exn value :=
  if has_key tool_call_resp (u "error")
  then Raise (E2EError (ToolCallReturnedError (get tool_call_resp (u "error"))))
  else
    match get tool_call_resp (u "result") with
    | VDict result =>
      match get result (u "structuredContent") with
      | VDict structured => Ok (VDict structured)
      | _ =>
        match get result (u "content") with
        | VList (item :: content) => payload_of_content (item :: content)
        | _ => Ok (VDict [])
        end
      end
    | _ => Raise (E2EError ToolCallResultInvalid)
    end.

(** [_tool_call].  [request] returns objects only (the test in
    [recv_response_for_id] sees to it), so the branch for another value is
    never taken; it is there because [value] has other constructors. *)
Definition _tool_call (c : client) (req_id : Z) (name : text)
  (arguments : value) : outcome value * client :=
  match request c req_id (u "tools/call")
          (VDict [(u "name", VStr name); (u "arguments", arguments)]) with
  | (Return (VDict resp), c') =>
    match _extract_tool_payload resp with
    | Ok payload => (Return payload, c')
    | Raise e => (Raises e, c')
    end
  | (Return _, c') => (Raises (E2EError ToolCallResultInvalid), c')
  | (Raises e, c') => (Raises e, c')
  | (Starved, c') => (Starved, c')
  end.

End Client.

End E2EClient.

(* ================================================================== *)
(** * The clients of the two scripts side by side *)
(* ================================================================== *)

Module Readers.

(** An error of the smoke test as the regression test raises it, from
    the same raise site with the same data. *)
Definition e2e_message (m : Smoke.message) : E2EClient.message :=
  match m with
  | Smoke.ServerExitedBeforeSend code => E2EClient.ServerExitedBeforeSend code
  | Smoke.BrokenPipe => E2EClient.BrokenPipe
  | Smoke.TimedOutFrame => E2EClient.TimedOutFrame
  | Smoke.TimedOutReadable => E2EClient.TimedOutReadable
  | Smoke.StdoutClosed code => E2EClient.StdoutClosed code
  | Smoke.TimedOutResponse request_id => E2EClient.TimedOutResponse request_id
  | Smoke.InvalidHeader h => E2EClient.Decoder (E2E.InvalidHeader h)
  | Smoke.JsonDecodeFailed body => E2EClient.Decoder (E2E.JsonDecodeFailed body)
  | Smoke.NotAnObject v => E2EClient.Decoder (E2E.NotAnObject v)
  end.

Definition e2e_exn (e : Smoke.exn) : E2EClient.exn :=
  match e with
  | Smoke.SmokeTestError m => E2EClient.E2EError (e2e_message m)
  | Smoke.ValueError => E2EClient.ValueError
  | Smoke.TypeError => E2EClient.TypeError
  end.

Definition e2e_outcome {A : Type} (o : Smoke.outcome A) : E2EClient.outcome A :=
  match o with
  | Smoke.Return a => E2EClient.Return a
  | Smoke.Raises e => E2EClient.Raises (e2e_exn e)
  | Smoke.Starved => E2EClient.Starved
  end.

(** The part of a regression-test client that a smoke-test client has,
    and the way back. *)
Definition to_smoke (c : E2EClient.client) : Smoke.client :=
  {| Smoke.io_timeout_s := E2EClient.io_timeout_s c;
     Smoke._buffer := E2EClient._buffer c;
     Smoke.clock := E2EClient.clock c;
     Smoke.stdout := E2EClient.stdout c;
     Smoke.returncode := E2EClient.returncode c |}.

Definition of_smoke (s : Smoke.client) (c : E2EClient.client) : E2EClient.client :=
  {| E2EClient.io_timeout_s := Smoke.io_timeout_s s;
     E2EClient._buffer := Smoke._buffer s;
     E2EClient.clock := Smoke.clock s;
     E2EClient.stdout := Smoke.stdout s;
     E2EClient.returncode := Smoke.returncode s;
     E2EClient.written := E2EClient.written c;
     E2EClient.broken_pipe := E2EClient.broken_pipe c |}.

(** What a call of the smoke-test client comes to on a regression-test
    client. *)
Definition carried {A : Type} (r : Smoke.outcome A * Smoke.client)
  (c : E2EClient.client) : E2EClient.outcome A * E2EClient.client :=
  (e2e_outcome (fst r), of_smoke (snd r) c).

End Readers.

(* ================================================================== *)
(** * Vocabulary of the further statements *)
(* ================================================================== *)

Module Words.

(** The outcomes of [_try_parse_one] reached after the [del] of the
    frame: a message, or a body that is not JSON or not an object. *)
Definition cuts_frame (r : result Smoke.exn (option value)) : bool :=
  match r with
  | Ok (Some _) => true
  | Raise (Smoke.SmokeTestError (Smoke.JsonDecodeFailed _)) => true
  | Raise (Smoke.SmokeTestError (Smoke.NotAnObject _)) => true
  | _ => false
  end.

(** Header lines joined by CRLF. *)
Fixpoint join_crlf (lines : list text) : text :=
  match lines with
  | [] => []
  | [line] => line
  | line :: lines' => line ++ 0x0D :: 0x0A :: join_crlf lines'
  end.

(** An ASCII line without a line break in it. *)
Definition plain_line (line : text) : Prop :=
  is_ascii line /\ ~ In 0x0D line /\ ~ In 0x0A line.

(** Spaces and tabs. *)
Definition blanks (t : text) : Prop := Forall (fun c => c = 0x20 \/ c = 0x09) t.

(** The characters of a spelling of [content-length] in any case:
    letters and the hyphen. *)
Definition name_char (c : Z) : Prop :=
  0x41 <= c <= 0x5A \/ 0x61 <= c <= 0x7A \/ c = 0x2D.

(** The bytes the answers of the selector carry. *)
Fixpoint data_of (answers : list Smoke.select_result) : bytes :=
  match answers with
  | [] => []
  | Smoke.Ready (Smoke.Data chunk) :: answers' => chunk ++ data_of answers'
  | _ :: answers' => data_of answers'
  end.

Section WithUnicode.
Context {U : UnicodeData}.

(** The test [_parse_content_length] puts a header line to: it has a
    colon, and what stands before the first one is, stripped and in lower
    case, [content-length]. *)
Definition is_length_line (line : text) : bool :=
  contains line 0x3A
  && text_eqb (lower (strip (fst (split_once line 0x3A)))) (u "content-length").

End WithUnicode.

(** The outcomes of [recv_message] on which no frame has been cut from
    the buffer. *)
Definition cuts_nothing (o : Smoke.outcome value) : bool :=
  match o with
  | Smoke.Return _ => false
  | Smoke.Raises e => negb (cuts_frame (Raise e))
  | Smoke.Starved => true
  end.

Section WithRuntime.
Context {U : UnicodeData} {J : JsonModule}.

(** [taken] is one frame, the first of the buffer [taken ++ rest]: a
    header, one of the two terminators at the place [_find_header_end]
    gives, and a body of the length the header declares; [r] is what the
    decoder makes of the body. *)
Definition is_frame_of (taken rest : bytes) (r : result Smoke.exn (option value))
  : Prop :=
  exists header terminator body,
    taken = header ++ terminator ++ body
    /\ (terminator = CRLFCRLF \/ terminator = LFLF)
    /\ Smoke._find_header_end (taken ++ rest) = Some (len header)
    /\ Smoke._parse_content_length header = Ok (Some (len body))
    /\ Smoke.decode_body body rest = (r, rest).

(** [buffer] holds the frames of [msgs] one behind the other, followed by
    [rest]: successive calls of [_try_parse_one] return them in turn. *)
Fixpoint decodes_in_turn (buffer : bytes) (msgs : list value) (rest : bytes) : Prop :=
  match msgs with
  | [] => buffer = rest
  | msg :: msgs' =>
    exists buffer',
      Smoke._try_parse_one buffer = (Ok (Some msg), buffer')
      /\ decodes_in_turn buffer' msgs' rest
  end.

End WithRuntime.

End Words.

Import Words.

(* ================================================================== *)
(** * Instances to run the model on concrete inputs *)
(* ================================================================== *)

Module Sample.

(** ** Unicode tables, exact on U+0000..U+00FF

    Beyond U+00FF only the white space is listed; every other character is
    taken as a caseless symbol.  The superscripts U+00B2, U+00B3 and U+00B9
    are digits ([isdigit]) without being decimal digits. *)

Definition isspace_cp (c : Z) : bool :=
  ascii_isspace c || (c =? 0x85) || (c =? 0xA0) || (c =? 0x1680)
  || ((0x2000 <=? c) && (c <=? 0x200A)) || (c =? 0x2028) || (c =? 0x2029)
  || (c =? 0x202F) || (c =? 0x205F) || (c =? 0x3000).

Definition lower_cp (c : Z) : text :=
  if c <? 0x80 then [ascii_lower c]
  else if (0xC0 <=? c) && (c <=? 0xDE) && negb (c =? 0xD7) then [c + 32]
  else [c].

Definition isdigit_cp (c : Z) : bool :=
  ascii_isdigit c || (c =? 0xB2) || (c =? 0xB3) || (c =? 0xB9).

Definition decimal_cp (c : Z) : option Z :=
  if ascii_isdigit c then Some (c - 0x30) else None.

Lemma sample_isspace_ascii c : 0 <= c < 0x80 -> isspace_cp c = ascii_isspace c.
Proof.
  intros Hc. unfold isspace_cp.
  repeat match goal with
  | |- context [?x =? ?y] => destruct (Z.eqb_spec x y); [lia|]
  end.
  destruct (Z.leb_spec 0x2000 c); [lia|].
  now rewrite !orb_false_r.
Qed.

Lemma sample_lower_ascii c : 0 <= c < 0x80 -> lower_cp c = [ascii_lower c].
Proof.
  intros Hc. unfold lower_cp. destruct (Z.ltb_spec c 0x80); [reflexivity|lia].
Qed.

Lemma sample_isdigit_ascii c : 0 <= c < 0x80 -> isdigit_cp c = ascii_isdigit c.
Proof.
  intros Hc. unfold isdigit_cp.
  repeat match goal with
  | |- context [?x =? ?y] => destruct (Z.eqb_spec x y); [lia|]
  end.
  now rewrite !orb_false_r.
Qed.

Lemma sample_decimal_ascii c :
  0 <= c < 0x80 ->
  decimal_cp c = if ascii_isdigit c then Some (c - 0x30) else None.
Proof. reflexivity. Qed.

Lemma sample_decimal_range c d : decimal_cp c = Some d -> 0 <= d <= 9.
Proof.
  unfold decimal_cp, ascii_isdigit.
  destruct (Z.leb_spec 0x30 c), (Z.leb_spec c 0x39); simpl;
    intros E; inversion E; lia.
Qed.

#[export] Instance unicode : UnicodeData := {|
  Py.isspace_cp := isspace_cp;
  Py.lower_cp := lower_cp;
  Py.isdigit_cp := isdigit_cp;
  Py.decimal_cp := decimal_cp;
  Py.isspace_ascii := sample_isspace_ascii;
  Py.lower_ascii := sample_lower_ascii;
  Py.isdigit_ascii := sample_isdigit_ascii;
  Py.decimal_ascii := sample_decimal_ascii;
  Py.decimal_range := sample_decimal_range
|}.

(** ** A [json] module for the fragment without floats

    [dumps] writes the compact form with every character outside the
    printable ASCII range escaped; [loads] reads objects, arrays, strings
    with their escapes, integers and the three literals.  Floats are left
    out: [dumps] and [loads] give [None] on them. *)

Definition hexdigit (d : Z) : Z := if d <? 10 then 0x30 + d else 0x57 + d.

Definition hex4 (c : Z) : text :=
  [hexdigit (Z.shiftr c 12 mod 16); hexdigit (Z.shiftr c 8 mod 16);
   hexdigit (Z.shiftr c 4 mod 16); hexdigit (c mod 16)].

Definition escape (c : Z) : text :=
  if c =? 0x22 then [0x5C; 0x22]
  else if c =? 0x5C then [0x5C; 0x5C]
  else if c =? 0x0A then u "\n"
  else if c =? 0x0D then u "\r"
  else if c =? 0x09 then u "\t"
  else if c =? 0x08 then u "\b"
  else if c =? 0x0C then u "\f"
  else if (0x20 <=? c) && (c <=? 0x7E) then [c]
  else if c <? 0x10000 then u "\u" ++ hex4 c
  else
    let v := c - 0x10000 in
    u "\u" ++ hex4 (0xD800 + Z.shiftr v 10)
      ++ u "\u" ++ hex4 (0xDC00 + Z.land v 0x3FF).

Definition quote (s : text) : text := [0x22] ++ flat_map escape s ++ [0x22].

Fixpoint join (sep : text) (parts : list text) : text :=
  match parts with
  | [] => []
  | [p] => p
  | p :: parts' => p ++ sep ++ join sep parts'
  end.

Fixpoint dumps_raw (v : value) : option text :=
  match v with
  | VNone => Some (u "null")
  | VBool true => Some (u "true")
  | VBool false => Some (u "false")
  | VInt n => Some (str n)
  | VFloat _ => None
  | VStr s => Some (quote s)
  | VList items =>
    match sequence (map dumps_raw items) with
    | Some parts => Some ([0x5B] ++ join [0x2C] parts ++ [0x5D])
    | None => None
    end
  | VDict items =>
    match sequence (map (fun kv =>
                           match dumps_raw (snd kv) with
                           | Some t => Some (quote (fst kv) ++ [0x3A] ++ t)
                           | None => None
                           end) items) with
    | Some parts => Some ([0x7B] ++ join [0x2C] parts ++ [0x7D])
    | None => None
    end
  end.

Definition dumps (v : value) : option text :=
  match dumps_raw v with
  | Some t =>
    if forallb (fun c => (0 <=? c) && (c <? 0x80)) t
       && (Z.of_nat (List.length t) <=? max_size)
    then Some t else None
  | None => None
  end.

Definition is_ws (c : Z) : bool :=
  (c =? 0x20) || (c =? 0x09) || (c =? 0x0A) || (c =? 0x0D).

Definition skip_ws (s : text) : text := dropwhile is_ws s.

Definition hexval (c : Z) : option Z :=
  if (0x30 <=? c) && (c <=? 0x39) then Some (c - 0x30)
  else if (0x61 <=? c) && (c <=? 0x66) then Some (c - 0x57)
  else if (0x41 <=? c) && (c <=? 0x46) then Some (c - 0x37)
  else None.

Definition unescape (c : Z) : option Z :=
  if (c =? 0x22) || (c =? 0x5C) || (c =? 0x2F) then Some c
  else if c =? 0x6E then Some 0x0A
  else if c =? 0x72 then Some 0x0D
  else if c =? 0x74 then Some 0x09
  else if c =? 0x62 then Some 0x08
  else if c =? 0x66 then Some 0x0C
  else None.

(** The characters of a string literal after its opening quote, as
    UTF-16 code units where they are written as [\uXXXX]. *)
Fixpoint parse_string (s : text) : option (text * text) :=
  match s with
  | [] => None
  | c :: r =>
    if c =? 0x22 then Some ([], r)
    else if c =? 0x5C then
      match r with
      | [] => None
      | e :: r1 =>
        if e =? 0x75 then
          match r1 with
          | h1 :: h2 :: h3 :: h4 :: r2 =>
            match hexval h1, hexval h2, hexval h3, hexval h4, parse_string r2 with
            | Some a, Some b', Some c', Some d, Some (t, rest) =>
              Some (((a * 16 + b') * 16 + c') * 16 + d :: t, rest)
            | _, _, _, _, _ => None
            end
          | _ => None
          end
        else
          match unescape e, parse_string r1 with
          | Some x, Some (t, rest) => Some (x :: t, rest)
          | _, _ => None
          end
      end
    else if c <? 0x20 then None
    else
      match parse_string r with
      | Some (t, rest) => Some (c :: t, rest)
      | None => None
      end
  end.

Fixpoint combine_surrogates (t : text) : text :=
  match t with
  | [] => []
  | hi :: t' =>
    match t' with
    | [] => [hi]
    | lo :: t'' =>
      if (0xD800 <=? hi) && (hi <=? 0xDBFF) && (0xDC00 <=? lo) && (lo <=? 0xDFFF)
      then 0x10000 + (hi - 0xD800) * 0x400 + (lo - 0xDC00) :: combine_surrogates t''
      else hi :: combine_surrogates t'
    end
  end.

Fixpoint span_digits (s : text) : text * text :=
  match s with
  | [] => ([], [])
  | c :: s' =>
    if ascii_isdigit c
    then let (ds, rest) := span_digits s' in (c :: ds, rest)
    else ([], s)
  end.

Definition parse_number (s : text) : option (value * text) :=
  let (negative, s1) :=
    match s with
    | c :: s' => if c =? 0x2D then (true, s') else (false, s)
    | [] => (false, s)
    end in
  let (ds, rest) := span_digits s1 in
  match ds, rest with
  | [], _ => None
  | d :: _ :: _, _ =>
    if d =? 0x30 then None
    else match rest with
         | c :: _ => if (c =? 0x2E) || (c =? 0x65) || (c =? 0x45) then None
                     else Some (VInt ((if negative then -1 else 1)
                                      * fold_left (fun a x => a * 10 + (x - 0x30)) ds 0), rest)
         | [] => Some (VInt ((if negative then -1 else 1)
                             * fold_left (fun a x => a * 10 + (x - 0x30)) ds 0), rest)
         end
  | [d], c :: _ =>
    if (c =? 0x2E) || (c =? 0x65) || (c =? 0x45) then None
    else Some (VInt ((if negative then -1 else 1) * (d - 0x30)), rest)
  | [d], [] => Some (VInt ((if negative then -1 else 1) * (d - 0x30)), rest)
  end.

(** [d[k] = v] on the items of a dict *)
Fixpoint dict_set (items : list (text * value)) (k : text) (v : value)
  : list (text * value) :=
  match items with
  | [] => [(k, v)]
  | (k', v') :: items' =>
    if text_eqb k' k then (k', v) :: items'
    else (k', v') :: dict_set items' k v
  end.

Fixpoint parse_value (fuel : nat) (s : text) : option (value * text) :=
  match fuel with
  | O => None
  | S fuel' =>
    match skip_ws s with
    | [] => None
    | c :: r =>
      if c =? 0x7B then
        match skip_ws r with
        | c' :: r' =>
          if c' =? 0x7D then Some (VDict [], r')
          else parse_members fuel' r []
        | [] => None
        end
      else if c =? 0x5B then
        match skip_ws r with
        | c' :: r' =>
          if c' =? 0x5D then Some (VList [], r')
          else parse_elements fuel' r []
        | [] => None
        end
      else if c =? 0x22 then
        match parse_string r with
        | Some (t, rest) => Some (VStr (combine_surrogates t), rest)
        | None => None
        end
      else if text_startswith (u "true") (c :: r) then Some (VBool true, skipn 3 r)
      else if text_startswith (u "false") (c :: r) then Some (VBool false, skipn 4 r)
      else if text_startswith (u "null") (c :: r) then Some (VNone, skipn 3 r)
      else parse_number (c :: r)
    end
  end
with parse_elements (fuel : nat) (s : text) (acc : list value)
  : option (value * text) :=
  match fuel with
  | O => None
  | S fuel' =>
    match parse_value fuel' s with
    | Some (v, rest) =>
      match skip_ws rest with
      | c :: r =>
        if c =? 0x2C then parse_elements fuel' r (v :: acc)
        else if c =? 0x5D then Some (VList (rev (v :: acc)), r)
        else None
      | [] => None
      end
    | None => None
    end
  end
with parse_members (fuel : nat) (s : text) (acc : list (text * value))
  : option (value * text) :=
  match fuel with
  | O => None
  | S fuel' =>
    match skip_ws s with
    | q :: s1 =>
      if q =? 0x22 then
        match parse_string s1 with
        | Some (k, s2) =>
          match skip_ws s2 with
          | colon :: s3 =>
            if colon =? 0x3A then
              match parse_value fuel' s3 with
              | Some (v, rest) =>
                let acc' := dict_set acc (combine_surrogates k) v in
                match skip_ws rest with
                | c :: r =>
                  if c =? 0x2C then parse_members fuel' r acc'
                  else if c =? 0x7D then Some (VDict acc', r)
                  else None
                | [] => None
                end
              | None => None
              end
            else None
          | [] => None
          end
        | None => None
        end
      else None
    | [] => None
    end
  end.

Definition loads (t : text) : option value :=
  match parse_value (S (S (List.length t))) t with
  | Some (v, rest) =>
    match skip_ws rest with
    | [] => Some v
    | _ :: _ => None
    end
  | None => None
  end.

Lemma sample_dumps_size v t : dumps v = Some t -> Z.of_nat (List.length t) <= max_size.
Proof.
  unfold dumps. destruct (dumps_raw v) as [t'|]; [|discriminate].
  destruct (forallb _ t' && _) eqn:E; [|discriminate].
  intros H; inversion H; subst t'. apply andb_prop in E. destruct E as [_ E].
  apply Z.leb_le. exact E.
Qed.

Lemma sample_dumps_ascii v t : dumps v = Some t -> Forall (fun c => 0 <= c < 0x80) t.
Proof.
  unfold dumps. destruct (dumps_raw v) as [t'|]; [|discriminate].
  destruct (forallb _ t' && _) eqn:E0; [|discriminate].
  apply andb_prop in E0. destruct E0 as [E _].
  intros H; inversion H; subst t'. rewrite forallb_forall in E.
  apply Forall_forall. intros c Hc. apply E in Hc.
  apply andb_true_iff in Hc. destruct Hc. lia.
Qed.

#[export] Instance json : JsonModule := {|
  json_dumps := dumps;
  json_loads := loads;
  json_dumps_ascii := sample_dumps_ascii;
  json_dumps_size := sample_dumps_size
|}.

End Sample.

(* ================================================================== *)
(** * Concrete inputs the statements are run on *)
(* ================================================================== *)

Module Scenario.

(** The request that opens the handshake. *)
Definition initialize_request : list (text * value) :=
  [(u "jsonrpc", VStr (u "2.0")); (u "id", VInt 1);
   (u "method", VStr (u "initialize"));
   (u "params", VDict [(u "protocolVersion", VStr (u "2025-03-26"));
                       (u "capabilities", VDict [])])].

(** A buffer in which a blank line written with bare line feeds comes
    before one written with carriage returns. *)
Definition lflf_before_crlfcrlf : bytes := b "a" ++ LFLF ++ b "b" ++ CRLFCRLF.

(** The frame [send] writes for it, and the frame cut into three chunks:
    the first byte, the next thirty, the rest. *)
Definition initialize_frame : bytes :=
  match Smoke.encode (J := Sample.json) (VDict initialize_request) with
  | Some frame => frame
  | None => []
  end.

Definition initialize_chunks : list bytes :=
  [firstn 1 initialize_frame; firstn 30 (skipn 1 initialize_frame);
   skipn 31 initialize_frame].

(** Its serialised form as bytes, the body of that frame. *)
Definition initialize_payload : bytes :=
  match json_dumps (JsonModule := Sample.json) (VDict initialize_request) with
  | Some dumped => to_bytes dumped
  | None => []
  end.

(** A header whose length is written with the superscript two, U+00B2:
    [b"Content-Length: \xc2\xb2\r\n\r\n"]. *)
Definition superscript_length : bytes :=
  b "Content-Length: " ++ [xc2; xb2] ++ CRLFCRLF.

(** A notification (no [id]) and the response to request 1, with the
    frames [send] would write for them. *)
Definition notification : list (text * value) :=
  [(u "jsonrpc", VStr (u "2.0")); (u "method", VStr (u "notifications/progress"))].

Definition response_1 : list (text * value) :=
  [(u "jsonrpc", VStr (u "2.0")); (u "id", VInt 1); (u "result", VDict [])].

Definition frame_of (items : list (text * value)) : bytes :=
  match Smoke.encode (J := Sample.json) (VDict items) with
  | Some frame => frame
  | None => []
  end.

(** A client whose server writes the notification and the response in
    one chunk. *)
Definition two_frames_client : Smoke.client :=
  {| Smoke.io_timeout_s := 30;
     Smoke._buffer := [];
     Smoke.clock := [0; 1; 2; 3; 4; 5];
     Smoke.stdout :=
       [Smoke.Ready (Smoke.Data (frame_of notification ++ frame_of response_1))];
     Smoke.returncode := None |}.


(** A client that holds the complete response in its buffer, and one
    that holds the notification followed by the response. *)
Definition buffered_client : Smoke.client :=
  Smoke.with_buffer two_frames_client (frame_of response_1).

Definition backlog_client : Smoke.client :=
  Smoke.with_buffer two_frames_client (frame_of notification ++ frame_of response_1).

(** Children at shutdown: one that has exited already, one that exits
    after its stdin is closed, one that goes at the terminate signal and
    one that has to be killed.  The clock is read in hundredths of a
    second and the grace period is 200. *)
Definition exited_child : Smoke.process :=
  {| Smoke.polls := [Some 0]; Smoke.readings := []; Smoke.has_stdin := true;
     Smoke.wait_returns := true |}.

Definition obedient_child : Smoke.process :=
  {| Smoke.polls := [None; None; None; Some 0];
     Smoke.readings := [0; 0; 5; 10; 15];
     Smoke.has_stdin := true; Smoke.wait_returns := true |}.

Definition slow_child : Smoke.process :=
  {| Smoke.polls := [None; None; None; None];
     Smoke.readings := [0; 0; 100; 200; 205];
     Smoke.has_stdin := true; Smoke.wait_returns := true |}.

Definition stubborn_child : Smoke.process :=
  {| Smoke.polls := [None; None; None; None];
     Smoke.readings := [0; 0; 100; 200; 205];
     Smoke.has_stdin := true; Smoke.wait_returns := false |}.

(** A client that holds a frame with a body that is not JSON, and more
    bytes behind it. *)
Definition garbled_client : Smoke.client :=
  Smoke.with_buffer two_frames_client
    (Smoke.wire_frame CRLFCRLF (b "{x") ++ b "tail").

(** A client whose server writes the first ten bytes of the response and
    then falls silent. *)
Definition stalling_client : Smoke.client :=
  {| Smoke.io_timeout_s := 30;
     Smoke._buffer := [];
     Smoke.clock := [0; 1; 2; 3];
     Smoke.stdout :=
       [Smoke.Ready (Smoke.Data (firstn 10 (frame_of response_1))); Smoke.NotReady];
     Smoke.returncode := None |}.

(** Responses to [tools/list]: one with two well-formed tools, and one in
    which a second tool has a list for its name. *)
Definition store_node_tool : list (text * value) :=
  [(u "name", VStr (u "store_node")); (u "description", VStr (u "Store a node"))].

Definition tools_result : list (text * value) :=
  [(u "tools", VList [VDict store_node_tool;
                      VDict [(u "name", VStr (u "retrieve_context"))]])].

Definition tools_response : list (text * value) :=
  [(u "jsonrpc", VStr (u "2.0")); (u "id", VInt 2); (u "result", VDict tools_result)].

Definition odd_tool : list (text * value) := [(u "name", VList [VStr (u "x")])].

Definition odd_tools_result : list (text * value) :=
  [(u "tools", VList [VDict store_node_tool; VDict odd_tool])].

Definition odd_tools_response : list (text * value) :=
  [(u "jsonrpc", VStr (u "2.0")); (u "id", VInt 2);
   (u "result", VDict odd_tools_result)].

(** A tool payload, its JSON text, and the response to [tools/call] that
    carries it as the text of the first item of [content]. *)
Definition tool_payload : list (text * value) :=
  [(u "status", VStr (u "ok")); (u "node_id", VInt 7)].

Definition tool_payload_text : text :=
  match json_dumps (JsonModule := Sample.json) (VDict tool_payload) with
  | Some dumped => dumped
  | None => []
  end.

Definition text_item : list (text * value) :=
  [(u "type", VStr (u "text")); (u "text", VStr tool_payload_text)].

Definition tool_call_result : list (text * value) :=
  [(u "content", VList [VDict text_item])].

Definition tool_call_response : list (text * value) :=
  [(u "jsonrpc", VStr (u "2.0")); (u "id", VInt 3);
   (u "result", VDict tool_call_result)].

(** A response whose [content] holds a bare string. *)
Definition bare_string_result : list (text * value) :=
  [(u "content", VList [VStr (u "done")])].

Definition bare_string_response : list (text * value) :=
  [(u "jsonrpc", VStr (u "2.0")); (u "id", VInt 3);
   (u "result", VDict bare_string_result)].

(** Lines of a server's stderr: one of ASCII text, one with a byte that
    is not UTF-8. *)
Definition stderr_lines : list bytes :=
  [b "warming up" ++ [LF]; b "caf" ++ [xe9; LF]].

(** The sink and the mirror before the pump starts. *)
Definition empty_pump : SmokeChecks.pump_state :=
  {| SmokeChecks.sink := []; SmokeChecks.mirrored := [] |}.

(** A client of the regression test whose server answers a tool call
    with [tool_call_response] in one chunk, the arguments of the call and
    the JSON text of the request. *)
Definition regression_client : E2EClient.client :=
  {| E2EClient.io_timeout_s := 30;
     E2EClient._buffer := [];
     E2EClient.clock := [0; 1; 2; 3; 4];
     E2EClient.stdout := [Smoke.Ready (Smoke.Data (frame_of tool_call_response))];
     E2EClient.returncode := None;
     E2EClient.written := [];
     E2EClient.broken_pipe := false |}.

Definition tool_arguments : value := VDict [(u "content", VStr (u "hello"))].

Definition dumped (v : value) : text :=
  match json_dumps (JsonModule := Sample.json) v with
  | Some t => t
  | None => []
  end.

Definition tool_call_request : list (text * value) :=
  E2EClient.request_items 3 (u "tools/call")
    (VDict [(u "name", VStr (u "store_node")); (u "arguments", tool_arguments)]).

Definition initialize_params : value :=
  VDict [(u "protocolVersion", VStr (u "2025-03-26")); (u "capabilities", VDict [])].

End Scenario.

(* ================================================================== *)
(** * Runs of the model *)
(* ================================================================== *)

Module Runs.

(** The UTF-8 decoder: a two-byte and a three-byte character, a truncated
    sequence (one replacement), an overlong form (one replacement per
    byte), a lead byte followed by ASCII. *)
Example decode_superscript_two : decode_utf8_replace [xc2; xb2] = [0xB2].
Proof. reflexivity. Qed.

Example decode_euro : decode_utf8_replace [xe2; x82; xac] = [0x20AC].
Proof. reflexivity. Qed.

Example decode_truncated : decode_utf8_replace [xe2; x82] = [0xFFFD].
Proof. reflexivity. Qed.

Example decode_overlong : decode_utf8_replace [xe0; x80] = [0xFFFD; 0xFFFD].
Proof. reflexivity. Qed.

Example decode_lead_then_ascii :
  decode_utf8_replace ([xe2] ++ b "a") = [0xFFFD; 0x61].
Proof. reflexivity. Qed.

Example decode_strict_rejects : decode_utf8 [xe2; x82] = None.
Proof. reflexivity. Qed.

Example str_of_zero : str 0 = u "0".
Proof. reflexivity. Qed.

Example str_of_101 : str 101 = u "101".
Proof. reflexivity. Qed.

Example find_in_buffer : find (b "abcabc") (b "ca") = 2.
Proof. reflexivity. Qed.

Example find_nothing : find (b "abcabc") (b "cc") = -1.
Proof. reflexivity. Qed.

Example split_lines : split (u "a:b" ++ [0x0A] ++ u "c" ++ [0x0A]) 0x0A = [u "a:b"; u "c"; []].
Proof. reflexivity. Qed.

Example replace_crlf :
  replace ([0x61; 0x0D; 0x0A; 0x0D; 0x62; 0x0D; 0x0A]) [0x0D; 0x0A] [0x0A]
  = [0x61; 0x0A; 0x0D; 0x62; 0x0A].
Proof. reflexivity. Qed.

(** The header is read leniently: any case, blanks around key and value,
    other header lines, either terminator. *)
Example lenient_header :
  Smoke._parse_content_length (U := Sample.unicode)
    (b "X-Trace: 1" ++ [CR; LF] ++ b " content-LENGTH :  12 " ++ [CR])
  = Ok (Some 12).
Proof. reflexivity. Qed.

Example first_length_wins :
  Smoke._parse_content_length (U := Sample.unicode)
    (b "Content-Length: x" ++ [LF] ++ b "Content-Length: 5")
  = Ok None.
Proof. reflexivity. Qed.

Example frame_with_bare_blank_line :
  Smoke._try_parse_one (U := Sample.unicode) (J := Sample.json)
    (b "Content-Length: 2" ++ LFLF ++ b "{}" ++ b "next")
  = (Ok (Some (VDict [])), b "next").
Proof. reflexivity. Qed.

Example body_is_not_an_object :
  Smoke._try_parse_one (U := Sample.unicode) (J := Sample.json)
    (b "Content-Length: 2" ++ CRLFCRLF ++ b "[]" ++ b "next")
  = (Raise (Smoke.SmokeTestError (Smoke.NotAnObject (VList []))), b "next").
Proof. reflexivity. Qed.

Example body_is_not_json :
  Smoke._try_parse_one (U := Sample.unicode) (J := Sample.json)
    (b "Content-Length: 2" ++ CRLFCRLF ++ b "{x" ++ b "next")
  = (Raise (Smoke.SmokeTestError (Smoke.JsonDecodeFailed (b "{x"))), b "next").
Proof. reflexivity. Qed.

Example missing_length :
  Smoke._try_parse_one (U := Sample.unicode) (J := Sample.json)
    (b "Content-Type: json" ++ CRLFCRLF ++ b "{}")
  = (Raise (Smoke.SmokeTestError (Smoke.InvalidHeader (b "Content-Type: json"))),
     b "Content-Type: json" ++ CRLFCRLF ++ b "{}").
Proof. reflexivity. Qed.

(** The response to request 1 answers a wait for 1, and so does a
    response whose [id] is [1.0] or [true]; a notification answers none. *)
Example response_answers : Smoke.answers (VDict Scenario.response_1) 1 = true.
Proof. reflexivity. Qed.

Example notification_answers_nothing :
  Smoke.answers (VDict Scenario.notification) 1 = false.
Proof. reflexivity. Qed.

Example float_id_answers :
  Smoke.answers (VDict [(u "id", VFloat (Finite 1 0))]) 1 = true.
Proof. reflexivity. Qed.

(** The whole exchange: the notification is dropped and the response is
    returned, both from the one chunk the server wrote. *)
Example wait_skips_notification :
  fst (Smoke.recv_response_for_id (U := Sample.unicode) (J := Sample.json) 1 None
         Scenario.two_frames_client)
  = Smoke.Return (VDict Scenario.response_1).
Proof. vm_compute. reflexivity. Qed.

Example shutdown_of_slow_child :
  Smoke._terminate_process Scenario.slow_child 200
  = ([Smoke.CloseStdin; Smoke.Sleep; Smoke.Sleep; Smoke.Terminate; Smoke.Wait],
     Smoke.Finished).
Proof. reflexivity. Qed.

Example shutdown_of_stubborn_child :
  Smoke._terminate_process Scenario.stubborn_child 200
  = ([Smoke.CloseStdin; Smoke.Sleep; Smoke.Sleep; Smoke.Terminate; Smoke.Wait;
      Smoke.Kill], Smoke.Finished).
Proof. reflexivity. Qed.

(** [int] converts a string of 4300 digits and refuses one of 4301, leading
    zeros counted. *)
Example int_of_4300_digits :
  int (U := Sample.unicode) (repeat 0x30 4299 ++ [0x35]) = Some 5.
Proof. vm_compute. reflexivity. Qed.

Example int_of_4301_digits :
  int (U := Sample.unicode) (repeat 0x30 4300 ++ [0x35]) = None.
Proof. vm_compute. reflexivity. Qed.

(** The header with a length of 4301 digits: a one and 4300 zeros. *)
Example long_length_raises :
  Smoke._try_parse_one (U := Sample.unicode) (J := Sample.json)
    (b "Content-Length: 1" ++ repeat x30 4300 ++ CRLFCRLF)
  = (Raise Smoke.ValueError, b "Content-Length: 1" ++ repeat x30 4300 ++ CRLFCRLF).
Proof. vm_compute. reflexivity. Qed.

(** A frame that stops after ten bytes: the call times out and the ten
    bytes stay in the buffer. *)
Example partial_frame_times_out :
  Smoke.recv_message (U := Sample.unicode) (J := Sample.json) None
    Scenario.stalling_client
  = (Smoke.Raises (Smoke.SmokeTestError Smoke.TimedOutReadable),
     Smoke.with_stdout
       (Smoke.after Scenario.stalling_client
          (firstn 10 (Scenario.frame_of Scenario.response_1)) [3]) []).
Proof. vm_compute. reflexivity. Qed.

End Runs.

(* ================================================================== *)
(** * Facts about the runtime operations *)
(* ================================================================== *)

Module PyFacts.

Lemma byte_val_range (c : byte) : 0 <= byte_val c < 256.
Proof.
  unfold byte_val. pose proof (Byte.to_N_bounded c). lia.
Qed.

Lemma byte_of_val (c : byte) : byte_of_Z (byte_val c) = c.
Proof.
  unfold byte_of_Z, byte_val. rewrite N2Z.id, Byte.of_to_N. reflexivity.
Qed.

Lemma byte_val_of (z : Z) : 0 <= z < 256 -> byte_val (byte_of_Z z) = z.
Proof.
  intros Hz. unfold byte_of_Z, byte_val.
  destruct (Byte.of_N (Z.to_N z)) as [c|] eqn:E.
  - apply Byte.to_of_N in E. rewrite E. lia.
  - apply Byte.of_N_None_iff in E. lia.
Qed.

Lemma byte_eqb_eq (c d : byte) : Byte.eqb c d = true <-> c = d.
Proof.
  split; [apply Byte.byte_dec_bl | apply Byte.byte_dec_lb].
Qed.

Lemma byte_eqb_neq (c d : byte) : c <> d -> Byte.eqb c d = false.
Proof.
  intros Hne. destruct (Byte.eqb c d) eqn:E; [|reflexivity].
  apply byte_eqb_eq in E. contradiction.
Qed.

Lemma bytes_eqb_eq (s t : bytes) : bytes_eqb s t = true <-> s = t.
Proof.
  revert t. induction s as [|c s IH]; intros [|d t]; simpl;
    try (split; [discriminate | discriminate]); try tauto.
  rewrite andb_true_iff, byte_eqb_eq, IH. split.
  - intros [-> ->]. reflexivity.
  - intros E. inversion E. auto.
Qed.

Lemma text_eqb_eq (s t : text) : text_eqb s t = true <-> s = t.
Proof.
  revert t. induction s as [|c s IH]; intros [|d t]; simpl;
    try (split; [discriminate | discriminate]); try tauto.
  rewrite andb_true_iff, Z.eqb_eq, IH. split.
  - intros [-> ->]. reflexivity.
  - intros E. inversion E. auto.
Qed.

Lemma len_app (s t : bytes) : len (s ++ t) = len s + len t.
Proof. unfold len. rewrite length_app. lia. Qed.

Lemma len_nonneg (s : bytes) : 0 <= len s.
Proof. unfold len. lia. Qed.

(** *** Slices of a concatenation *)

Lemma slice_prefix (s t : bytes) : slice (s ++ t) 0 (len s) = s.
Proof.
  unfold slice, len. simpl. rewrite Z.sub_0_r, Nat2Z.id.
  rewrite firstn_app, Nat.sub_diag, firstn_all. simpl. apply app_nil_r.
Qed.

Lemma slice_middle (s t r : bytes) (n : Z) :
  n = len t -> slice (s ++ t ++ r) (len s) (len s + n) = t.
Proof.
  intros ->. unfold slice, len.
  replace (Z.of_nat (List.length s) + Z.of_nat (List.length t)
           - Z.of_nat (List.length s)) with (Z.of_nat (List.length t)) by lia.
  rewrite !Nat2Z.id, skipn_app, skipn_all, Nat.sub_diag. simpl.
  rewrite firstn_app, Nat.sub_diag, firstn_all. simpl. apply app_nil_r.
Qed.

Lemma del_front_app (s t : bytes) : del_front (s ++ t) (len s) = t.
Proof.
  unfold del_front, len. rewrite Nat2Z.id, skipn_app, skipn_all, Nat.sub_diag.
  reflexivity.
Qed.

(** Cutting a buffer at an index inside it. *)
Lemma slice_del_front (s : bytes) (n : Z) :
  0 <= n <= len s -> s = slice s 0 n ++ del_front s n.
Proof.
  intros _. unfold slice, del_front. simpl. rewrite Z.sub_0_r.
  symmetry. apply firstn_skipn.
Qed.

Lemma len_slice (s : bytes) (lo hi : Z) :
  0 <= lo <= hi -> hi <= len s -> len (slice s lo hi) = hi - lo.
Proof.
  unfold slice, len. intros H1 H2.
  rewrite length_firstn, length_skipn. lia.
Qed.

Lemma len_del_front (s : bytes) (n : Z) :
  0 <= n <= len s -> len (del_front s n) = len s - n.
Proof.
  unfold del_front, len. intros H. rewrite length_skipn. lia.
Qed.

(** *** [find] returns the first occurrence *)

Lemma startswith_iff (pat s : bytes) :
  startswith pat s = true <-> exists post, s = pat ++ post.
Proof.
  revert s. induction pat as [|p pat IH]; intros s; simpl.
  - split; [intros _; exists s; reflexivity | reflexivity].
  - destruct s as [|c s].
    + split; [discriminate | intros [post E]; discriminate].
    + rewrite andb_true_iff, byte_eqb_eq, IH. split.
      * intros [-> [post ->]]. exists post. reflexivity.
      * intros [post E]. inversion E. split; [reflexivity | exists post; reflexivity].
Qed.

Lemma occurs_at_skipn (pat s : bytes) (k : nat) :
  occurs_at pat s (Z.of_nat k) <-> (k <= List.length s)%nat /\ startswith pat (skipn k s) = true.
Proof.
  rewrite startswith_iff. split.
  - intros (pre & post & -> & Hlen). unfold len in Hlen.
    apply Nat2Z.inj in Hlen. subst k. split.
    + rewrite length_app. lia.
    + exists post. rewrite skipn_app, skipn_all, Nat.sub_diag. reflexivity.
  - intros [Hk [post E]]. exists (firstn k s), post. split.
    + rewrite <- E. symmetry. apply firstn_skipn.
    + unfold len. rewrite length_firstn. lia.
Qed.

Lemma occurs_at_nonneg (pat s : bytes) (i : Z) : occurs_at pat s i -> 0 <= i <= len s.
Proof.
  intros (pre & post & -> & <-). rewrite len_app. pose proof (len_nonneg pre).
  pose proof (len_nonneg (pat ++ post)). lia.
Qed.

Lemma occurs_at_cons (pat : bytes) (c : byte) (s : bytes) (i : Z) :
  0 <= i -> occurs_at pat s i <-> occurs_at pat (c :: s) (i + 1).
Proof.
  intros Hi. split.
  - intros (pre & post & -> & <-). exists (c :: pre), post. split; [reflexivity|].
    unfold len. simpl. lia.
  - intros (pre & post & E & Hlen). destruct pre as [|d pre].
    + unfold len in Hlen. simpl in Hlen. lia.
    + inversion E; subst. exists pre, post. split; [reflexivity|].
      unfold len in *. simpl in Hlen. lia.
Qed.

Lemma occurs_at_0 (pat s : bytes) :
  occurs_at pat s 0 <-> startswith pat s = true.
Proof.
  rewrite startswith_iff. split.
  - intros (pre & post & -> & Hlen). destruct pre; [|unfold len in Hlen; simpl in Hlen; lia].
    exists post. reflexivity.
  - intros [post ->]. exists [], post. split; reflexivity.
Qed.

Lemma find_from_spec (pat s : bytes) (i : Z) :
  (find_from pat s i = -1 /\ forall j, ~ occurs_at pat s j)
  \/ (exists k, find_from pat s i = i + k /\ first_occurrence pat s k).
Proof.
  revert i. induction s as [|c s IH]; intros i.
  - simpl. destruct (startswith pat []) eqn:E.
    + right. exists 0. split; [lia|]. split.
      * apply occurs_at_0. exact E.
      * intros j Hj. apply occurs_at_nonneg in Hj. lia.
    + left. split; [reflexivity|]. intros j Hj.
      pose proof (occurs_at_nonneg _ _ _ Hj) as Hr. unfold len in Hr. simpl in Hr.
      assert (j = 0) by lia. subst j. apply occurs_at_0 in Hj. congruence.
  - simpl. destruct (startswith pat (c :: s)) eqn:E.
    + right. exists 0. split; [lia|]. split.
      * apply occurs_at_0. exact E.
      * intros j Hj. apply occurs_at_nonneg in Hj. lia.
    + destruct (IH (i + 1)) as [[Hf Hno] | (k & Hf & [Hk Hmin])].
      * left. split; [exact Hf|]. intros j Hj.
        pose proof (occurs_at_nonneg _ _ _ Hj) as [Hj0 _].
        destruct (Z.eq_dec j 0) as [->|Hne].
        -- apply occurs_at_0 in Hj. congruence.
        -- apply (Hno (j - 1)). apply (occurs_at_cons pat c); [lia|].
           replace (j - 1 + 1) with j by lia. exact Hj.
      * right. exists (k + 1). split; [lia|]. split.
        -- apply occurs_at_cons; [apply (occurs_at_nonneg _ _ _ Hk) | exact Hk].
        -- intros j Hj. pose proof (occurs_at_nonneg _ _ _ Hj) as [Hj0 _].
           destruct (Z.eq_dec j 0) as [->|Hne].
           ++ apply occurs_at_0 in Hj. congruence.
           ++ assert (k <= j - 1); [|lia]. apply Hmin.
              apply (occurs_at_cons pat c); [lia|].
              replace (j - 1 + 1) with j by lia. exact Hj.
Qed.

Lemma find_found (s pat : bytes) (i : Z) :
  find s pat = i -> i <> -1 -> first_occurrence pat s i.
Proof.
  unfold find. intros E Hne.
  destruct (find_from_spec pat s 0) as [[Hf _] | (k & Hf & Hk)]; [congruence|].
  replace i with k by lia. exact Hk.
Qed.

Lemma find_missing (s pat : bytes) :
  find s pat = -1 -> forall j, ~ occurs_at pat s j.
Proof.
  unfold find. intros E.
  destruct (find_from_spec pat s 0) as [[_ Hno] | (k & Hf & [Hk _])]; [exact Hno|].
  apply occurs_at_nonneg in Hk. lia.
Qed.

Lemma find_first (s pat : bytes) (i : Z) :
  first_occurrence pat s i -> find s pat = i.
Proof.
  intros [Hi Hmin]. unfold find.
  destruct (find_from_spec pat s 0) as [[_ Hno] | (k & Hf & [Hk Hkmin])].
  - exfalso. exact (Hno i Hi).
  - specialize (Hmin k Hk). specialize (Hkmin i Hi). lia.
Qed.

Lemma find_no_occurrence (s pat : bytes) :
  (forall j, ~ occurs_at pat s j) -> find s pat = -1.
Proof.
  intros Hno. unfold find.
  destruct (find_from_spec pat s 0) as [[Hf _] | (k & _ & [Hk _])]; [exact Hf|].
  exfalso. exact (Hno k Hk).
Qed.

Lemma find_range (s pat : bytes) : find s pat = -1 \/ 0 <= find s pat <= len s.
Proof.
  destruct (Z.eq_dec (find s pat) (-1)) as [E|Hne]; [left; exact E|right].
  destruct (find_found s pat _ eq_refl Hne) as [Hi _].
  exact (occurs_at_nonneg _ _ _ Hi).
Qed.

Lemma find_from_skip (p : byte) (pat pre rest : bytes) (i : Z) :
  ~ In p pre ->
  find_from (p :: pat) (pre ++ rest) i = find_from (p :: pat) rest (i + len pre).
Proof.
  revert i. induction pre as [|c pre IH]; intros i Hp.
  - simpl. unfold len. simpl. f_equal. lia.
  - simpl app. cbn [find_from startswith].
    rewrite (byte_eqb_neq p c) by (intros ->; apply Hp; left; reflexivity).
    simpl. rewrite IH by (intros Hin; apply Hp; right; exact Hin).
    f_equal. unfold len. simpl. lia.
Qed.

(** *** ASCII text through the codecs *)

Lemma len_to_bytes (t : text) : len (to_bytes t) = Z.of_nat (List.length t).
Proof. unfold len, to_bytes. rewrite length_map. reflexivity. Qed.

Lemma encode_ascii_ascii (t : text) : is_ascii t -> encode_ascii t = Some (to_bytes t).
Proof.
  induction 1 as [|c t Hc _ IH]; simpl; [reflexivity|].
  destruct (Z.leb_spec 0 c); [|lia]. destruct (Z.ltb_spec c 0x80); [|lia].
  simpl. rewrite IH. reflexivity.
Qed.

Lemma encode_utf8_ascii (t : text) : is_ascii t -> encode_utf8 t = Some (to_bytes t).
Proof.
  induction 1 as [|c t Hc _ IH]; simpl; [reflexivity|].
  rewrite IH. unfold encode_cp.
  destruct (Z.ltb_spec c 0); [lia|]. destruct (Z.ltb_spec 0x10FFFF c); [lia|].
  destruct (Z.ltb_spec c 0x80); [|lia]. reflexivity.
Qed.

Lemma utf8_scan_ascii (t : text) : is_ascii t -> utf8_scan (to_bytes t) = map Some t.
Proof.
  induction 1 as [|c t Hc _ IH]; [reflexivity|].
  cbn [to_bytes map utf8_scan]. fold (to_bytes t).
  rewrite byte_val_of by lia. destruct (Z.ltb_spec c 0x80); [|lia].
  rewrite IH. reflexivity.
Qed.

Lemma decode_utf8_ascii (t : text) : is_ascii t -> decode_utf8 (to_bytes t) = Some t.
Proof.
  intros H. unfold decode_utf8. rewrite utf8_scan_ascii by exact H.
  clear H. induction t as [|c t IH]; simpl; [reflexivity|]. rewrite IH. reflexivity.
Qed.

Lemma decode_utf8_replace_ascii (t : text) :
  is_ascii t -> decode_utf8_replace (to_bytes t) = t.
Proof.
  intros H. unfold decode_utf8_replace. rewrite utf8_scan_ascii by exact H.
  rewrite map_map. apply map_id.
Qed.

Lemma to_bytes_app (s t : text) : to_bytes (s ++ t) = to_bytes s ++ to_bytes t.
Proof. apply map_app. Qed.

Lemma to_bytes_not_in (t : text) (c : Z) :
  is_ascii t -> 0 <= c < 0x80 -> ~ In c t -> ~ In (byte_of_Z c) (to_bytes t).
Proof.
  intros Ht Hc Hn Hin. apply in_map_iff in Hin. destruct Hin as (d & E & Hd).
  pose proof (proj1 (Forall_forall _ _) Ht _ Hd) as Hd'. simpl in Hd'.
  apply (f_equal byte_val) in E. rewrite !byte_val_of in E by lia. subst d. auto.
Qed.

(** *** str operations on text without the character looked for *)

Lemma replace_absent (t old new : text) (c : Z) :
  ~ In c t -> replace t (c :: old) new = t.
Proof.
  unfold replace. induction t as [|d t IH]; intros Hn; [reflexivity|].
  cbn [replace_go text_startswith].
  destruct (Z.eqb_spec c d) as [->|_]; [exfalso; apply Hn; left; reflexivity|].
  simpl. rewrite IH; [reflexivity|]. intros Hin. apply Hn. right. exact Hin.
Qed.

Lemma split_absent (t : text) (sep : Z) : ~ In sep t -> split t sep = [t].
Proof.
  induction t as [|d t IH]; intros Hn; [reflexivity|]. simpl.
  destruct (Z.eqb_spec d sep) as [->|_]; [exfalso; apply Hn; left; reflexivity|].
  rewrite IH; [reflexivity|]. intros Hin. apply Hn. right. exact Hin.
Qed.

Lemma split_once_at (pre post : text) (sep : Z) :
  ~ In sep pre -> split_once (pre ++ sep :: post) sep = (pre, post).
Proof.
  induction pre as [|d pre IH]; intros Hn; simpl.
  - rewrite Z.eqb_refl. reflexivity.
  - destruct (Z.eqb_spec d sep) as [->|_]; [exfalso; apply Hn; left; reflexivity|].
    rewrite IH; [reflexivity|]. intros Hin. apply Hn. right. exact Hin.
Qed.

Lemma contains_at (pre post : text) (sep : Z) : contains (pre ++ sep :: post) sep = true.
Proof.
  unfold contains. rewrite existsb_app. simpl. rewrite Z.eqb_refl.
  apply orb_true_iff. right. reflexivity.
Qed.

(** *** Decimal numerals *)

Lemma digits_go_S (fuel : nat) (n : Z) (acc : text) :
  digits_go (S fuel) n acc =
  if n <? 10 then (0x30 + n mod 10) :: acc
  else digits_go fuel (n / 10) ((0x30 + n mod 10) :: acc).
Proof. reflexivity. Qed.

Lemma digits_go_spec (fuel : nat) (n : Z) (acc : text) :
  0 <= n < 2 ^ Z.of_nat (S fuel) ->
  exists ds, digits_go (S fuel) n acc = ds ++ acc /\ is_digits ds /\ ds <> []
             /\ digits_value ds = n.
Proof.
  revert n acc. induction fuel as [|fuel IH]; intros n acc Hn.
  - assert (n < 10) by (cbn in Hn; lia).
    rewrite digits_go_S. destruct (Z.ltb_spec n 10); [|lia].
    exists [0x30 + n mod 10]. rewrite Z.mod_small by lia.
    repeat split; [|discriminate|unfold digits_value; cbn [fold_left]; lia].
    constructor; [lia|constructor].
  - rewrite digits_go_S. destruct (Z.ltb_spec n 10) as [Hlt|Hge].
    + exists [0x30 + n mod 10]. rewrite Z.mod_small by lia.
      repeat split; [|discriminate|unfold digits_value; cbn [fold_left]; lia].
      constructor; [lia|constructor].
    + assert (Hq : 0 <= n / 10 < 2 ^ Z.of_nat (S fuel)).
      { split; [apply Z.div_pos; lia|].
        apply Z.div_lt_upper_bound; [lia|].
        replace (Z.of_nat (S (S fuel))) with (Z.succ (Z.of_nat (S fuel))) in Hn by lia.
        rewrite Z.pow_succ_r in Hn by lia. lia. }
      destruct (IH (n / 10) ((0x30 + n mod 10) :: acc) Hq) as (ds & E & Hd & _ & Hv).
      exists (ds ++ [0x30 + n mod 10]). rewrite E, <- app_assoc. cbn [app].
      pose proof (Z.mod_pos_bound n 10 ltac:(lia)) as Hm.
      repeat split.
      * apply Forall_app. split; [exact Hd|]. constructor; [lia|constructor].
      * intros Habs. apply app_eq_nil in Habs. destruct Habs. discriminate.
      * unfold digits_value in *. rewrite fold_left_app. cbn [fold_left]. rewrite Hv.
        pose proof (Z.div_mod n 10 ltac:(lia)). lia.
Qed.

Lemma str_digits (n : Z) :
  0 <= n -> is_digits (str n) /\ str n <> [] /\ digits_value (str n) = n.
Proof.
  intros Hn. unfold str. destruct (Z.ltb_spec n 0); [lia|].
  destruct (digits_go_spec (Z.to_nat (Z.log2 n)) n []) as (ds & E & Hd & Hne & Hv).
  - split; [exact Hn|]. rewrite Nat2Z.inj_succ, Z2Nat.id by apply Z.log2_nonneg.
    destruct (Z.eq_dec n 0) as [->|Hnz]; [simpl; lia|].
    apply Z.log2_spec. lia.
  - rewrite E, app_nil_r. auto.
Qed.

Lemma is_digits_ascii (t : text) : is_digits t -> is_ascii t.
Proof. apply Forall_impl. intros c Hc. simpl in *. lia. Qed.

Lemma is_digits_not_in (t : text) (c : Z) : is_digits t -> ~ (0x30 <= c <= 0x39) -> ~ In c t.
Proof.
  intros Ht Hc Hin. apply Hc. exact (proj1 (Forall_forall _ _) Ht _ Hin).
Qed.

Section UnicodeFacts.
Context {U : UnicodeData}.

Lemma strip_no_space (t : text) :
  Forall (fun c => isspace_cp c = false) t -> strip t = t.
Proof.
  intros H. unfold strip.
  assert (D : forall s, Forall (fun c => isspace_cp c = false) s ->
                        dropwhile isspace_cp s = s).
  { intros s Hs. destruct Hs as [|c s Hc _]; [reflexivity|]. simpl. rewrite Hc. reflexivity. }
  rewrite (D t H). rewrite D by (apply Forall_rev; exact H). apply rev_involutive.
Qed.

Lemma strip_leading (c : Z) (t : text) :
  isspace_cp c = true -> Forall (fun d => isspace_cp d = false) t -> t <> [] ->
  strip (c :: t) = t.
Proof.
  intros Hc Ht Hne. unfold strip. cbn [dropwhile]. rewrite Hc.
  fold (strip t). apply strip_no_space. exact Ht.
Qed.

Lemma lower_ascii_text (t : text) : is_ascii t -> lower t = map ascii_lower t.
Proof.
  induction 1 as [|c t Hc _ IH]; [reflexivity|].
  unfold lower in *. simpl. rewrite lower_ascii by exact Hc. rewrite IH. reflexivity.
Qed.

Lemma digits_no_space (t : text) :
  is_digits t -> Forall (fun c => isspace_cp c = false) t.
Proof.
  apply Forall_impl. intros c Hc. simpl in Hc. rewrite isspace_ascii by lia.
  unfold ascii_isspace.
  destruct (Z.leb_spec c 0x0D); [lia|]. destruct (Z.leb_spec c 0x20); [lia|].
  rewrite !andb_false_r. reflexivity.
Qed.

Lemma isdigit_digits (t : text) : is_digits t -> t <> [] -> isdigit t = true.
Proof.
  intros Ht Hne. unfold isdigit. destruct t as [|c t]; [contradiction|].
  apply forallb_forall. intros d Hd.
  pose proof (proj1 (Forall_forall _ _) Ht _ Hd) as Hd'. simpl in Hd'.
  rewrite isdigit_ascii by lia. unfold ascii_isdigit.
  destruct (Z.leb_spec 0x30 d); [|lia]. destruct (Z.leb_spec d 0x39); [|lia]. reflexivity.
Qed.

Lemma fold_digits_bound (t : text) :
  is_digits t ->
  forall acc, 0 <= acc ->
    0 <= fold_left (fun a c => a * 10 + (c - 0x30)) t acc
    < (acc + 1) * 10 ^ Z.of_nat (List.length t).
Proof.
  induction 1 as [|c t Hc _ IH]; intros acc Hacc.
  - cbn [fold_left List.length]. change (10 ^ Z.of_nat 0) with 1. lia.
  - cbn [fold_left]. specialize (IH (acc * 10 + (c - 0x30)) ltac:(lia)).
    replace (Z.of_nat (List.length (c :: t))) with (Z.succ (Z.of_nat (List.length t)))
      by (cbn [List.length]; lia).
    rewrite Z.pow_succ_r by lia.
    pose proof (Z.pow_pos_nonneg 10 (Z.of_nat (List.length t)) ltac:(lia) ltac:(lia)).
    nia.
Qed.

Lemma digits_value_bound (t : text) :
  is_digits t -> 0 <= digits_value t < 10 ^ Z.of_nat (List.length t).
Proof.
  intros Ht. pose proof (fold_digits_bound t Ht 0 ltac:(lia)) as H.
  unfold digits_value. lia.
Qed.

Lemma digits_go_length (fuel : nat) :
  forall (k n : Z) (acc : text),
    1 <= k -> 0 <= n < 10 ^ k ->
    Z.of_nat (List.length (digits_go fuel n acc)) <= k + Z.of_nat (List.length acc).
Proof.
  induction fuel as [|fuel IH]; intros k n acc Hk Hn.
  - cbn [digits_go]. lia.
  - rewrite digits_go_S. destruct (Z.ltb_spec n 10) as [Hlt|Hge].
    + cbn [List.length]. lia.
    + assert (Hk2 : 2 <= k).
      { destruct (Z.eq_dec k 1) as [->|]; [|lia]. change (10 ^ 1) with 10 in Hn. lia. }
      assert (Hq : 0 <= n / 10 < 10 ^ (k - 1)).
      { split; [apply Z.div_pos; lia|].
        apply Z.div_lt_upper_bound; [lia|].
        rewrite <- Z.pow_succ_r by lia. replace (Z.succ (k - 1)) with k by lia.
        apply Hn. }
      pose proof (IH (k - 1) (n / 10) ((0x30 + n mod 10) :: acc) ltac:(lia) Hq) as H.
      cbn [List.length] in H. lia.
Qed.

Lemma str_length (n k : Z) :
  1 <= k -> 0 <= n < 10 ^ k -> Z.of_nat (List.length (str n)) <= k.
Proof.
  intros Hk Hn. unfold str. destruct (Z.ltb_spec n 0); [lia|].
  pose proof (digits_go_length (S (Z.to_nat (Z.log2 n))) k n [] Hk Hn) as Hg.
  cbn [List.length] in Hg. lia.
Qed.

Lemma max_size_converts : max_size < 10 ^ int_max_str_digits.
Proof.
  apply Z.lt_le_trans with (10 ^ 19); [reflexivity|].
  apply Z.pow_le_mono_r; [lia | unfold int_max_str_digits; lia].
Qed.

Lemma len_converts (t : bytes) :
  len t <= max_size -> 0 <= len t < 10 ^ int_max_str_digits.
Proof.
  intros H. pose proof (len_nonneg t). pose proof max_size_converts. lia.
Qed.

Lemma str_converts (n : Z) :
  0 <= n < 10 ^ int_max_str_digits ->
  Z.of_nat (List.length (str n)) <= int_max_str_digits.
Proof.
  intros Hn. apply str_length; [unfold int_max_str_digits; lia | exact Hn].
Qed.

Lemma int_go_digits (t : text) (acc : Z) :
  is_digits t -> int_go acc t = Some (fold_left (fun a c => a * 10 + (c - 0x30)) t acc).
Proof.
  intros Ht. revert acc. induction Ht as [|c t Hc _ IH]; intros acc; [reflexivity|].
  simpl. rewrite decimal_ascii by lia. unfold ascii_isdigit.
  destruct (Z.leb_spec 0x30 c); [|lia]. destruct (Z.leb_spec c 0x39); [|lia].
  simpl. apply IH.
Qed.

Lemma int_digits (t : text) :
  is_digits t -> t <> [] -> Z.of_nat (List.length t) <= int_max_str_digits ->
  int t = Some (digits_value t).
Proof.
  intros Ht Hne Hl. unfold int. destruct t as [|c t]; [contradiction|].
  destruct (Z.ltb_spec int_max_str_digits (Z.of_nat (List.length (c :: t)))); [lia|].
  apply int_go_digits. exact Ht.
Qed.

Lemma int_long (t : text) :
  int_max_str_digits < Z.of_nat (List.length t) -> int t = None.
Proof.
  intros Hl. unfold int. destruct t as [|c t]; [reflexivity|].
  destruct (Z.ltb_spec int_max_str_digits (Z.of_nat (List.length (c :: t))));
    [reflexivity | lia].
Qed.

Lemma int_str_cases (n : Z) : 0 <= n -> int (str n) = Some n \/ int (str n) = None.
Proof.
  intros Hn. destruct (str_digits n Hn) as (Hd & Hne & Hv).
  destruct (Z.le_gt_cases (Z.of_nat (List.length (str n))) int_max_str_digits) as [Hl|Hl].
  - left. rewrite int_digits by assumption. rewrite Hv. reflexivity.
  - right. apply int_long. lia.
Qed.

Lemma int_str (n : Z) : 0 <= n < 10 ^ int_max_str_digits -> int (str n) = Some n.
Proof.
  intros Hb. destruct (str_digits n (proj1 Hb)) as (Hd & Hne & Hv).
  rewrite int_digits by (assumption || (apply str_converts; exact Hb)).
  rewrite Hv. reflexivity.
Qed.

Lemma int_str_long (n : Z) : 10 ^ int_max_str_digits <= n -> int (str n) = None.
Proof.
  intros Hn. assert (H0 : 0 <= n).
  { pose proof (Z.pow_nonneg 10 int_max_str_digits ltac:(lia)). lia. }
  destruct (str_digits n H0) as (Hd & Hne & Hv).
  apply int_long.
  destruct (Z.le_gt_cases (Z.of_nat (List.length (str n))) int_max_str_digits) as [Hl|Hl];
    [|lia].
  exfalso. pose proof (digits_value_bound (str n) Hd) as Hbound. rewrite Hv in Hbound.
  assert (10 ^ Z.of_nat (List.length (str n)) <= 10 ^ int_max_str_digits)
    by (apply Z.pow_le_mono_r; lia).
  lia.
Qed.

End UnicodeFacts.

End PyFacts.

(* ================================================================== *)
(** * Facts about the frame codec of the smoke test *)
(* ================================================================== *)

Module SmokeFacts.
Import PyFacts Smoke.

Lemma is_ascii_check (t : text) :
  forallb (fun c => (0 <=? c) && (c <? 0x80)) t = true -> is_ascii t.
Proof.
  intros H. apply Forall_forall. intros c Hc.
  rewrite forallb_forall in H. apply H in Hc. apply andb_true_iff in Hc. lia.
Qed.

Lemma not_in_check (c : Z) (t : text) : existsb (Z.eqb c) t = false -> ~ In c t.
Proof.
  intros H Hin. assert (E : existsb (Z.eqb c) t = true).
  { apply existsb_exists. exists c. split; [exact Hin | apply Z.eqb_refl]. }
  congruence.
Qed.

Lemma header_text_ascii (n : Z) : 0 <= n -> is_ascii (u "Content-Length: " ++ str n).
Proof.
  intros Hn. apply Forall_app. split.
  - apply is_ascii_check. reflexivity.
  - apply is_digits_ascii. apply str_digits. exact Hn.
Qed.

Lemma header_text_not_in (n c : Z) :
  0 <= n -> existsb (Z.eqb c) (u "Content-Length: ") = false ->
  ~ (0x30 <= c <= 0x39) -> ~ In c (u "Content-Length: " ++ str n).
Proof.
  intros Hn H1 H2 Hin. apply in_app_or in Hin. destruct Hin as [Hin|Hin].
  - exact (not_in_check _ _ H1 Hin).
  - exact (is_digits_not_in _ _ (proj1 (str_digits n Hn)) H2 Hin).
Qed.

Lemma header_line_no_CR (n : Z) : 0 <= n -> ~ In CR (header_line n).
Proof.
  intros Hn. change CR with (byte_of_Z 0x0D). apply to_bytes_not_in.
  - apply header_text_ascii. exact Hn.
  - lia.
  - apply header_text_not_in; [exact Hn | reflexivity | lia].
Qed.

Lemma header_line_no_LF (n : Z) : 0 <= n -> ~ In LF (header_line n).
Proof.
  intros Hn. change LF with (byte_of_Z 0x0A). apply to_bytes_not_in.
  - apply header_text_ascii. exact Hn.
  - lia.
  - apply header_text_not_in; [exact Hn | reflexivity | lia].
Qed.

Section CodecFacts.
Context {U : UnicodeData} {J : JsonModule}.

Lemma no_space_check (t : text) :
  forallb (fun c => (0 <=? c) && (c <? 0x80) && negb (ascii_isspace c)) t = true ->
  Forall (fun c => isspace_cp c = false) t.
Proof.
  intros H. apply Forall_forall. intros c Hc.
  rewrite forallb_forall in H. apply H in Hc.
  apply andb_true_iff in Hc. destruct Hc as [Hc Hs].
  apply andb_true_iff in Hc. rewrite isspace_ascii by lia.
  apply negb_true_iff. exact Hs.
Qed.

(** The header line of [send] declares the length it was written for. *)
Lemma parse_header_line_any (n : Z) :
  0 <= n ->
  _parse_content_length (header_line n)
  = match int (str n) with
    | Some k => Ok (Some k)
    | None => Raise ValueError
    end.
Proof.
  intros Hn. destruct (str_digits n Hn) as (Hd & Hne & Hv).
  unfold _parse_content_length, header_line.
  rewrite decode_utf8_replace_ascii by (apply header_text_ascii; exact Hn).
  rewrite replace_absent
    by (apply header_text_not_in; [exact Hn | reflexivity | lia]).
  rewrite split_absent
    by (apply header_text_not_in; [exact Hn | reflexivity | lia]).
  change (u "Content-Length: " ++ str n)
    with (u "Content-Length" ++ 0x3A :: 0x20 :: str n).
  cbn [content_length_of_lines]. rewrite contains_at. cbn [negb].
  rewrite split_once_at by (apply not_in_check; reflexivity).
  rewrite strip_no_space by (apply no_space_check; reflexivity).
  rewrite lower_ascii_text by (apply is_ascii_check; reflexivity).
  change (text_eqb (map ascii_lower (u "Content-Length")) (u "content-length"))
    with true. cbv iota.
  rewrite strip_leading;
    [| rewrite isspace_ascii by lia; reflexivity
     | apply digits_no_space; exact Hd | exact Hne].
  rewrite isdigit_digits by assumption. cbn [negb]. reflexivity.
Qed.

Lemma parse_header_line (n : Z) :
  0 <= n < 10 ^ int_max_str_digits ->
  _parse_content_length (header_line n) = Ok (Some n).
Proof.
  intros Hb. rewrite parse_header_line_any by apply Hb.
  rewrite int_str by exact Hb. reflexivity.
Qed.

(** The same for any digits behind the header name. *)
Lemma length_text_not_in (digits : text) (c : Z) :
  is_digits digits -> existsb (Z.eqb c) (u "Content-Length: ") = false ->
  ~ (0x30 <= c <= 0x39) -> ~ In c (u "Content-Length: " ++ digits).
Proof.
  intros Hd H1 H2 Hin. apply in_app_or in Hin. destruct Hin as [Hin|Hin].
  - exact (not_in_check _ _ H1 Hin).
  - exact (is_digits_not_in _ _ Hd H2 Hin).
Qed.

Lemma length_text_ascii (digits : text) :
  is_digits digits -> is_ascii (u "Content-Length: " ++ digits).
Proof.
  intros Hd. apply Forall_app. split.
  - apply is_ascii_check. reflexivity.
  - apply is_digits_ascii. exact Hd.
Qed.

Lemma parse_length_digits (digits : text) :
  is_digits digits -> digits <> [] ->
  _parse_content_length (to_bytes (u "Content-Length: " ++ digits))
  = match int digits with
    | Some k => Ok (Some k)
    | None => Raise ValueError
    end.
Proof.
  intros Hd Hne. unfold _parse_content_length.
  rewrite decode_utf8_replace_ascii by (apply length_text_ascii; exact Hd).
  rewrite replace_absent
    by (apply length_text_not_in; [exact Hd | reflexivity | lia]).
  rewrite split_absent
    by (apply length_text_not_in; [exact Hd | reflexivity | lia]).
  change (u "Content-Length: " ++ digits)
    with (u "Content-Length" ++ 0x3A :: 0x20 :: digits).
  cbn [content_length_of_lines]. rewrite contains_at. cbn [negb].
  rewrite split_once_at by (apply not_in_check; reflexivity).
  rewrite strip_no_space by (apply no_space_check; reflexivity).
  rewrite lower_ascii_text by (apply is_ascii_check; reflexivity).
  change (text_eqb (map ascii_lower (u "Content-Length")) (u "content-length"))
    with true. cbv iota.
  rewrite strip_leading;
    [| rewrite isspace_ascii by lia; reflexivity
     | apply digits_no_space; exact Hd | exact Hne].
  rewrite isdigit_digits by assumption. cbn [negb]. reflexivity.
Qed.

Lemma length_line_no_CR (digits : text) :
  is_digits digits -> ~ In CR (to_bytes (u "Content-Length: " ++ digits)).
Proof.
  intros Hd. change CR with (byte_of_Z 0x0D). apply to_bytes_not_in.
  - apply length_text_ascii. exact Hd.
  - lia.
  - apply length_text_not_in; [exact Hd | reflexivity | lia].
Qed.

Lemma is_digits_check (t : text) :
  forallb (fun c => (0x30 <=? c) && (c <=? 0x39)) t = true -> is_digits t.
Proof.
  intros H. apply Forall_forall. intros c Hc.
  rewrite forallb_forall in H. apply H in Hc.
  apply andb_true_iff in Hc. destruct Hc as [H1 H2].
  apply Z.leb_le in H1, H2. lia.
Qed.

Lemma find_header_end_nonempty (buffer : bytes) (h : Z) :
  _find_header_end buffer = Some h -> buffer <> [].
Proof. intros E ->. discriminate. Qed.

Lemma find_header_end_range (buffer : bytes) (h : Z) :
  _find_header_end buffer = Some h -> 0 <= h <= len buffer.
Proof.
  unfold _find_header_end. intros E.
  destruct (Z.eqb_spec (find buffer CRLFCRLF) (-1)) as [E1|N1].
  - destruct (Z.eqb_spec (find buffer LFLF) (-1)) as [E2|N2]; [discriminate|].
    inversion E; subst h. destruct (find_range buffer LFLF); [contradiction|assumption].
  - inversion E; subst h. destruct (find_range buffer CRLFCRLF); [contradiction|assumption].
Qed.

(** [_try_parse_one] once the header is found and declares a length. *)
Lemma try_parse_one_header (buffer : bytes) (h n : Z) :
  _find_header_end buffer = Some h ->
  _parse_content_length (slice buffer 0 h) = Ok (Some n) ->
  _try_parse_one buffer =
  let body_start := h + terminator_width buffer h in
  if len buffer <? body_start + n then (Ok None, buffer)
  else decode_body (slice buffer body_start (body_start + n))
                   (del_front buffer (body_start + n)).
Proof.
  intros Hf Hp. pose proof (find_header_end_nonempty _ _ Hf) as Hne.
  unfold _try_parse_one. destruct buffer as [|c buffer]; [contradiction|].
  rewrite Hf. cbv zeta. rewrite Hp. reflexivity.
Qed.

Lemma try_parse_one_no_header (buffer : bytes) :
  _find_header_end buffer = None -> _try_parse_one buffer = (Ok None, buffer).
Proof.
  intros Hf. unfold _try_parse_one. destruct buffer; [reflexivity|].
  rewrite Hf. reflexivity.
Qed.

Lemma find_header_end_crlf (pre rest : bytes) :
  ~ In CR pre -> _find_header_end (pre ++ CRLFCRLF ++ rest) = Some (len pre).
Proof.
  intros Hn. unfold _find_header_end, find, CRLFCRLF.
  rewrite find_from_skip by exact Hn.
  change (find_from [CR; LF; CR; LF] ([CR; LF; CR; LF] ++ rest) (0 + len pre))
    with (0 + len pre).
  pose proof (len_nonneg pre). destruct (Z.eqb_spec (0 + len pre) (-1)); [lia|].
  cbn [negb]. f_equal.
Qed.

Lemma terminator_width_crlf (pre rest : bytes) :
  terminator_width (pre ++ CRLFCRLF ++ rest) (len pre) = 4.
Proof.
  unfold terminator_width. rewrite (slice_middle pre CRLFCRLF rest 4) by reflexivity.
  reflexivity.
Qed.

(** A buffer that starts with a complete frame of [send]: the body is cut
    out, whatever follows is left in the buffer. *)
Lemma try_parse_one_frame (body rest : bytes) :
  len body <= max_size ->
  _try_parse_one (wire_frame CRLFCRLF body ++ rest) = decode_body body rest.
Proof.
  intros Hsize. pose proof (len_converts body Hsize) as Hb.
  unfold wire_frame. pose proof (len_nonneg body) as Hn.
  set (hdr := header_line (len body)).
  replace ((hdr ++ CRLFCRLF ++ body) ++ rest) with (hdr ++ CRLFCRLF ++ body ++ rest)
    by (rewrite <- !app_assoc; reflexivity).
  rewrite (try_parse_one_header _ (len hdr) (len body)).
  - cbv zeta. rewrite terminator_width_crlf.
    replace (hdr ++ CRLFCRLF ++ body ++ rest) with ((hdr ++ CRLFCRLF) ++ body ++ rest)
      by (rewrite <- app_assoc; reflexivity).
    assert (Hl : len (hdr ++ CRLFCRLF) = len hdr + 4) by (rewrite len_app; reflexivity).
    rewrite <- Hl.
    destruct (Z.ltb_spec (len ((hdr ++ CRLFCRLF) ++ body ++ rest))
                         (len (hdr ++ CRLFCRLF) + len body)) as [Hlt|_].
    + rewrite !len_app in Hlt. pose proof (len_nonneg rest). lia.
    + rewrite slice_middle by reflexivity.
      replace ((hdr ++ CRLFCRLF) ++ body ++ rest) with (((hdr ++ CRLFCRLF) ++ body) ++ rest)
        by (rewrite <- app_assoc; reflexivity).
      replace (len (hdr ++ CRLFCRLF) + len body) with (len ((hdr ++ CRLFCRLF) ++ body))
        by (rewrite len_app; reflexivity).
      rewrite del_front_app. reflexivity.
  - apply find_header_end_crlf. apply header_line_no_CR. exact Hn.
  - rewrite slice_prefix. apply parse_header_line. exact Hb.
Qed.

(** The frame [send] writes is the wire frame of the serialised message. *)
Lemma encode_wire_frame (message : value) (frame : bytes) :
  encode message = Some frame <->
  exists dumped, json_dumps message = Some dumped
                 /\ frame = wire_frame CRLFCRLF (to_bytes dumped).
Proof.
  unfold encode. split.
  - destruct (json_dumps message) as [dumped|] eqn:Ed; [|discriminate].
    pose proof (json_dumps_ascii _ _ Ed) as Ha.
    rewrite encode_utf8_ascii by exact Ha.
    pose proof (len_nonneg (to_bytes dumped)) as Hn.
    assert (Hh : is_ascii (u "Content-Length: " ++ str (len (to_bytes dumped))
                             ++ [0x0D; 0x0A; 0x0D; 0x0A])).
    { rewrite app_assoc. apply Forall_app. split.
      - apply header_text_ascii. exact Hn.
      - apply is_ascii_check. reflexivity. }
    rewrite encode_ascii_ascii by exact Hh.
    intros E. exists dumped. split; [reflexivity|].
    assert (E' : frame = to_bytes (u "Content-Length: " ++ str (len (to_bytes dumped))
                                     ++ [0x0D; 0x0A; 0x0D; 0x0A]) ++ to_bytes dumped)
      by congruence.
    rewrite E'. unfold wire_frame, header_line.
    rewrite app_assoc, to_bytes_app, <- app_assoc. reflexivity.
  - intros (dumped & Ed & ->). rewrite Ed.
    pose proof (json_dumps_ascii _ _ Ed) as Ha.
    rewrite encode_utf8_ascii by exact Ha.
    pose proof (len_nonneg (to_bytes dumped)) as Hn.
    assert (Hh : is_ascii (u "Content-Length: " ++ str (len (to_bytes dumped))
                             ++ [0x0D; 0x0A; 0x0D; 0x0A])).
    { rewrite app_assoc. apply Forall_app. split.
      - apply header_text_ascii. exact Hn.
      - apply is_ascii_check. reflexivity. }
    rewrite encode_ascii_ascii by exact Hh.
    unfold wire_frame, header_line. rewrite app_assoc, to_bytes_app, <- app_assoc.
    reflexivity.
Qed.

Lemma loads_body_dumped (dumped : text) :
  is_ascii dumped -> loads_body (to_bytes dumped) = json_loads dumped.
Proof.
  intros Ha. unfold loads_body. rewrite decode_utf8_ascii by exact Ha. reflexivity.
Qed.

(** *** Buffers that hold less than a frame *)

Lemma find_header_end_none (pre t : bytes) :
  ~ In CR pre -> ~ In LF pre ->
  (forall i, find_from CRLFCRLF t i = -1) -> (forall i, find_from LFLF t i = -1) ->
  _find_header_end (pre ++ t) = None.
Proof.
  intros Hcr Hlf H4 H2. unfold _find_header_end, find.
  unfold CRLFCRLF at 1. rewrite find_from_skip by exact Hcr.
  fold CRLFCRLF. rewrite H4. cbn [Z.eqb negb].
  unfold LFLF at 1. rewrite find_from_skip by exact Hlf.
  fold LFLF. rewrite H2. reflexivity.
Qed.

(** The shapes of a proper prefix of [hdr ++ CRLFCRLF ++ body]. *)
Lemma proper_prefix_cases (p q hdr body : bytes) :
  p ++ q = hdr ++ CRLFCRLF ++ body -> q <> [] ->
  (exists pre t, p = pre ++ t /\ (forall c, In c pre -> In c hdr)
                 /\ In t [[]; [CR]; [CR; LF]; [CR; LF; CR]])
  \/ (exists body1, p = hdr ++ CRLFCRLF ++ body1 /\ len body1 < len body).
Proof.
  intros E Hq.
  assert (Hp : p = firstn (List.length p) (hdr ++ CRLFCRLF ++ body)).
  { rewrite <- E, firstn_app, Nat.sub_diag, firstn_all. simpl. symmetry. apply app_nil_r. }
  assert (Hlen : (List.length p < List.length hdr + 4 + List.length body)%nat).
  { apply (f_equal (@List.length byte)) in E. rewrite !length_app in E. simpl in E.
    destruct q; [contradiction|]. simpl in E. lia. }
  set (k := List.length p) in *.
  destruct (le_lt_dec k (List.length hdr)) as [Hk|Hk].
  - left. exists (firstn k hdr), []. split; [|split].
    + rewrite Hp, firstn_app. replace (k - List.length hdr)%nat with 0%nat by lia.
      reflexivity.
    + intros c Hc. rewrite <- (firstn_skipn k hdr). apply in_or_app. left. exact Hc.
    + left. reflexivity.
  - destruct (le_lt_dec (List.length hdr + 4) k) as [Hk4|Hk4].
    + right. exists (firstn (k - List.length hdr - 4) body). split.
      * rewrite Hp, firstn_app, firstn_all2 by lia.
        rewrite firstn_app. simpl List.length.
        rewrite (firstn_all2 CRLFCRLF) by (simpl; lia). reflexivity.
      * unfold len. rewrite length_firstn. lia.
    + left. exists hdr, (firstn (k - List.length hdr) CRLFCRLF). split; [|split].
      * rewrite Hp, firstn_app, firstn_all2 by lia.
        rewrite firstn_app. simpl List.length.
        replace (k - List.length hdr - 4)%nat with 0%nat by lia.
        rewrite firstn_O, app_nil_r. reflexivity.
      * auto.
      * destruct (k - List.length hdr)%nat as [|[|[|[|j]]]] eqn:Ej; simpl; try tauto. lia.
Qed.

(** What [json.dumps] returns fits in a str, and its encoding in a
    bytes object. *)
Lemma dumped_fits (v : value) (dumped : text) :
  json_dumps v = Some dumped -> len (to_bytes dumped) <= max_size.
Proof.
  intros Hd. rewrite len_to_bytes. apply (json_dumps_size _ _ Hd).
Qed.

(** A buffer holding a proper prefix of a frame of [send]: nothing is
    decoded and the buffer stays as it is. *)
Lemma try_parse_one_header_raises (buffer : bytes) (h : Z) (e : exn) :
  _find_header_end buffer = Some h ->
  _parse_content_length (slice buffer 0 h) = Raise e ->
  _try_parse_one buffer = (Raise e, buffer).
Proof.
  intros Hf Hc. pose proof (find_header_end_nonempty _ _ Hf) as Hne.
  unfold _try_parse_one. destruct buffer as [|c buffer]; [contradiction|].
  rewrite Hf. cbv zeta. rewrite Hc. reflexivity.
Qed.

(** A proper prefix of a frame of [send], whatever the length of the
    body: the buffer stays as it is.  Nothing is decoded; the call raises
    when the header is complete and its length has too many digits. *)
Lemma try_parse_one_prefix_any (p q body : bytes) :
  p ++ q = wire_frame CRLFCRLF body -> q <> [] ->
  _try_parse_one p = (Ok None, p)
  \/ (int (str (len body)) = None /\ _try_parse_one p = (Raise ValueError, p)).
Proof.
  unfold wire_frame. intros E Hq. pose proof (len_nonneg body) as Hn.
  destruct (proper_prefix_cases _ _ _ _ E Hq)
    as [(pre & t & -> & Hsub & Ht) | (body1 & -> & Hlt)].
  - left. apply try_parse_one_no_header. apply find_header_end_none.
    + intros Hin. apply (header_line_no_CR _ Hn). apply Hsub. exact Hin.
    + intros Hin. apply (header_line_no_LF _ Hn). apply Hsub. exact Hin.
    + simpl in Ht. intros i.
      destruct Ht as [<-|[<-|[<-|[<-|[]]]]]; reflexivity.
    + simpl in Ht. intros i.
      destruct Ht as [<-|[<-|[<-|[<-|[]]]]]; reflexivity.
  - set (hdr := header_line (len body)).
    destruct (int_str_cases (len body) Hn) as [Hi|Hi].
    + left. rewrite (try_parse_one_header _ (len hdr) (len body)).
      * cbv zeta. rewrite terminator_width_crlf.
        destruct (Z.ltb_spec (len (hdr ++ CRLFCRLF ++ body1)) (len hdr + 4 + len body))
          as [_|Hge]; [reflexivity|].
        rewrite !len_app in Hge. change (len CRLFCRLF) with 4 in Hge. lia.
      * apply find_header_end_crlf. apply header_line_no_CR. exact Hn.
      * rewrite slice_prefix. unfold hdr. rewrite parse_header_line_any by exact Hn.
        rewrite Hi. reflexivity.
    + right. split; [exact Hi|].
      apply (try_parse_one_header_raises _ (len hdr)).
      * apply find_header_end_crlf. apply header_line_no_CR. exact Hn.
      * rewrite slice_prefix. unfold hdr. rewrite parse_header_line_any by exact Hn.
        rewrite Hi. reflexivity.
Qed.

Lemma try_parse_one_prefix (p q body : bytes) :
  len body <= max_size ->
  p ++ q = wire_frame CRLFCRLF body -> q <> [] ->
  _try_parse_one p = (Ok None, p).
Proof.
  intros Hsize E Hq.
  destruct (try_parse_one_prefix_any _ _ _ E Hq) as [H|[Hi _]]; [exact H|].
  rewrite int_str in Hi by (apply len_converts; exact Hsize). discriminate Hi.
Qed.

End CodecFacts.

End SmokeFacts.

(* ================================================================== *)
(** * The properties of the transport *)
(* ================================================================== *)

Import PyFacts SmokeFacts.

Section RoundTrip.
Context {U : UnicodeData} {J : JsonModule}.

(** C1. Round trip: for a message (a dict) that [json] serialises and
    reads back, decoding the frame [send] writes for it succeeds and gives
    the message together with the whole length of the frame; the buffer is
    left empty. *)
Theorem C1_round_trip (items : list (text * value)) (dumped : text) :
  json_dumps (VDict items) = Some dumped ->
  json_loads dumped = Some (VDict items) ->
  exists frame,
    Smoke.encode (VDict items) = Some frame
    /\ Smoke.try_decode frame = Ok (Some (VDict items, len frame))
    /\ Smoke._try_parse_one frame = (Ok (Some (VDict items)), []).
Proof.
  intros Hd Hl. exists (Smoke.wire_frame CRLFCRLF (to_bytes dumped)).
  assert (Hp : Smoke._try_parse_one (Smoke.wire_frame CRLFCRLF (to_bytes dumped))
               = (Ok (Some (VDict items)), [])).
  { rewrite <- (app_nil_r (Smoke.wire_frame CRLFCRLF (to_bytes dumped))).
    rewrite try_parse_one_frame by (apply (dumped_fits _ _ Hd)).
    unfold Smoke.decode_body.
    rewrite loads_body_dumped by (apply (json_dumps_ascii _ _ Hd)).
    rewrite Hl. reflexivity. }
  split; [|split].
  - apply encode_wire_frame. exists dumped. split; [exact Hd | reflexivity].
  - unfold Smoke.try_decode. rewrite Hp. unfold len at 2. simpl List.length.
    rewrite Z.sub_0_r. reflexivity.
  - exact Hp.
Qed.

End RoundTrip.

Lemma C1_round_trip_witness :
  exists frame,
    Smoke.encode (J := Sample.json) (VDict Scenario.initialize_request) = Some frame
    /\ Smoke.try_decode (U := Sample.unicode) (J := Sample.json) frame
       = Ok (Some (VDict Scenario.initialize_request, len frame))
    /\ Smoke._try_parse_one (U := Sample.unicode) (J := Sample.json) frame
       = (Ok (Some (VDict Scenario.initialize_request)), []).
Proof.
  eapply (@C1_round_trip Sample.unicode Sample.json Scenario.initialize_request).
  - vm_compute. reflexivity.
  - vm_compute. reflexivity.
Defined.

(** ** The header terminator *)

Lemma occurs_at_first_byte (p : byte) (pat s : bytes) (i : Z) :
  occurs_at (p :: pat) s i -> nth_error s (Z.to_nat i) = Some p.
Proof.
  intros (pre & post & -> & <-). unfold len. rewrite Nat2Z.id.
  rewrite nth_error_app2 by lia. rewrite Nat.sub_diag. reflexivity.
Qed.

Lemma find_header_end_first_crlfcrlf (buf : bytes) (i : Z) :
  first_occurrence CRLFCRLF buf i -> Smoke._find_header_end buf = Some i.
Proof.
  intros Hi. unfold Smoke._find_header_end. rewrite (find_first _ _ _ Hi).
  destruct Hi as [Hi _]. apply occurs_at_nonneg in Hi.
  destruct (Z.eqb_spec i (-1)); [lia | reflexivity].
Qed.

Lemma find_header_end_first_lflf (buf : bytes) (j : Z) :
  (forall i, ~ occurs_at CRLFCRLF buf i) -> first_occurrence LFLF buf j ->
  Smoke._find_header_end buf = Some j.
Proof.
  intros Hno Hj. unfold Smoke._find_header_end.
  rewrite (find_no_occurrence _ _ Hno). cbn [Z.eqb negb].
  rewrite (find_first _ _ _ Hj).
  destruct Hj as [Hj _]. apply occurs_at_nonneg in Hj.
  destruct (Z.eqb_spec j (-1)); [lia | reflexivity].
Qed.

Lemma terminator_width_at_crlfcrlf (buf : bytes) (i : Z) :
  occurs_at CRLFCRLF buf i -> Smoke.terminator_width buf i = 4.
Proof.
  intros (pre & post & -> & <-). apply terminator_width_crlf.
Qed.

(** *** Frames terminated by a bare blank line *)

Section BareBlankLine.
Context {U : UnicodeData} {J : JsonModule}.

Lemma utf8_scan_ascii_app (t : text) (s : bytes) :
  is_ascii t -> utf8_scan (to_bytes t ++ s) = map Some t ++ utf8_scan s.
Proof.
  induction 1 as [|c t Hc _ IH]; [reflexivity|].
  cbn [to_bytes map app utf8_scan]. fold (to_bytes t).
  rewrite byte_val_of by lia. destruct (Z.ltb_spec c 0x80); [|lia].
  rewrite IH. reflexivity.
Qed.

Lemma replace_absent_app (t s old new : text) (c : Z) :
  ~ In c t ->
  replace_go (c :: old) new 0 (t ++ s) = t ++ replace_go (c :: old) new 0 s.
Proof.
  induction t as [|d t IH]; intros Hn; [reflexivity|].
  cbn [app replace_go text_startswith].
  destruct (Z.eqb_spec c d) as [->|_]; [exfalso; apply Hn; left; reflexivity|].
  cbn [andb]. rewrite IH; [reflexivity|]. intros Hin. apply Hn. right. exact Hin.
Qed.

Lemma replace_other (s old new : text) (c d : Z) :
  c <> d ->
  replace_go (c :: old) new 0 (d :: s) = d :: replace_go (c :: old) new 0 s.
Proof.
  intros Hne. apply (replace_absent_app [d] s).
  simpl. intros [H|[]]. apply Hne. symmetry. exact H.
Qed.

Lemma split_absent_app (t s : text) (sep : Z) :
  ~ In sep t -> split (t ++ sep :: s) sep = t :: split s sep.
Proof.
  induction t as [|d t IH]; intros Hn.
  - cbn [app split]. rewrite Z.eqb_refl. reflexivity.
  - cbn [app split].
    destruct (Z.eqb_spec d sep) as [->|_]; [exfalso; apply Hn; left; reflexivity|].
    rewrite IH; [reflexivity|]. intros Hin. apply Hn. right. exact Hin.
Qed.

(** The first header line decides when it is the one [send] writes. *)
Lemma header_text_first_line_any (n : Z) (lines : list text) :
  0 <= n ->
  Smoke.content_length_of_lines ((u "Content-Length: " ++ str n) :: lines)
  = match int (str n) with
    | Some k => Ok (Some k)
    | None => Raise Smoke.ValueError
    end.
Proof.
  intros Hn. destruct (str_digits n Hn) as (Hd & Hne & Hv).
  change (u "Content-Length: " ++ str n)
    with (u "Content-Length" ++ 0x3A :: 0x20 :: str n).
  cbn [Smoke.content_length_of_lines]. rewrite contains_at. cbn [negb].
  rewrite split_once_at by (apply not_in_check; reflexivity).
  rewrite strip_no_space by (apply no_space_check; reflexivity).
  rewrite lower_ascii_text by (apply is_ascii_check; reflexivity).
  change (text_eqb (map ascii_lower (u "Content-Length")) (u "content-length"))
    with true. cbv iota.
  rewrite strip_leading;
    [| rewrite isspace_ascii by lia; reflexivity
     | apply digits_no_space; exact Hd | exact Hne].
  rewrite isdigit_digits by assumption. cbn [negb]. reflexivity.
Qed.

Lemma header_text_first_line (n : Z) (lines : list text) :
  0 <= n < 10 ^ int_max_str_digits ->
  Smoke.content_length_of_lines ((u "Content-Length: " ++ str n) :: lines)
  = Ok (Some n).
Proof.
  intros Hb. rewrite header_text_first_line_any by apply Hb.
  rewrite int_str by exact Hb. reflexivity.
Qed.

(** Whatever follows the header line of [send] after a line feed, the
    length read is the one of that line. *)
Lemma parse_header_line_then_any (n : Z) (junk : bytes) :
  0 <= n ->
  Smoke._parse_content_length (Smoke.header_line n ++ LF :: junk)
  = match int (str n) with
    | Some k => Ok (Some k)
    | None => Raise Smoke.ValueError
    end.
Proof.
  intros Hn. unfold Smoke._parse_content_length, Smoke.header_line, decode_utf8_replace.
  rewrite utf8_scan_ascii_app by (apply header_text_ascii; exact Hn).
  rewrite map_app, map_map, map_id.
  unfold replace. rewrite replace_absent_app
    by (apply header_text_not_in; [exact Hn | reflexivity | lia]).
  change (utf8_scan (LF :: junk)) with (Some 0x0A :: utf8_scan junk).
  cbn [map]. rewrite replace_other by discriminate.
  rewrite split_absent_app
    by (apply header_text_not_in; [exact Hn | reflexivity | lia]).
  apply header_text_first_line_any. exact Hn.
Qed.

Lemma parse_header_line_then (n : Z) (junk : bytes) :
  0 <= n < 10 ^ int_max_str_digits ->
  Smoke._parse_content_length (Smoke.header_line n ++ LF :: junk) = Ok (Some n).
Proof.
  intros Hb. rewrite parse_header_line_then_any by apply Hb.
  rewrite int_str by exact Hb. reflexivity.
Qed.

Lemma proper_prefix_shapes (p q hdr terminator body : bytes) :
  p ++ q = hdr ++ terminator ++ body -> q <> [] -> terminator <> [] ->
  (exists pre j, p = pre ++ firstn j terminator
                 /\ (forall c, In c pre -> In c hdr)
                 /\ (j < List.length terminator)%nat)
  \/ (exists body1, p = hdr ++ terminator ++ body1 /\ len body1 < len body).
Proof.
  intros E Hq Ht.
  assert (Hp : p = firstn (List.length p) (hdr ++ terminator ++ body)).
  { rewrite <- E, firstn_app, Nat.sub_diag, firstn_all. simpl. symmetry. apply app_nil_r. }
  assert (Hlen : (List.length p
                  < List.length hdr + List.length terminator + List.length body)%nat).
  { apply (f_equal (@List.length byte)) in E. rewrite !length_app in E.
    destruct q; [contradiction|]. simpl in E. lia. }
  assert (Hpos : (0 < List.length terminator)%nat)
    by (destruct terminator; [contradiction | simpl; lia]).
  set (k := List.length p) in *.
  destruct (le_lt_dec k (List.length hdr)) as [Hk|Hk].
  - left. exists (firstn k hdr), 0%nat. split; [|split].
    + rewrite Hp, firstn_app. replace (k - List.length hdr)%nat with 0%nat by lia.
      reflexivity.
    + intros c Hc. rewrite <- (firstn_skipn k hdr). apply in_or_app. left. exact Hc.
    + exact Hpos.
  - destruct (le_lt_dec (List.length hdr + List.length terminator) k) as [Hk4|Hk4].
    + right. exists (firstn (k - List.length hdr - List.length terminator) body). split.
      * rewrite Hp, firstn_app, firstn_all2 by lia.
        rewrite firstn_app. rewrite (firstn_all2 terminator) by lia. reflexivity.
      * unfold len. rewrite length_firstn. lia.
    + left. exists hdr, (k - List.length hdr)%nat. split; [|split].
      * rewrite Hp, firstn_app, firstn_all2 by lia.
        rewrite firstn_app.
        replace (k - List.length hdr - List.length terminator)%nat with 0%nat by lia.
        rewrite firstn_O, app_nil_r. reflexivity.
      * auto.
      * lia.
Qed.

Lemma terminator_width_lflf (hdr body : bytes) :
  Smoke.terminator_width (hdr ++ LFLF ++ body) (len hdr) = 2.
Proof.
  unfold Smoke.terminator_width, slice, len.
  rewrite Nat2Z.id, skipn_app, skipn_all, Nat.sub_diag.
  replace (Z.to_nat (Z.of_nat (List.length hdr) + 4 - Z.of_nat (List.length hdr)))
    with 4%nat by lia.
  cbn [skipn app LFLF]. destruct body as [|x [|y body]]; reflexivity.
Qed.

(** A buffer holding a proper prefix of a frame written with the bare
    blank line: nothing is decoded and the buffer stays as it is. *)
Lemma try_parse_one_prefix_lflf_any (p q body : bytes) :
  p ++ q = Smoke.wire_frame LFLF body -> q <> [] ->
  Smoke._try_parse_one p = (Ok None, p)
  \/ (int (str (len body)) = None
      /\ Smoke._try_parse_one p = (Raise Smoke.ValueError, p)).
Proof.
  unfold Smoke.wire_frame. intros E Hq. pose proof (len_nonneg body) as Hn.
  set (hdr := Smoke.header_line (len body)) in *.
  assert (Hcr : ~ In CR hdr) by (apply header_line_no_CR; exact Hn).
  assert (Hlf : ~ In LF hdr) by (apply header_line_no_LF; exact Hn).
  destruct (proper_prefix_shapes _ _ _ _ _ E Hq ltac:(discriminate))
    as [(pre & j & -> & Hsub & Hj) | (body1 & -> & Hlt)].
  - left. apply try_parse_one_no_header. apply find_header_end_none.
    + intros Hin. apply Hcr. apply Hsub. exact Hin.
    + intros Hin. apply Hlf. apply Hsub. exact Hin.
    + intros i. destruct j as [|[|j]]; [reflexivity | reflexivity | simpl in Hj; lia].
    + intros i. destruct j as [|[|j]]; [reflexivity | reflexivity | simpl in Hj; lia].
  - assert (Hfound : exists h,
               Smoke._find_header_end (hdr ++ LFLF ++ body1) = Some h
               /\ len (hdr ++ LFLF ++ body1)
                  < h + Smoke.terminator_width (hdr ++ LFLF ++ body1) h + len body
               /\ Smoke._parse_content_length (slice (hdr ++ LFLF ++ body1) 0 h)
                  = match int (str (len body)) with
                    | Some k => Ok (Some k)
                    | None => Raise Smoke.ValueError
                    end).
    { destruct (Z.eq_dec (find (hdr ++ LFLF ++ body1) CRLFCRLF) (-1)) as [Hno|Hyes].
      - exists (len hdr). split; [|split].
        + unfold Smoke._find_header_end. rewrite Hno.
          change (negb (-1 =? -1)) with false. cbv iota.
          unfold find, LFLF. rewrite find_from_skip by exact Hlf.
          change (find_from [LF; LF] ([LF; LF] ++ body1) (0 + len hdr))
            with (0 + len hdr).
          pose proof (len_nonneg hdr).
          destruct (Z.eqb_spec (0 + len hdr) (-1)); [lia|]. cbn [negb]. f_equal; lia.
        + rewrite terminator_width_lflf. rewrite !len_app.
          change (len LFLF) with 2. lia.
        + rewrite slice_prefix. apply parse_header_line_any. exact Hn.
      - destruct (find_found _ _ _ eq_refl Hyes) as [Hocc _].
        pose proof Hocc as (pre & post & Eo & Hl).
        assert (Hpre : exists junk, pre = hdr ++ LF :: junk
                                    /\ LF :: body1 = junk ++ CRLFCRLF ++ post).
        { apply app_eq_app in Eo. destruct Eo as (l & [[E1 E2]|[E1 E2]]).
          - exfalso. destruct l as [|x l].
            + simpl in E2. discriminate E2.
            + inversion E2; subst x. apply Hcr. rewrite E1. apply in_or_app.
              right. left. reflexivity.
          - destruct l as [|x l].
            + simpl in E2. discriminate E2.
            + simpl in E2. inversion E2; subst. exists l. split; [reflexivity|].
              assumption. }
        destruct Hpre as (junk & -> & Ej).
        exists (find (hdr ++ LFLF ++ body1) CRLFCRLF). split; [|split].
        + unfold Smoke._find_header_end.
          destruct (Z.eqb_spec (find (hdr ++ LFLF ++ body1) CRLFCRLF) (-1));
            [contradiction | reflexivity].
        + rewrite (terminator_width_at_crlfcrlf _ _ Hocc).
          rewrite <- Hl. rewrite !len_app.
          apply (f_equal len) in Ej. rewrite !len_app in Ej.
          change (len LFLF) with 2. change (len CRLFCRLF) with 4 in Ej.
          unfold len in *. simpl List.length in *.
          pose proof (len_nonneg post). unfold len in *. lia.
        + rewrite <- Hl. rewrite Eo at 1. rewrite slice_prefix.
          apply parse_header_line_then_any. exact Hn. }
    destruct Hfound as (h & Hf & Hshort & Hparse).
    destruct (int_str_cases (len body) Hn) as [Hi|Hi]; rewrite Hi in Hparse.
    + left. rewrite (try_parse_one_header _ h (len body) Hf Hparse). cbv zeta.
      destruct (Z.ltb_spec (len (hdr ++ LFLF ++ body1))
                  (h + Smoke.terminator_width (hdr ++ LFLF ++ body1) h + len body));
        [reflexivity | lia].
    + right. split; [exact Hi|].
      apply (try_parse_one_header_raises _ h); assumption.
Qed.

Lemma try_parse_one_prefix_lflf (p q body : bytes) :
  len body <= max_size ->
  p ++ q = Smoke.wire_frame LFLF body -> q <> [] ->
  Smoke._try_parse_one p = (Ok None, p).
Proof.
  intros Hsize E Hq.
  destruct (try_parse_one_prefix_lflf_any _ _ _ E Hq) as [H|[Hi _]]; [exact H|].
  rewrite int_str in Hi by (apply len_converts; exact Hsize). discriminate Hi.
Qed.

Lemma try_parse_one_wire_prefix_any (p q terminator body : bytes) :
  terminator = CRLFCRLF \/ terminator = LFLF ->
  p ++ q = Smoke.wire_frame terminator body -> q <> [] ->
  Smoke._try_parse_one p = (Ok None, p)
  \/ (int (str (len body)) = None
      /\ Smoke._try_parse_one p = (Raise Smoke.ValueError, p)).
Proof.
  intros [-> | ->] E Hq.
  - exact (try_parse_one_prefix_any _ _ _ E Hq).
  - exact (try_parse_one_prefix_lflf_any _ _ _ E Hq).
Qed.

(** A proper prefix of a frame of the wire format, with either
    terminator. *)
Lemma try_parse_one_wire_prefix (p q terminator body : bytes) :
  terminator = CRLFCRLF \/ terminator = LFLF ->
  len body <= max_size ->
  p ++ q = Smoke.wire_frame terminator body -> q <> [] ->
  Smoke._try_parse_one p = (Ok None, p).
Proof.
  intros [-> | ->] Hsize E Hq.
  - exact (try_parse_one_prefix _ _ _ Hsize E Hq).
  - exact (try_parse_one_prefix_lflf _ _ _ Hsize E Hq).
Qed.

End BareBlankLine.

(** C2, as the code has it. In a buffer that contains both a CRLFCRLF and
    an LFLF, the header/body boundary is the first CRLFCRLF, with four
    terminator bytes, wherever the LFLF lies; it is the earlier of the two
    terminators exactly when the first CRLFCRLF comes before the first
    LFLF. *)
Theorem C2_crlfcrlf_preferred (buf : bytes) (i j : Z) :
  first_occurrence CRLFCRLF buf i -> first_occurrence LFLF buf j ->
  Smoke._find_header_end buf = Some i
  /\ Smoke.terminator_width buf i = 4
  /\ (Smoke._find_header_end buf = Some (Z.min i j) <-> i < j).
Proof.
  intros Hi Hj. pose proof (find_header_end_first_crlfcrlf _ _ Hi) as Hf.
  split; [exact Hf|]. split; [apply terminator_width_at_crlfcrlf; apply Hi|].
  assert (Hne : i <> j).
  { intros ->. destruct Hi as [Hi _], Hj as [Hj _].
    apply occurs_at_first_byte in Hi. apply occurs_at_first_byte in Hj.
    rewrite Hi in Hj. discriminate. }
  rewrite Hf. split.
  - intros E. inversion E. lia.
  - intros Hlt. f_equal. lia.
Qed.

Lemma C2_crlfcrlf_preferred_witness :
  Smoke._find_header_end Scenario.lflf_before_crlfcrlf = Some 4
  /\ Smoke.terminator_width Scenario.lflf_before_crlfcrlf 4 = 4
  /\ (Smoke._find_header_end Scenario.lflf_before_crlfcrlf = Some (Z.min 4 1)
      <-> 4 < 1).
Proof.
  apply (C2_crlfcrlf_preferred Scenario.lflf_before_crlfcrlf 4 1).
  - apply find_found; [reflexivity | discriminate].
  - apply find_found; [reflexivity | discriminate].
Defined.

(** C2, as it is stated, fails: here the LFLF comes first, at offset 1,
    and the boundary the decoder takes is the CRLFCRLF at offset 4. *)
Lemma C2_counterexample :
  first_occurrence LFLF Scenario.lflf_before_crlfcrlf 1
  /\ first_occurrence CRLFCRLF Scenario.lflf_before_crlfcrlf 4
  /\ Smoke._find_header_end Scenario.lflf_before_crlfcrlf = Some 4
  /\ Smoke._find_header_end Scenario.lflf_before_crlfcrlf <> Some (Z.min 1 4).
Proof.
  split; [apply find_found; [reflexivity | discriminate]|].
  split; [apply find_found; [reflexivity | discriminate]|].
  split; [reflexivity | discriminate].
Qed.

Section Chunks.
Context {U : UnicodeData} {J : JsonModule}.

Lemma wire_frame_nonempty (terminator body : bytes) :
  terminator <> [] -> Smoke.wire_frame terminator body <> [].
Proof.
  unfold Smoke.wire_frame. intros Hne E.
  apply app_eq_nil in E. destruct E as [_ E].
  apply app_eq_nil in E. destruct E as [E _]. contradiction.
Qed.

End Chunks.


(** ** What a decode attempt takes from the buffer *)

Lemma firstn_plus (s : bytes) (a k : nat) :
  firstn (a + k) s = firstn a s ++ firstn k (skipn a s).
Proof.
  revert s. induction a as [|a IH]; intros s; [reflexivity|].
  destruct s as [|c s]; simpl.
  - rewrite firstn_nil. reflexivity.
  - rewrite IH. reflexivity.
Qed.

Lemma slice_cut (s : bytes) (a c : Z) :
  0 <= a <= c -> slice s 0 c = slice s 0 a ++ slice s a c.
Proof.
  intros H. unfold slice. rewrite !Z.sub_0_r. simpl skipn.
  replace (Z.to_nat c) with (Z.to_nat a + Z.to_nat (c - a))%nat by lia.
  rewrite firstn_plus. reflexivity.
Qed.

Lemma buffer_cut (s : bytes) (a b' c : Z) :
  0 <= a <= b' -> b' <= c ->
  s = slice s 0 a ++ slice s a b' ++ slice s b' c ++ del_front s c.
Proof.
  intros H1 H2. rewrite app_assoc, <- slice_cut by lia.
  rewrite app_assoc, <- slice_cut by lia.
  unfold slice, del_front. rewrite Z.sub_0_r. simpl skipn.
  symmetry. apply firstn_skipn.
Qed.

Section Consumption.
Context {U : UnicodeData} {J : JsonModule}.

Lemma int_go_nonneg (t : text) (acc n : Z) : 0 <= acc -> int_go acc t = Some n -> 0 <= n.
Proof.
  revert acc. induction t as [|c t IH]; intros acc Hacc; simpl.
  - intros E. inversion E. lia.
  - destruct (decimal_cp c) as [d|] eqn:Ed; [|discriminate].
    apply decimal_range in Ed. apply IH. lia.
Qed.

Lemma int_nonneg (t : text) (n : Z) : int t = Some n -> 0 <= n.
Proof.
  unfold int. destruct t; [discriminate|].
  destruct (int_max_str_digits <? _); [discriminate|]. apply int_go_nonneg. lia.
Qed.

Lemma content_length_nonneg (lines : list text) (n : Z) :
  Smoke.content_length_of_lines lines = Ok (Some n) -> 0 <= n.
Proof.
  induction lines as [|line lines IH]; simpl; [discriminate|].
  destruct (negb (contains line 0x3A)); [exact IH|].
  destruct (split_once line 0x3A) as [k v].
  destruct (text_eqb (lower (strip k)) (u "content-length")); [|exact IH].
  destruct (negb (isdigit (strip v))); [discriminate|].
  destruct (int (strip v)) as [m|] eqn:Ei; [|discriminate].
  intros E. inversion E; subst. exact (int_nonneg _ _ Ei).
Qed.

Lemma parse_content_length_nonneg (header : bytes) (n : Z) :
  Smoke._parse_content_length header = Ok (Some n) -> 0 <= n.
Proof. apply content_length_nonneg. Qed.

(** The terminator that stands at the header end the decoder found. *)
Lemma find_header_end_terminator (buffer : bytes) (h : Z) :
  Smoke._find_header_end buffer = Some h ->
  (Smoke.terminator_width buffer h = 4 /\ slice buffer h (h + 4) = CRLFCRLF)
  \/ (Smoke.terminator_width buffer h = 2 /\ slice buffer h (h + 2) = LFLF).
Proof.
  intros Hf. unfold Smoke.terminator_width.
  destruct (bytes_eqb (slice buffer h (h + 4)) CRLFCRLF) eqn:E4.
  - left. split; [reflexivity | apply bytes_eqb_eq; exact E4].
  - right. split; [reflexivity|].
    unfold Smoke._find_header_end in Hf.
    destruct (Z.eqb_spec (find buffer CRLFCRLF) (-1)) as [E1|N1]; cbn [negb] in Hf.
    + destruct (Z.eqb_spec (find buffer LFLF) (-1)) as [E2|N2]; [discriminate|].
      cbn [negb] in Hf. inversion Hf; subst h.
      destruct (find_found _ _ _ eq_refl N2) as [(pre & post & E & Hl) _].
      rewrite <- Hl. rewrite E at 1. apply slice_middle. reflexivity.
    + inversion Hf; subst h.
      destruct (find_found _ _ _ eq_refl N1) as [(pre & post & E & Hl) _].
      assert (slice buffer (find buffer CRLFCRLF) (find buffer CRLFCRLF + 4) = CRLFCRLF).
      { rewrite <- Hl. rewrite E at 1. apply slice_middle. reflexivity. }
      apply bytes_eqb_eq in H. congruence.
Qed.

(** A decode attempt that returns a message has cut the buffer into the
    header, its terminator, the body of the declared length, and the rest,
    which is what stays in the buffer. *)
Lemma try_parse_one_message (buffer buffer' : bytes) (msg : value) :
  Smoke._try_parse_one buffer = (Ok (Some msg), buffer') ->
  exists header terminator body,
    buffer = header ++ terminator ++ body ++ buffer'
    /\ (terminator = CRLFCRLF \/ terminator = LFLF)
    /\ Smoke._find_header_end buffer = Some (len header)
    /\ Smoke._parse_content_length header = Ok (Some (len body))
    /\ Smoke.loads_body body = Some msg
    /\ is_dict msg = true.
Proof.
  intros Hp.
  destruct (Smoke._find_header_end buffer) as [h|] eqn:Hf;
    [|rewrite (try_parse_one_no_header _ Hf) in Hp; discriminate].
  destruct (Smoke._parse_content_length (slice buffer 0 h)) as [[n|]|e] eqn:Hc.
  - rewrite (try_parse_one_header _ _ _ Hf Hc) in Hp. cbv zeta in Hp.
    pose proof (find_header_end_range _ _ Hf) as Hh.
    pose proof (parse_content_length_nonneg _ _ Hc) as Hn.
    set (w := Smoke.terminator_width buffer h) in *.
    destruct (Z.ltb_spec (len buffer) (h + w + n)) as [Hlt|Hge]; [discriminate|].
    unfold Smoke.decode_body in Hp.
    destruct (Smoke.loads_body (slice buffer (h + w) (h + w + n))) as [msg'|] eqn:Hl;
      [|discriminate].
    destruct (is_dict msg') eqn:Hd; cbn [negb] in Hp; [|discriminate].
    inversion Hp; subst msg' buffer'. clear Hp.
    assert (Hw : 0 <= w /\ ((w = 4 /\ slice buffer h (h + w) = CRLFCRLF)
                            \/ (w = 2 /\ slice buffer h (h + w) = LFLF))).
    { destruct (find_header_end_terminator _ _ Hf) as [[E4 S4]|[E2 S2]];
        fold w in E4 || fold w in E2.
      - rewrite E4. split; [lia|]. left. split; [reflexivity | exact S4].
      - rewrite E2. split; [lia|]. right. split; [reflexivity | exact S2]. }
    destruct Hw as [Hw0 Hw].
    exists (slice buffer 0 h), (slice buffer h (h + w)),
           (slice buffer (h + w) (h + w + n)).
    assert (Hlh : len (slice buffer 0 h) = h)
      by (rewrite len_slice by lia; lia).
    assert (Hlb : len (slice buffer (h + w) (h + w + n)) = n)
      by (rewrite len_slice by lia; lia).
    rewrite Hlh, Hlb.
    split; [apply buffer_cut; lia|].
    split; [destruct Hw as [[_ E]|[_ E]]; [left | right]; exact E|].
    split; [reflexivity|]. split; [exact Hc|]. split; [exact Hl | exact Hd].
  - unfold Smoke._try_parse_one in Hp.
    destruct buffer; [discriminate|]. rewrite Hf in Hp. cbv zeta in Hp.
    rewrite Hc in Hp. discriminate.
  - unfold Smoke._try_parse_one in Hp.
    destruct buffer; [discriminate|]. rewrite Hf in Hp. cbv zeta in Hp.
    rewrite Hc in Hp. discriminate.
Qed.

(** C4. A decode attempt that returns a message removes from the front of
    the buffer the header with its terminator and the body of the declared
    length, and nothing else: the buffer before is these bytes followed by
    the buffer after.  A decode attempt on a proper prefix of a frame (the
    header line of [send], either terminator, a body of the declared
    length) removes nothing and returns no message: it returns [None], or,
    when the declared length has more digits than [int] converts, raises
    [ValueError].  It returns [None] for every frame whose body fits in a
    bytes object. *)
Theorem C4_exact_consumption :
  (forall (buffer buffer' : bytes) (msg : value),
      Smoke._try_parse_one buffer = (Ok (Some msg), buffer') ->
      exists header terminator body,
        buffer = header ++ terminator ++ body ++ buffer'
        /\ (terminator = CRLFCRLF \/ terminator = LFLF)
        /\ Smoke._parse_content_length header = Ok (Some (len body))
        /\ Smoke.loads_body body = Some msg
        /\ len buffer' = len buffer - (len header + len terminator + len body))
  /\ (forall (prefix missing terminator body : bytes),
         terminator = CRLFCRLF \/ terminator = LFLF ->
         prefix ++ missing = Smoke.wire_frame terminator body -> missing <> [] ->
         snd (Smoke._try_parse_one prefix) = prefix
         /\ (fst (Smoke._try_parse_one prefix) = Ok None
             \/ (10 ^ int_max_str_digits <= len body
                 /\ fst (Smoke._try_parse_one prefix) = Raise Smoke.ValueError))
         /\ (len body <= max_size ->
             Smoke._try_parse_one prefix = (Ok None, prefix))).
Proof.
  split.
  - intros buffer buffer' msg Hp.
    destruct (try_parse_one_message _ _ _ Hp)
      as (header & terminator & body & E & Ht & _ & Hc & Hl & _).
    exists header, terminator, body.
    split; [exact E|]. split; [exact Ht|]. split; [exact Hc|]. split; [exact Hl|].
    apply (f_equal len) in E. rewrite !len_app in E. lia.
  - intros prefix missing terminator body Ht E Hm.
    destruct (try_parse_one_wire_prefix_any _ _ _ _ Ht E Hm) as [H|[Hi H]].
    + rewrite H. split; [reflexivity|]. split; [left; reflexivity|].
      intros _. reflexivity.
    + rewrite H. split; [reflexivity|].
      assert (Hbig : 10 ^ int_max_str_digits <= len body).
      { destruct (Z.le_gt_cases (10 ^ int_max_str_digits) (len body)) as [Hle|Hgt];
          [exact Hle|].
        rewrite int_str in Hi by (pose proof (len_nonneg body); lia).
        discriminate Hi. }
      split; [right; split; [exact Hbig | reflexivity]|].
      intros Hsize. pose proof max_size_converts. lia.
Qed.

(** C5. A complete header whose [Content-Length] has more digits than
    [int] converts (4300 by default, leading zeros counted) makes the
    decode attempt raise [ValueError], whatever stands behind it: the
    attempt does not return [None], though fewer body bytes than declared
    are there.  For a declared length of at most 4300 digits the claim
    holds: with fewer body bytes behind the terminator than declared the
    attempt returns [None] and leaves the buffer as it is, and once the
    body is whole the attempt no longer returns [None]. *)
Theorem C5_long_length_raises_ValueError :
  (forall (digits : text) (body : bytes),
      is_digits digits -> int_max_str_digits < Z.of_nat (List.length digits) ->
      Smoke._try_parse_one
        (to_bytes (u "Content-Length: " ++ digits) ++ CRLFCRLF ++ body)
      = (Raise Smoke.ValueError,
         to_bytes (u "Content-Length: " ++ digits) ++ CRLFCRLF ++ body))
  /\ (forall (n : Z) (body : bytes),
         10 ^ int_max_str_digits <= n ->
         Smoke._try_parse_one (Smoke.header_line n ++ CRLFCRLF ++ body)
         = (Raise Smoke.ValueError, Smoke.header_line n ++ CRLFCRLF ++ body))
  /\ (forall (n : Z) (body : bytes),
         0 <= n < 10 ^ int_max_str_digits -> len body < n ->
         Smoke._try_parse_one (Smoke.header_line n ++ CRLFCRLF ++ body)
         = (Ok None, Smoke.header_line n ++ CRLFCRLF ++ body))
  /\ (forall (buffer : bytes) (h n : Z),
         Smoke._find_header_end buffer = Some h ->
         Smoke._parse_content_length (slice buffer 0 h) = Ok (Some n) ->
         len buffer - (h + Smoke.terminator_width buffer h) < n ->
         Smoke._try_parse_one buffer = (Ok None, buffer))
  /\ (forall (body rest : bytes),
         len body <= max_size ->
         Smoke._try_parse_one (Smoke.header_line (len body) ++ CRLFCRLF ++ body ++ rest)
         = Smoke.decode_body body rest).
Proof.
  split; [|split; [|split; [|split]]].
  - intros digits body Hd Hlong.
    assert (Hne : digits <> []).
    { intros ->. cbn in Hlong. unfold int_max_str_digits in Hlong. lia. }
    apply (try_parse_one_header_raises _
             (len (to_bytes (u "Content-Length: " ++ digits)))).
    + apply find_header_end_crlf. apply length_line_no_CR. exact Hd.
    + rewrite slice_prefix. rewrite parse_length_digits by assumption.
      rewrite int_long by exact Hlong. reflexivity.
  - intros n body Hbig.
    assert (Hn : 0 <= n).
    { pose proof (Z.pow_nonneg 10 int_max_str_digits ltac:(lia)). lia. }
    apply (try_parse_one_header_raises _ (len (Smoke.header_line n))).
    + apply find_header_end_crlf. apply header_line_no_CR. exact Hn.
    + rewrite slice_prefix. rewrite parse_header_line_any by exact Hn.
      rewrite int_str_long by exact Hbig. reflexivity.
  - intros n body Hn Hlt.
    rewrite (try_parse_one_header _ (len (Smoke.header_line n)) n).
    + cbv zeta. rewrite terminator_width_crlf.
      destruct (Z.ltb_spec (len (Smoke.header_line n ++ CRLFCRLF ++ body))
                           (len (Smoke.header_line n) + 4 + n)) as [_|Hge];
        [reflexivity|].
      rewrite !len_app in Hge. change (len CRLFCRLF) with 4 in Hge. lia.
    + apply find_header_end_crlf. apply header_line_no_CR. apply Hn.
    + rewrite slice_prefix. apply parse_header_line. exact Hn.
  - intros buffer h n Hf Hc Hlt.
    rewrite (try_parse_one_header _ _ _ Hf Hc). cbv zeta.
    destruct (Z.ltb_spec (len buffer) (h + Smoke.terminator_width buffer h + n));
      [reflexivity | lia].
  - intros body rest Hsize.
    rewrite <- (try_parse_one_frame body rest Hsize). unfold Smoke.wire_frame.
    rewrite <- !app_assoc. reflexivity.
Qed.

End Consumption.

Lemma C4_exact_consumption_witness :
  (exists header terminator body,
      Scenario.initialize_frame ++ b "tail"
      = header ++ terminator ++ body ++ b "tail"
      /\ (terminator = CRLFCRLF \/ terminator = LFLF)
      /\ Smoke._parse_content_length (U := Sample.unicode) header
         = Ok (Some (len body))
      /\ Smoke.loads_body (J := Sample.json) body
         = Some (VDict Scenario.initialize_request)
      /\ len (b "tail")
         = len (Scenario.initialize_frame ++ b "tail")
           - (len header + len terminator + len body))
  /\ Smoke._try_parse_one (U := Sample.unicode) (J := Sample.json)
       (firstn 40 Scenario.initialize_frame)
     = (Ok None, firstn 40 Scenario.initialize_frame).
Proof.
  split.
  - apply (proj1 (@C4_exact_consumption Sample.unicode Sample.json)
             (Scenario.initialize_frame ++ b "tail") (b "tail")
             (VDict Scenario.initialize_request)).
    vm_compute. reflexivity.
  - apply (proj2 (@C4_exact_consumption Sample.unicode Sample.json)
             (firstn 40 Scenario.initialize_frame)
             (skipn 40 Scenario.initialize_frame)
             CRLFCRLF Scenario.initialize_payload).
    + left. reflexivity.
    + vm_compute. reflexivity.
    + intros E. vm_compute in E. discriminate E.
    + vm_compute. discriminate.
Defined.

Lemma C5_long_length_raises_ValueError_witness :
  Smoke._try_parse_one (U := Sample.unicode) (J := Sample.json)
    (to_bytes (u "Content-Length: " ++ 0x31 :: repeat 0x30 4300) ++ CRLFCRLF ++ [])
  = (Raise Smoke.ValueError,
     to_bytes (u "Content-Length: " ++ 0x31 :: repeat 0x30 4300) ++ CRLFCRLF ++ [])
  /\ Smoke._try_parse_one (U := Sample.unicode) (J := Sample.json)
       (Smoke.header_line 10 ++ CRLFCRLF ++ b "123456789")
     = (Ok None, Smoke.header_line 10 ++ CRLFCRLF ++ b "123456789").
Proof.
  split.
  - apply (proj1 (@C5_long_length_raises_ValueError Sample.unicode Sample.json)
             (0x31 :: repeat 0x30 4300) []).
    + apply is_digits_check. vm_compute. reflexivity.
    + vm_compute. reflexivity.
  - apply (proj1 (proj2 (proj2
             (@C5_long_length_raises_ValueError Sample.unicode Sample.json)))
             10 (b "123456789")).
    + split; [lia|]. apply Z.lt_le_trans with (10 ^ 2); [reflexivity|].
      apply Z.pow_le_mono_r; [lia | unfold int_max_str_digits; lia].
    + vm_compute. reflexivity.
Defined.

(** ** Headers without a usable length *)

Section BadLength.
Context {U : UnicodeData} {J : JsonModule}.

Lemma try_parse_one_invalid (buffer : bytes) (h : Z) :
  Smoke._find_header_end buffer = Some h ->
  Smoke._parse_content_length (slice buffer 0 h) = Ok None ->
  Smoke._try_parse_one buffer
  = (Raise (Smoke.SmokeTestError (Smoke.InvalidHeader (slice buffer 0 h))), buffer).
Proof.
  intros Hf Hc. pose proof (find_header_end_nonempty _ _ Hf) as Hne.
  unfold Smoke._try_parse_one. destruct buffer as [|c buffer]; [contradiction|].
  rewrite Hf. cbv zeta. rewrite Hc. reflexivity.
Qed.

Lemma try_parse_one_raises (buffer : bytes) (h : Z) (e : Smoke.exn) :
  Smoke._find_header_end buffer = Some h ->
  Smoke._parse_content_length (slice buffer 0 h) = Raise e ->
  Smoke._try_parse_one buffer = (Raise e, buffer).
Proof.
  intros Hf Hc. pose proof (find_header_end_nonempty _ _ Hf) as Hne.
  unfold Smoke._try_parse_one. destruct buffer as [|c buffer]; [contradiction|].
  rewrite Hf. cbv zeta. rewrite Hc. reflexivity.
Qed.

(** *** ASCII headers: the length is read or reported missing *)

Lemma dropwhile_Forall (P : Z -> Prop) (p : Z -> bool) (t : text) :
  Forall P t -> Forall P (dropwhile p t).
Proof.
  induction 1 as [|c t Hc Ht IH]; simpl; [constructor|].
  destruct (p c); [exact IH | constructor; assumption].
Qed.

Lemma strip_Forall (P : Z -> Prop) (t : text) : Forall P t -> Forall P (strip t).
Proof.
  intros H. unfold strip. apply Forall_rev. apply dropwhile_Forall.
  apply Forall_rev. apply dropwhile_Forall. exact H.
Qed.

Lemma split_once_Forall (P : Z -> Prop) (t : text) (sep : Z) :
  Forall P t -> Forall P (fst (split_once t sep)) /\ Forall P (snd (split_once t sep)).
Proof.
  induction 1 as [|c t Hc Ht IH]; simpl; [split; constructor|].
  destruct (c =? sep); [split; [constructor | exact Ht]|].
  destruct (split_once t sep) as [k v]. simpl in *.
  split; [constructor; tauto | tauto].
Qed.

Lemma split_Forall (P : Z -> Prop) (t : text) (sep : Z) :
  Forall P t -> Forall (Forall P) (split t sep).
Proof.
  induction 1 as [|c t Hc Ht IH]; simpl; [repeat constructor|].
  destruct (c =? sep); [constructor; [constructor | exact IH]|].
  destruct (split t sep) as [|piece pieces]; [repeat constructor; exact Hc|].
  inversion IH; subst. constructor; [constructor; assumption | assumption].
Qed.

Lemma replace_go_Forall (P : Z -> Prop) (old new : text) (skip : nat) (t : text) :
  Forall P new -> Forall P t -> Forall P (replace_go old new skip t).
Proof.
  intros Hnew Ht. revert skip. induction Ht as [|c t Hc Ht IH]; intros skip; simpl;
    [constructor|].
  destruct skip; [|apply IH].
  destruct (text_startswith old (c :: t)).
  - apply Forall_app. split; [exact Hnew | apply IH].
  - constructor; [exact Hc | apply IH].
Qed.

Lemma isdigit_ascii_digits (t : text) :
  is_ascii t -> isdigit t = true -> is_digits t /\ t <> [].
Proof.
  intros Ha Hd. unfold isdigit in Hd. destruct t as [|c t]; [discriminate|].
  split; [|discriminate]. rewrite forallb_forall in Hd.
  apply Forall_forall. intros d Hin.
  pose proof (proj1 (Forall_forall _ _) Ha _ Hin) as Hr. simpl in Hr.
  specialize (Hd d Hin). rewrite isdigit_ascii in Hd by lia.
  unfold ascii_isdigit in Hd. apply andb_true_iff in Hd. lia.
Qed.

Lemma dropwhile_length (p : Z -> bool) (t : text) :
  (List.length (dropwhile p t) <= List.length t)%nat.
Proof.
  induction t as [|c t IH]; cbn [dropwhile List.length]; [lia|].
  destruct (p c); cbn [List.length]; lia.
Qed.

Lemma strip_length (t : text) : (List.length (strip t) <= List.length t)%nat.
Proof.
  unfold strip. rewrite length_rev.
  pose proof (dropwhile_length isspace_cp (rev (dropwhile isspace_cp t))) as H1.
  rewrite length_rev in H1. pose proof (dropwhile_length isspace_cp t). lia.
Qed.

Lemma split_once_length (t : text) (sep : Z) :
  (List.length (snd (split_once t sep)) <= List.length t)%nat.
Proof.
  induction t as [|c t IH]; cbn [split_once snd List.length]; [lia|].
  destruct (c =? sep); cbn [snd]; [lia|].
  destruct (split_once t sep) as [k v]. cbn [snd] in *. lia.
Qed.

Lemma split_length (t : text) (sep : Z) :
  Forall (fun piece => (List.length piece <= List.length t)%nat) (split t sep).
Proof.
  induction t as [|c t IH]; cbn [split]; [repeat constructor|].
  assert (Hw : Forall (fun piece => (List.length piece <= List.length (c :: t))%nat)
                 (split t sep)).
  { eapply Forall_impl; [|exact IH]. cbv beta. cbn [List.length]. intros; lia. }
  destruct (c =? sep); [constructor; [cbn; lia | exact Hw]|].
  destruct (split t sep) as [|piece pieces];
    [constructor; [simpl; lia | constructor]|].
  inversion IH; subst. inversion Hw; subst.
  constructor; [simpl in *; lia | assumption].
Qed.

Lemma replace_go_length (old new : text) (t : text) :
  (List.length new <= 1)%nat ->
  forall skip, (List.length (replace_go old new skip t) <= List.length t)%nat.
Proof.
  intros Hnew. induction t as [|c t IH]; intros skip; cbn [replace_go List.length];
    [lia|].
  destruct skip; [|specialize (IH skip); lia].
  destruct (text_startswith old (c :: t)).
  - rewrite length_app. specialize (IH (List.length old - 1)%nat). lia.
  - cbn [List.length]. specialize (IH 0%nat). lia.
Qed.

Lemma content_length_of_ascii_lines (lines : list text) :
  Forall is_ascii lines ->
  Forall (fun line => Z.of_nat (List.length line) <= int_max_str_digits) lines ->
  exists r, Smoke.content_length_of_lines lines = Ok r.
Proof.
  induction 1 as [|line lines Hl _ IH]; intros Hshort; simpl;
    [exists None; reflexivity|].
  inversion Hshort as [|? ? Hline Hrest]; subst. specialize (IH Hrest).
  destruct (negb (contains line 0x3A)); [exact IH|].
  pose proof (split_once_Forall _ line 0x3A Hl) as [_ Hv].
  pose proof (split_once_length line 0x3A) as Hvl.
  destruct (split_once line 0x3A) as [k v]. simpl in Hv, Hvl.
  destruct (text_eqb (lower (strip k)) (u "content-length")); [|exact IH].
  destruct (isdigit (strip v)) eqn:Hd; cbn [negb]; [|exists None; reflexivity].
  destruct (isdigit_ascii_digits (strip v) (strip_Forall _ _ Hv) Hd) as [Hds Hne].
  rewrite (int_digits _ Hds Hne); [eexists; reflexivity|].
  pose proof (strip_length v). lia.
Qed.

(** A header made of ASCII bytes, and not longer than the digits [int]
    converts, never makes [int] raise: the length is read, or its absence
    is reported. *)
Lemma parse_content_length_ascii (header : bytes) :
  Forall (fun c => byte_val c < 0x80) header ->
  len header <= int_max_str_digits ->
  exists r, Smoke._parse_content_length header = Ok r.
Proof.
  intros Hh Hlen. unfold Smoke._parse_content_length.
  assert (E : header = to_bytes (map byte_val header)).
  { unfold to_bytes. rewrite map_map. symmetry.
    rewrite <- (map_id header) at 2. apply map_ext. intros c. apply byte_of_val. }
  assert (Ha : is_ascii (map byte_val header)).
  { apply Forall_map. revert Hh. apply Forall_impl. intros c Hc.
    pose proof (byte_val_range c). lia. }
  assert (Ed : decode_utf8_replace header = map byte_val header).
  { rewrite E at 1. apply decode_utf8_replace_ascii. exact Ha. }
  rewrite Ed. apply content_length_of_ascii_lines.
  - apply (split_Forall (fun c => 0 <= c < 0x80)).
    apply replace_go_Forall; [|exact Ha]. constructor; [lia | constructor].
  - pose proof (replace_go_length [0x0D; 0x0A] [0x0A] (map byte_val header)
                  ltac:(cbn; lia) 0%nat) as Hr.
    rewrite length_map in Hr.
    eapply Forall_impl; [|apply split_length]. cbv beta. intros piece Hp.
    unfold replace in Hp. unfold len in Hlen. lia.
Qed.

Lemma content_length_raises_ValueError (lines : list text) (e : Smoke.exn) :
  Smoke.content_length_of_lines lines = Raise e -> e = Smoke.ValueError.
Proof.
  induction lines as [|line lines IH]; cbn [Smoke.content_length_of_lines];
    [discriminate|].
  destruct (negb (contains line 0x3A)); [exact IH|].
  destruct (split_once line 0x3A) as [k v].
  destruct (text_eqb _ _); [|exact IH].
  destruct (negb (isdigit (strip v))); [discriminate|].
  destruct (int (strip v)); [discriminate|].
  intros E. injection E as <-. reflexivity.
Qed.

(** For a complete ASCII header from which no length is read, the decode
    attempt raises the script's own error. *)
Lemma ascii_header_without_length (buffer : bytes) (h : Z) :
  Smoke._find_header_end buffer = Some h ->
  Forall (fun c => byte_val c < 0x80) (slice buffer 0 h) ->
  h <= int_max_str_digits ->
  (forall n, Smoke._parse_content_length (slice buffer 0 h) <> Ok (Some n)) ->
  Smoke._try_parse_one buffer
  = (Raise (Smoke.SmokeTestError (Smoke.InvalidHeader (slice buffer 0 h))), buffer).
Proof.
  intros Hf Ha Hh Hno.
  assert (Hl : len (slice buffer 0 h) <= int_max_str_digits).
  { pose proof (find_header_end_range _ _ Hf). rewrite len_slice by lia. lia. }
  destruct (parse_content_length_ascii _ Ha Hl) as [[n|] Hc].
  - exfalso. exact (Hno n Hc).
  - exact (try_parse_one_invalid _ _ Hf Hc).
Qed.

(** C6 fails on the code. The header [Content-Length: ²] is complete and
    its value is no decimal integer, yet the decode attempt does not raise
    [SmokeTestError]: U+00B2 passes [isdigit], [int] rejects it, and the
    [ValueError] of [int] leaves [_try_parse_one] as it is. *)
Theorem C6_superscript_length_raises_ValueError :
  isspace_cp 0xB2 = false -> isdigit_cp 0xB2 = true -> decimal_cp 0xB2 = None ->
  Smoke._try_parse_one Scenario.superscript_length
  = (Raise Smoke.ValueError, Scenario.superscript_length).
Proof.
  intros Hs Hd Hv.
  apply (try_parse_one_raises _ 18); [reflexivity|].
  change (slice Scenario.superscript_length 0 18)
    with (b "Content-Length: " ++ [xc2; xb2]).
  unfold Smoke._parse_content_length.
  change (split (replace (decode_utf8_replace (b "Content-Length: " ++ [xc2; xb2]))
                   [0x0D; 0x0A] [0x0A]) 0x0A)
    with [u "Content-Length" ++ 0x3A :: [0x20; 0xB2]].
  cbn [Smoke.content_length_of_lines]. rewrite contains_at. cbn [negb].
  rewrite split_once_at by (apply not_in_check; reflexivity).
  rewrite strip_no_space by (apply no_space_check; reflexivity).
  rewrite lower_ascii_text by (apply is_ascii_check; reflexivity).
  change (text_eqb (map ascii_lower (u "Content-Length")) (u "content-length"))
    with true. cbv iota.
  rewrite strip_leading;
    [| rewrite isspace_ascii by lia; reflexivity
     | constructor; [exact Hs | constructor] | discriminate].
  cbn [isdigit forallb]. rewrite Hd. cbn [andb negb].
  unfold int. change (int_max_str_digits <? Z.of_nat (List.length [0xB2])) with false.
  cbn [int_go]. rewrite Hv. reflexivity.
Qed.

End BadLength.

Lemma C6_superscript_length_raises_ValueError_witness :
  Smoke._try_parse_one (U := Sample.unicode) (J := Sample.json)
    Scenario.superscript_length
  = (Raise Smoke.ValueError, Scenario.superscript_length).
Proof.
  apply (@C6_superscript_length_raises_ValueError Sample.unicode Sample.json);
    reflexivity.
Defined.

(** ** The reader *)

Section ReaderFacts.
Context {U : UnicodeData} {J : JsonModule}.

Lemma recv_loop_buffered (deadline : Z) (out : list Smoke.select_result)
  (c : Smoke.client) (msg : value) (buffer' : bytes) :
  Smoke._try_parse_one (Smoke._buffer c) = (Ok (Some msg), buffer') ->
  Smoke.recv_loop deadline out c
  = (Smoke.Return msg, Smoke.with_stdout (Smoke.with_buffer c buffer') out).
Proof.
  intros Hp. destruct out; cbn [Smoke.recv_loop]; rewrite Hp; reflexivity.
Qed.

Lemma recv_loop_data (deadline now : Z) (later : list Z) (chunk : bytes)
  (out : list Smoke.select_result) (c : Smoke.client) :
  Smoke._try_parse_one (Smoke._buffer c) = (Ok None, Smoke._buffer c) ->
  Smoke.clock c = now :: later -> now < deadline -> chunk <> [] ->
  Smoke.recv_loop deadline (Smoke.Ready (Smoke.Data chunk) :: out) c
  = Smoke.recv_loop deadline out
      (Smoke.with_buffer (Smoke.with_clock c later) (Smoke._buffer c ++ chunk)).
Proof.
  intros Hp Hc Hlt Hne. cbn [Smoke.recv_loop]. rewrite Hp.
  cbn [Smoke.with_buffer Smoke.clock]. rewrite Hc.
  destruct (Z.leb_spec (deadline - now) 0); [lia|].
  destruct chunk as [|x chunk]; [contradiction|]. reflexivity.
Qed.

Lemma recv_message_buffered (timeout_s : option Z) (c : Smoke.client)
  (now : Z) (later : list Z) (msg : value) (buffer' : bytes) :
  Smoke.clock c = now :: later ->
  Smoke._try_parse_one (Smoke._buffer c) = (Ok (Some msg), buffer') ->
  Smoke.recv_message timeout_s c = (Smoke.Return msg, Smoke.after c buffer' later).
Proof.
  intros Hc Hp. unfold Smoke.recv_message. rewrite Hc.
  rewrite (recv_loop_buffered _ _ _ msg buffer') by exact Hp. reflexivity.
Qed.

Lemma frame_decodes (items : list (text * value)) (dumped : text)
  (frame rest : bytes) :
  json_dumps (VDict items) = Some dumped ->
  json_loads dumped = Some (VDict items) ->
  Smoke.encode (VDict items) = Some frame ->
  Smoke._try_parse_one (frame ++ rest) = (Ok (Some (VDict items)), rest).
Proof.
  intros Hd Hl He. apply encode_wire_frame in He. destruct He as (dumped' & Hd' & ->).
  assert (dumped' = dumped) by congruence. subst dumped'.
  rewrite try_parse_one_frame by (apply (dumped_fits _ _ Hd)).
  unfold Smoke.decode_body.
  rewrite loads_body_dumped by (apply (json_dumps_ascii _ _ Hd)).
  rewrite Hl. reflexivity.
Qed.

Lemma encode_nonempty (v : value) (frame : bytes) :
  Smoke.encode v = Some frame -> frame <> [].
Proof.
  intros He. apply encode_wire_frame in He. destruct He as (dumped & _ & ->).
  apply wire_frame_nonempty. discriminate.
Qed.

(** C8. When the buffer already holds a complete frame, [recv_message]
    returns its message having read the clock once and asked nothing of the
    selector: the answers of [select] and [os.read] are all still to come.
    In particular, when two frames of [send] arrive in one chunk, the call
    that reads the chunk returns the first message and the next call
    returns the second one with no further wait or read. *)
Theorem C8_buffered_frames_need_no_io :
  (forall (timeout_s : option Z) (c : Smoke.client) (now : Z) (later : list Z)
          (msg : value) (buffer' : bytes),
      Smoke.clock c = now :: later ->
      Smoke._try_parse_one (Smoke._buffer c) = (Ok (Some msg), buffer') ->
      exists c',
        Smoke.recv_message timeout_s c = (Smoke.Return msg, c')
        /\ Smoke.stdout c' = Smoke.stdout c
        /\ Smoke._buffer c' = buffer' /\ Smoke.clock c' = later)
  /\ (forall (timeout_s : Z) (c : Smoke.client)
             (items1 items2 : list (text * value)) (dumped1 dumped2 : text)
             (frame1 frame2 : bytes) (t0 t1 t2 : Z) (later : list Z)
             (rest : list Smoke.select_result),
         json_dumps (VDict items1) = Some dumped1 ->
         json_loads dumped1 = Some (VDict items1) ->
         Smoke.encode (VDict items1) = Some frame1 ->
         json_dumps (VDict items2) = Some dumped2 ->
         json_loads dumped2 = Some (VDict items2) ->
         Smoke.encode (VDict items2) = Some frame2 ->
         Smoke._buffer c = [] ->
         Smoke.clock c = t0 :: t1 :: t2 :: later ->
         t1 < t0 + timeout_s ->
         Smoke.stdout c = Smoke.Ready (Smoke.Data (frame1 ++ frame2)) :: rest ->
         exists c1 c2,
           Smoke.recv_message (Some timeout_s) c = (Smoke.Return (VDict items1), c1)
           /\ Smoke.stdout c1 = rest
           /\ Smoke.recv_message (Some timeout_s) c1 = (Smoke.Return (VDict items2), c2)
           /\ Smoke.stdout c2 = rest
           /\ Smoke._buffer c2 = [] /\ Smoke.clock c2 = later).
Proof.
  split.
  - intros timeout_s c now later msg buffer' Hc Hp.
    exists (Smoke.after c buffer' later).
    split; [apply (recv_message_buffered _ _ now); assumption|].
    split; [reflexivity|]. split; reflexivity.
  - intros timeout_s c items1 items2 dumped1 dumped2 frame1 frame2 t0 t1 t2 later rest
           Hd1 Hl1 He1 Hd2 Hl2 He2 Hb Hc Hlt Ho.
    pose proof (frame_decodes _ _ _ frame2 Hd1 Hl1 He1) as Hp1.
    pose proof (frame_decodes _ _ _ [] Hd2 Hl2 He2) as Hp2.
    rewrite app_nil_r in Hp2.
    assert (Hne : frame1 ++ frame2 <> []).
    { intros E. apply app_eq_nil in E. destruct E as [E _].
      exact (encode_nonempty _ _ He1 E). }
    set (c1 := {| Smoke.io_timeout_s := Smoke.io_timeout_s c;
                  Smoke._buffer := frame2;
                  Smoke.clock := t2 :: later;
                  Smoke.stdout := rest;
                  Smoke.returncode := Smoke.returncode c |}).
    exists c1, (Smoke.after c1 [] later).
    split.
    { unfold Smoke.recv_message. rewrite Hc, Ho.
      rewrite (recv_loop_data _ t1 (t2 :: later)).
      - rewrite (recv_loop_buffered _ _ _ (VDict items1) frame2).
        + cbn [Smoke.with_buffer Smoke.with_clock Smoke.with_stdout Smoke.io_timeout_s
                 Smoke.returncode Smoke._buffer Smoke.clock Smoke.stdout].
          reflexivity.
        + cbn [Smoke.with_buffer Smoke.with_clock Smoke._buffer]. rewrite Hb.
          exact Hp1.
      - cbn [Smoke.with_clock Smoke._buffer]. rewrite Hb. reflexivity.
      - reflexivity.
      - exact Hlt.
      - exact Hne. }
    split; [reflexivity|].
    split; [apply (recv_message_buffered _ _ t2); [reflexivity | exact Hp2]|].
    split; [reflexivity|]. split; reflexivity.
Qed.

End ReaderFacts.

Lemma C8_buffered_frames_need_no_io_witness :
  (exists c',
      Smoke.recv_message (U := Sample.unicode) (J := Sample.json) None
        Scenario.buffered_client
      = (Smoke.Return (VDict Scenario.response_1), c')
      /\ Smoke.stdout c' = Smoke.stdout Scenario.buffered_client
      /\ Smoke._buffer c' = [] /\ Smoke.clock c' = [1; 2; 3; 4; 5])
  /\ (exists c1 c2,
         Smoke.recv_message (U := Sample.unicode) (J := Sample.json) (Some 30)
           Scenario.two_frames_client
         = (Smoke.Return (VDict Scenario.notification), c1)
         /\ Smoke.stdout c1 = []
         /\ Smoke.recv_message (U := Sample.unicode) (J := Sample.json) (Some 30) c1
            = (Smoke.Return (VDict Scenario.response_1), c2)
         /\ Smoke.stdout c2 = []
         /\ Smoke._buffer c2 = [] /\ Smoke.clock c2 = [3; 4; 5]).
Proof.
  split.
  - apply (proj1 (@C8_buffered_frames_need_no_io Sample.unicode Sample.json)
             None Scenario.buffered_client 0 [1; 2; 3; 4; 5]).
    + reflexivity.
    + vm_compute. reflexivity.
  - eapply (proj2 (@C8_buffered_frames_need_no_io Sample.unicode Sample.json)
              30 Scenario.two_frames_client Scenario.notification Scenario.response_1
              _ _ (Scenario.frame_of Scenario.notification)
              (Scenario.frame_of Scenario.response_1) 0 1 2 [3; 4; 5] []).
    + vm_compute. reflexivity.
    + vm_compute. reflexivity.
    + vm_compute. reflexivity.
    + vm_compute. reflexivity.
    + vm_compute. reflexivity.
    + vm_compute. reflexivity.
    + reflexivity.
    + reflexivity.
    + lia.
    + reflexivity.
Defined.

(** *** The reader fed chunk by chunk *)

Section ReaderChunks.
Context {U : UnicodeData} {J : JsonModule}.

Lemma recv_loop_chunks (body : bytes) (msg : value) (deadline : Z)
  (rest : list Smoke.select_result) (later : list Z) (chunks : list bytes) :
  len body <= max_size ->
  Smoke.decode_body body [] = (Ok (Some msg), []) ->
  Forall (fun chunk => chunk <> []) chunks -> chunks <> [] ->
  forall (c : Smoke.client) (ts : list Z),
    Smoke._buffer c ++ List.concat chunks = Smoke.wire_frame CRLFCRLF body ->
    Smoke.clock c = ts ++ later -> List.length ts = List.length chunks ->
    Forall (fun t => t < deadline) ts ->
    exists c',
      Smoke.recv_loop deadline
        (map (fun chunk => Smoke.Ready (Smoke.Data chunk)) chunks ++ rest) c
      = (Smoke.Return msg, c')
      /\ Smoke._buffer c' = [] /\ Smoke.clock c' = later /\ Smoke.stdout c' = rest.
Proof.
  intros Hsize Hbody Hall. induction Hall as [|chunk chunks' Hc Hall IH];
    intros Hne c ts E Hclock Hlen Hts; [contradiction|].
  destruct ts as [|t ts]; [discriminate|]. inversion Hts; subst.
  assert (Hmore : chunk ++ List.concat chunks' <> []).
  { intros Habs. apply app_eq_nil in Habs. destruct Habs. contradiction. }
  cbn [map app].
  rewrite (recv_loop_data deadline t (ts ++ later)).
  - destruct chunks' as [|chunk2 chunks''].
    + simpl in E. rewrite app_nil_r in E.
      destruct ts; [|discriminate]. cbn [map app].
      eexists. split; [|split; [|split]].
      * apply recv_loop_buffered. cbn [Smoke.with_buffer Smoke._buffer].
        rewrite E, <- (app_nil_r (Smoke.wire_frame CRLFCRLF body)).
        rewrite try_parse_one_frame by exact Hsize. exact Hbody.
      * reflexivity.
      * reflexivity.
      * reflexivity.
    + apply (fun H => IH H (Smoke.with_buffer (Smoke.with_clock c (ts ++ later))
                                 (Smoke._buffer c ++ chunk)) ts).
      * discriminate.
      * cbn [Smoke.with_buffer Smoke._buffer]. rewrite <- app_assoc. exact E.
      * reflexivity.
      * simpl in Hlen. simpl. lia.
      * assumption.
  - apply (try_parse_one_prefix _ (chunk ++ List.concat chunks') body); assumption.
  - exact Hclock.
  - assumption.
  - exact Hc.
Qed.

(** [recv_message] on an empty buffer, with the frame of a message
    arriving cut into non-empty chunks before the deadline: the call
    returns the message once, having read every chunk and nothing more. *)
Lemma recv_message_chunks (items : list (text * value)) (dumped : text)
  (frame : bytes) (chunks : list bytes) (c : Smoke.client) (timeout_s t0 : Z)
  (ts later : list Z) (rest : list Smoke.select_result) :
  json_dumps (VDict items) = Some dumped ->
  json_loads dumped = Some (VDict items) ->
  Smoke.encode (VDict items) = Some frame ->
  List.concat chunks = frame ->
  Forall (fun chunk => chunk <> []) chunks ->
  Smoke._buffer c = [] ->
  Smoke.clock c = t0 :: ts ++ later -> List.length ts = List.length chunks ->
  Forall (fun t => t < t0 + timeout_s) ts ->
  Smoke.stdout c = map (fun chunk => Smoke.Ready (Smoke.Data chunk)) chunks ++ rest ->
  exists c',
    Smoke.recv_message (Some timeout_s) c = (Smoke.Return (VDict items), c')
    /\ Smoke._buffer c' = [] /\ Smoke.clock c' = later /\ Smoke.stdout c' = rest.
Proof.
  intros Hd Hl He Hcat Hall Hb Hclock Hlen Hts Hout.
  apply encode_wire_frame in He. destruct He as (dumped' & Hd' & ->).
  assert (dumped' = dumped) by congruence. subst dumped'.
  unfold Smoke.recv_message. rewrite Hclock, Hout.
  refine (recv_loop_chunks (to_bytes dumped) (VDict items) _ rest later chunks
            (dumped_fits _ _ Hd) _ Hall _ _ ts _ _ Hlen Hts).
  - unfold Smoke.decode_body.
    rewrite loads_body_dumped by (apply (json_dumps_ascii _ _ Hd)).
    rewrite Hl. reflexivity.
  - intros ->. simpl in Hcat. symmetry in Hcat. revert Hcat.
    apply wire_frame_nonempty. discriminate.
  - cbn [Smoke.with_clock Smoke._buffer]. rewrite Hb. exact Hcat.
  - reflexivity.
Qed.

Lemma recv_loop_silence (deadline now : Z) (later : list Z)
  (rest : list Smoke.select_result) (c : Smoke.client) :
  Smoke._try_parse_one (Smoke._buffer c) = (Ok None, Smoke._buffer c) ->
  Smoke.clock c = now :: later -> now < deadline ->
  Smoke.recv_loop deadline (Smoke.NotReady :: rest) c
  = (Smoke.Raises (Smoke.SmokeTestError Smoke.TimedOutReadable),
     Smoke.with_stdout (Smoke.with_clock c later) rest).
Proof.
  intros Hp Hc Hlt. cbn [Smoke.recv_loop]. rewrite Hp.
  cbn [Smoke.clock Smoke.with_buffer]. rewrite Hc.
  destruct (Z.leb_spec (deadline - now) 0); [lia | reflexivity].
Qed.

Lemma recv_loop_partial (body missing : bytes) (deadline : Z)
  (rest : list Smoke.select_result) (later : list Z) (first : list bytes) :
  len body <= max_size -> missing <> [] ->
  Forall (fun chunk => chunk <> []) first ->
  forall (c : Smoke.client) (ts : list Z) (t : Z),
    Smoke._buffer c ++ List.concat first ++ missing = Smoke.wire_frame CRLFCRLF body ->
    Smoke.clock c = ts ++ t :: later -> List.length ts = List.length first ->
    Forall (fun t => t < deadline) ts -> t < deadline ->
    exists c',
      Smoke.recv_loop deadline
        (map (fun chunk => Smoke.Ready (Smoke.Data chunk)) first
           ++ Smoke.NotReady :: rest) c
      = (Smoke.Raises (Smoke.SmokeTestError Smoke.TimedOutReadable), c')
      /\ Smoke._buffer c' = Smoke._buffer c ++ List.concat first
      /\ Smoke.clock c' = later /\ Smoke.stdout c' = rest.
Proof.
  intros Hsize Hm Hall. induction Hall as [|chunk first' Hc Hall IH];
    intros c ts t E Hclock Hlen Hts Ht.
  - destruct ts; [|discriminate]. cbn [map app List.concat] in *.
    eexists. split; [|split; [|split]].
    + apply (recv_loop_silence deadline t later); [|exact Hclock|exact Ht].
      apply (try_parse_one_prefix _ missing body); assumption.
    + cbn. rewrite app_nil_r. reflexivity.
    + reflexivity.
    + reflexivity.
  - destruct ts as [|t1 ts]; [discriminate|]. inversion Hts; subst.
    cbn [map app List.concat] in *.
    rewrite (recv_loop_data deadline t1 (ts ++ t :: later)).
    + destruct (IH (Smoke.with_buffer (Smoke.with_clock c (ts ++ t :: later))
                      (Smoke._buffer c ++ chunk)) ts t)
        as (c' & Hr & Hb & Hk & Ho).
      * cbn [Smoke.with_buffer Smoke._buffer]. rewrite <- !app_assoc.
        rewrite <- !app_assoc in E. exact E.
      * reflexivity.
      * simpl in Hlen. lia.
      * assumption.
      * exact Ht.
      * exists c'. split; [exact Hr|]. split; [|split; assumption].
        rewrite Hb. cbn [Smoke.with_buffer Smoke._buffer].
        rewrite <- app_assoc. reflexivity.
    + apply (try_parse_one_prefix _ ((chunk ++ List.concat first') ++ missing) body);
        [exact Hsize | exact E |].
      intros Habs. apply app_eq_nil in Habs. destruct Habs as [_ Habs]. contradiction.
    + exact Hclock.
    + assumption.
    + exact Hc.
Qed.

(** C3. Chunk boundaries do not matter to the reader.  Let the frame of a
    message reach [recv_message] cut into non-empty chunks, in any way,
    each chunk read before the deadline.  When all the chunks arrive, the
    call returns the message, having read every chunk and nothing more; the
    buffer is empty afterwards, so the message is returned once.  When
    only a proper initial part of the chunks arrives and the server then
    falls silent, the call returns no message: it times out with exactly
    the bytes received in the buffer. *)
Theorem C3_chunk_boundaries (items : list (text * value)) (dumped : text)
  (frame : bytes) (chunks first second : list bytes) (c : Smoke.client)
  (timeout_s t0 : Z) (ts later : list Z) (rest : list Smoke.select_result) :
  json_dumps (VDict items) = Some dumped ->
  json_loads dumped = Some (VDict items) ->
  Smoke.encode (VDict items) = Some frame ->
  List.concat chunks = frame ->
  Forall (fun chunk => chunk <> []) chunks ->
  chunks = first ++ second -> second <> [] ->
  Smoke._buffer c = [] ->
  Smoke.clock c = t0 :: ts ++ later -> List.length ts = List.length chunks ->
  Forall (fun t => t < t0 + timeout_s) ts ->
  (exists c',
      Smoke.recv_message (Some timeout_s)
        (Smoke.with_stdout c
           (map (fun chunk => Smoke.Ready (Smoke.Data chunk)) chunks ++ rest))
      = (Smoke.Return (VDict items), c')
      /\ Smoke._buffer c' = [] /\ Smoke.clock c' = later /\ Smoke.stdout c' = rest)
  /\ (exists c',
         Smoke.recv_message (Some timeout_s)
           (Smoke.with_stdout c
              (map (fun chunk => Smoke.Ready (Smoke.Data chunk)) first
                 ++ Smoke.NotReady :: rest))
         = (Smoke.Raises (Smoke.SmokeTestError Smoke.TimedOutReadable), c')
         /\ Smoke._buffer c' = List.concat first
         /\ Smoke.clock c' = skipn (S (List.length first)) ts ++ later
         /\ Smoke.stdout c' = rest).
Proof.
  intros Hd Hl He Hcat Hall Hsplit Hsecond Hb Hclock Hlen Hts. split.
  - apply (recv_message_chunks items dumped frame chunks _ timeout_s t0 ts later rest);
      try assumption; reflexivity.
  - apply encode_wire_frame in He. destruct He as (dumped' & Hd' & ->).
    assert (dumped' = dumped) by congruence. subst dumped'.
    subst chunks. rewrite length_app in Hlen.
    destruct second as [|chunk second]; [contradiction|].
    apply Forall_app in Hall. destruct Hall as [Hfirst Hsec].
    assert (Hcut : ts = firstn (List.length first) ts
                        ++ nth (List.length first) ts 0
                        :: skipn (S (List.length first)) ts).
    { cbn [List.length] in Hlen.
      rewrite <- (firstn_skipn (List.length first) ts) at 1. f_equal.
      destruct (skipn (List.length first) ts) as [|x l] eqn:Es.
      - exfalso. apply (f_equal (@List.length Z)) in Es.
        rewrite length_skipn in Es. cbn [List.length] in Es. lia.
      - assert (Hx : nth (List.length first) ts 0 = x).
        { rewrite <- (firstn_skipn (List.length first) ts) at 1.
          rewrite app_nth2 by (rewrite length_firstn; lia).
          rewrite length_firstn, Es.
          replace (List.length first - Nat.min (List.length first) (List.length ts))%nat
            with 0%nat by lia.
          reflexivity. }
        rewrite Hx. f_equal.
        replace (S (List.length first)) with (1 + List.length first)%nat by lia.
        rewrite <- skipn_skipn, Es. reflexivity. }
    set (t := nth (List.length first) ts 0) in *.
    set (ts1 := firstn (List.length first) ts) in *.
    set (ts2 := skipn (S (List.length first)) ts) in *.
    assert (Hts' : Forall (fun t => t < t0 + timeout_s) (ts1 ++ t :: ts2))
      by (rewrite <- Hcut; exact Hts).
    apply Forall_app in Hts'. destruct Hts' as [Hts1 Hts2].
    pose proof (Forall_inv Hts2) as Ht.
    unfold Smoke.recv_message. cbn [Smoke.clock Smoke.with_stdout Smoke.stdout].
    rewrite Hclock.
    destruct (recv_loop_partial (to_bytes dumped) (List.concat (chunk :: second))
                (t0 + timeout_s) rest (ts2 ++ later) first
                (dumped_fits _ _ Hd)
                ltac:(cbn [List.concat]; intros Habs; apply app_eq_nil in Habs;
                      destruct Habs as [Habs _]; inversion Hsec; contradiction)
                Hfirst
                (Smoke.with_clock
                   (Smoke.with_stdout c
                      (map (fun chunk => Smoke.Ready (Smoke.Data chunk)) first
                         ++ Smoke.NotReady :: rest)) (ts ++ later))
                ts1 t)
      as (c' & Hr & Hb' & Hk & Ho).
    + cbn [Smoke.with_clock Smoke.with_stdout Smoke._buffer]. rewrite Hb.
      cbn [app]. rewrite <- Hcat. rewrite concat_app. reflexivity.
    + cbn [Smoke.with_clock Smoke.clock]. rewrite Hcut at 1.
      rewrite <- app_assoc. reflexivity.
    + unfold ts1. rewrite length_firstn. cbn [List.length] in Hlen. lia.
    + exact Hts1.
    + exact Ht.
    + exists c'. split; [exact Hr|]. split; [|split; assumption].
      rewrite Hb'. cbn [Smoke.with_clock Smoke.with_stdout Smoke._buffer].
      rewrite Hb. reflexivity.
Qed.

End ReaderChunks.

Lemma C3_chunk_boundaries_witness :
  (exists c',
      Smoke.recv_message (U := Sample.unicode) (J := Sample.json) (Some 30)
        (Smoke.with_stdout Scenario.two_frames_client
           (map (fun chunk => Smoke.Ready (Smoke.Data chunk)) Scenario.initialize_chunks
              ++ []))
      = (Smoke.Return (VDict Scenario.initialize_request), c')
      /\ Smoke._buffer c' = [] /\ Smoke.clock c' = [4; 5] /\ Smoke.stdout c' = [])
  /\ (exists c',
         Smoke.recv_message (U := Sample.unicode) (J := Sample.json) (Some 30)
           (Smoke.with_stdout Scenario.two_frames_client
              (map (fun chunk => Smoke.Ready (Smoke.Data chunk))
                 [firstn 1 Scenario.initialize_frame]
                 ++ Smoke.NotReady :: []))
         = (Smoke.Raises (Smoke.SmokeTestError Smoke.TimedOutReadable), c')
         /\ Smoke._buffer c' = List.concat [firstn 1 Scenario.initialize_frame]
         /\ Smoke.clock c' = skipn 2 [1; 2; 3] ++ [4; 5]
         /\ Smoke.stdout c' = []).
Proof.
  apply (@C3_chunk_boundaries Sample.unicode Sample.json
           Scenario.initialize_request
           (Scenario.dumped (VDict Scenario.initialize_request))
           Scenario.initialize_frame Scenario.initialize_chunks
           [firstn 1 Scenario.initialize_frame]
           [firstn 30 (skipn 1 Scenario.initialize_frame);
            skipn 31 Scenario.initialize_frame]
           Scenario.two_frames_client 30 0 [1; 2; 3] [4; 5] []).
  - vm_compute. reflexivity.
  - vm_compute. reflexivity.
  - vm_compute. reflexivity.
  - vm_compute. reflexivity.
  - repeat constructor; intros E; vm_compute in E; discriminate E.
  - reflexivity.
  - discriminate.
  - reflexivity.
  - reflexivity.
  - reflexivity.
  - repeat (constructor; [lia|]). constructor.
Defined.

(** ** Waiting for the response to a request *)

Section Correlation.
Context {U : UnicodeData} {J : JsonModule}.

Lemma response_loop_skip (fuel : nat) (request_id deadline : Z) (c : Smoke.client)
  (msg : value) (buffer' : bytes) (now now' : Z) (later : list Z) :
  Smoke.clock c = now :: now' :: later -> now < deadline ->
  Smoke._try_parse_one (Smoke._buffer c) = (Ok (Some msg), buffer') ->
  Smoke.answers msg request_id = false ->
  Smoke.response_loop (S fuel) request_id deadline c
  = Smoke.response_loop fuel request_id deadline (Smoke.after c buffer' later).
Proof.
  intros Hc Hlt Hp Ha. cbn [Smoke.response_loop]. rewrite Hc.
  destruct (Z.leb_spec (deadline - now) 0); [lia|].
  rewrite (recv_message_buffered _ _ now' later msg buffer'); [|reflexivity|exact Hp].
  rewrite Ha. reflexivity.
Qed.

Lemma response_loop_returns (fuel : nat) (request_id deadline : Z)
  (c c' : Smoke.client) (msg : value) :
  Smoke.response_loop fuel request_id deadline c = (Smoke.Return msg, c') ->
  Smoke.answers msg request_id = true.
Proof.
  revert c. induction fuel as [|fuel IH]; intros c; cbn [Smoke.response_loop];
    [discriminate|].
  destruct (Smoke.clock c) as [|now later]; [discriminate|].
  destruct (deadline - now <=? 0); [discriminate|].
  destruct (Smoke.recv_message (Some (deadline - now)) (Smoke.with_clock c later))
    as [[m| e |] c1]; [|discriminate|discriminate].
  destruct (Smoke.answers m request_id) eqn:Ha.
  - intros E. inversion E; subst. exact Ha.
  - apply IH.
Qed.

(** *** The script, not the fuel, is what a wait can run out of *)






End Correlation.



(** ** The staged shutdown *)

Lemma grace_loop_exit (deadline : Z) (w : bool) (k : nat) (code : Z) :
  forall (ts rest_readings : list Z) (rest_polls : list (option Z)),
    List.length ts = S k -> Forall (fun t => t < deadline) ts ->
    Smoke.grace_loop deadline w (ts ++ rest_readings)
      (repeat None k ++ Some code :: rest_polls)
    = (repeat Smoke.Sleep k, Smoke.Finished).
Proof.
  induction k as [|k IH]; intros ts rr rp Hlen Hts.
  - destruct ts as [|t ts]; [discriminate|]. inversion Hts; subst.
    cbn [app Smoke.grace_loop repeat]. destruct (Z.ltb_spec t deadline); [|lia].
    reflexivity.
  - destruct ts as [|t ts]; [discriminate|]. inversion Hts; subst.
    cbn [app Smoke.grace_loop repeat]. destruct (Z.ltb_spec t deadline); [|lia].
    rewrite IH; [reflexivity | simpl in Hlen; lia | assumption].
Qed.

Lemma grace_loop_expire (deadline : Z) (w : bool) (k : nat) (t_end : Z) :
  forall (ts rest_readings : list Z) (rest_polls : list (option Z)),
    List.length ts = k -> Forall (fun t => t < deadline) ts -> deadline <= t_end ->
    Smoke.grace_loop deadline w (ts ++ t_end :: rest_readings)
      (repeat None k ++ rest_polls)
    = (repeat Smoke.Sleep k ++ Smoke.escalation w, Smoke.Finished).
Proof.
  induction k as [|k IH]; intros ts rr rp Hlen Hts Hend.
  - destruct ts; [|discriminate].
    cbn [app Smoke.grace_loop repeat]. destruct (Z.ltb_spec t_end deadline); [lia|].
    unfold Smoke.escalation. destruct w; reflexivity.
  - destruct ts as [|t ts]; [discriminate|]. inversion Hts; subst.
    cbn [app Smoke.grace_loop repeat]. destruct (Z.ltb_spec t deadline); [|lia].
    rewrite IH; [reflexivity | simpl in Hlen; lia | assumption | assumption].
Qed.

Lemma grace_loop_shape (deadline : Z) (w : bool) (readings : list Z) :
  forall (polls : list (option Z)),
  exists k tail,
    fst (Smoke.grace_loop deadline w readings polls) = repeat Smoke.Sleep k ++ tail
    /\ (tail = [] \/ tail = Smoke.escalation w).
Proof.
  induction readings as [|t readings IH]; intros polls.
  - exists 0%nat, []. split; [reflexivity | left; reflexivity].
  - cbn [Smoke.grace_loop]. destruct (t <? deadline).
    + destruct polls as [|[code|] polls].
      * exists 0%nat, []. split; [reflexivity | left; reflexivity].
      * exists 0%nat, []. split; [reflexivity | left; reflexivity].
      * destruct (IH polls) as (k & tail & E & Ht).
        destruct (Smoke.grace_loop deadline w readings polls) as [acts st].
        simpl in E. subst acts. exists (S k), tail. split; [reflexivity | exact Ht].
    + exists 0%nat, (Smoke.escalation w). split; [|right; reflexivity].
      unfold Smoke.escalation. destruct w; reflexivity.
Qed.

(** C9. [_terminate_process] does nothing to a child that has already
    exited.  When a poll of the grace loop finds that the child has exited,
    the function returns having only closed stdin and slept: neither
    [terminate] nor [kill] is called.  When no poll finds the child exited
    before the clock reaches the deadline, the calls are, in this order:
    close stdin, the sleeps of the grace period, [terminate], the bounded
    [wait], and [kill] only if that wait did not return.  Whatever the
    child does, the calls made are the closing of stdin and sleeps followed
    by nothing or by that escalation. *)
Theorem C9_staged_shutdown :
  (forall (proc : Smoke.process) (grace_s code : Z) (rest : list (option Z)),
      Smoke.polls proc = Some code :: rest ->
      Smoke._terminate_process proc grace_s = ([], Smoke.Finished))
  /\ (forall (proc : Smoke.process) (grace_s t0 code : Z) (k : nat)
             (ts rest_readings : list Z) (rest_polls : list (option Z)),
         Smoke.polls proc = None :: repeat None k ++ Some code :: rest_polls ->
         Smoke.readings proc = t0 :: ts ++ rest_readings ->
         List.length ts = S k -> Forall (fun t => t < t0 + grace_s) ts ->
         Smoke._terminate_process proc grace_s
         = (Smoke.closing proc ++ repeat Smoke.Sleep k, Smoke.Finished))
  /\ (forall (proc : Smoke.process) (grace_s t0 t_end : Z) (k : nat)
             (ts rest_readings : list Z) (rest_polls : list (option Z)),
         Smoke.polls proc = None :: repeat None k ++ rest_polls ->
         Smoke.readings proc = t0 :: ts ++ t_end :: rest_readings ->
         List.length ts = k -> Forall (fun t => t < t0 + grace_s) ts ->
         t0 + grace_s <= t_end ->
         Smoke._terminate_process proc grace_s
         = (Smoke.closing proc ++ repeat Smoke.Sleep k
              ++ Smoke.escalation (Smoke.wait_returns proc), Smoke.Finished))
  /\ (forall (proc : Smoke.process) (grace_s : Z),
         fst (Smoke._terminate_process proc grace_s) = []
         \/ exists k tail,
             fst (Smoke._terminate_process proc grace_s)
             = Smoke.closing proc ++ repeat Smoke.Sleep k ++ tail
             /\ (tail = [] \/ tail = Smoke.escalation (Smoke.wait_returns proc))).
Proof.
  split; [|split; [|split]].
  - intros proc grace_s code rest Hp. unfold Smoke._terminate_process.
    rewrite Hp. reflexivity.
  - intros proc grace_s t0 code k ts rr rp Hp Hr Hlen Hts.
    unfold Smoke._terminate_process. rewrite Hp, Hr.
    rewrite grace_loop_exit by assumption. reflexivity.
  - intros proc grace_s t0 t_end k ts rr rp Hp Hr Hlen Hts Hend.
    unfold Smoke._terminate_process. rewrite Hp, Hr.
    rewrite grace_loop_expire by assumption. reflexivity.
  - intros proc grace_s. unfold Smoke._terminate_process.
    destruct (Smoke.polls proc) as [|[code|] polls'].
    + left. reflexivity.
    + left. reflexivity.
    + right. fold (Smoke.closing proc). destruct (Smoke.readings proc) as [|t0 readings'].
      * exists 0%nat, []. split; [|left; reflexivity].
        cbn [fst repeat app]. rewrite app_nil_r. reflexivity.
      * destruct (grace_loop_shape (t0 + grace_s) (Smoke.wait_returns proc)
                    readings' polls') as (k & tail & E & Ht).
        destruct (Smoke.grace_loop (t0 + grace_s) (Smoke.wait_returns proc)
                    readings' polls') as [acts st].
        simpl in E. subst acts. exists k, tail. split; [reflexivity | exact Ht].
Qed.

Lemma C9_staged_shutdown_witness :
  Smoke._terminate_process Scenario.exited_child 200 = ([], Smoke.Finished)
  /\ Smoke._terminate_process Scenario.obedient_child 200
     = (Smoke.closing Scenario.obedient_child ++ repeat Smoke.Sleep 2, Smoke.Finished)
  /\ Smoke._terminate_process Scenario.stubborn_child 200
     = (Smoke.closing Scenario.stubborn_child ++ repeat Smoke.Sleep 2
          ++ Smoke.escalation (Smoke.wait_returns Scenario.stubborn_child), Smoke.Finished).
Proof.
  split; [|split].
  - apply (proj1 C9_staged_shutdown Scenario.exited_child 200 0 []). reflexivity.
  - apply (proj1 (proj2 C9_staged_shutdown) Scenario.obedient_child 200 0 0 2%nat
             [0; 5; 10] [15] []).
    + reflexivity.
    + reflexivity.
    + reflexivity.
    + repeat constructor.
  - apply (proj1 (proj2 (proj2 C9_staged_shutdown)) Scenario.stubborn_child 200 0 200
             2%nat [0; 100] [205] [None]).
    + reflexivity.
    + reflexivity.
    + reflexivity.
    + repeat constructor.
    + lia.
Defined.

(** ** The two decoders agree *)

Section Agreement.
Context {U : UnicodeData} {J : JsonModule}.

Lemma find_header_end_agree (buf : bytes) :
  E2E._find_header_end buf = Smoke._find_header_end buf.
Proof. reflexivity. Qed.

Lemma content_length_of_lines_agree (lines : list text) :
  Decoders.same_result (Smoke.content_length_of_lines lines)
                       (E2E.content_length_of_lines lines).
Proof.
  induction lines as [|line lines IH]; simpl; [reflexivity|].
  destruct (negb (contains line 0x3A)); [exact IH|].
  destruct (split_once line 0x3A) as [k v].
  destruct (text_eqb (lower (strip k)) (u "content-length")); [|exact IH].
  destruct (negb (isdigit (strip v))); [reflexivity|].
  destruct (int (strip v)); simpl; [reflexivity | exact I].
Qed.

Lemma parse_content_length_agree (header : bytes) :
  Decoders.same_result (Smoke._parse_content_length header)
                       (E2E._parse_content_length header).
Proof. apply content_length_of_lines_agree. Qed.

(** C10. The frame decoders of the smoke test and of the regression test
    agree on every buffer: both return the same message, or both return
    [None], or both raise (the same error, each in its own exception
    class), and both leave the same buffer behind. *)
Theorem C10_decoders_agree (buffer : bytes) :
  Decoders.same_result (fst (Smoke._try_parse_one buffer))
                       (fst (E2E._try_parse_one buffer))
  /\ snd (Smoke._try_parse_one buffer) = snd (E2E._try_parse_one buffer).
Proof.
  unfold Smoke._try_parse_one, E2E._try_parse_one.
  destruct buffer as [|c buffer]; [split; reflexivity|].
  change (E2E._find_header_end (c :: buffer))
    with (Smoke._find_header_end (c :: buffer)).
  destruct (Smoke._find_header_end (c :: buffer)) as [h|]; [|split; reflexivity].
  cbv zeta. set (header := slice (c :: buffer) 0 h).
  pose proof (parse_content_length_agree header) as Hc.
  destruct (Smoke._parse_content_length header) as [[n|]|e],
           (E2E._parse_content_length header) as [[n'|]|e'];
    simpl in Hc; try contradiction; try discriminate.
  - inversion Hc; subst n'.
    destruct (len (c :: buffer) <? _); [split; reflexivity|].
    unfold Smoke.loads_body, E2E.loads_body.
    destruct (decode_utf8 _) as [t|]; [|split; reflexivity].
    destruct (json_loads t) as [msg|]; [|split; reflexivity].
    destruct (negb (is_dict msg)); split; reflexivity.
  - split; reflexivity.
  - split; [exact Hc | reflexivity].
Qed.

End Agreement.

(* ================================================================== *)
(** * Further properties of the frame decoder *)
(* ================================================================== *)

Section DecoderEdges.
Context {U : UnicodeData} {J : JsonModule}.

Lemma find_header_end_none_iff (buffer : bytes) :
  Smoke._find_header_end buffer = None
  <-> (forall i, ~ occurs_at CRLFCRLF buffer i) /\ (forall i, ~ occurs_at LFLF buffer i).
Proof.
  unfold Smoke._find_header_end. split.
  - destruct (find buffer CRLFCRLF =? -1) eqn:E1; cbn [negb]; [|discriminate].
    destruct (find buffer LFLF =? -1) eqn:E2; cbn [negb]; [|discriminate].
    intros _. apply Z.eqb_eq in E1, E2.
    split; apply find_missing; assumption.
  - intros [H1 H2].
    rewrite (find_no_occurrence _ _ H1), (find_no_occurrence _ _ H2). reflexivity.
Qed.

(** X1.  A buffer in which no blank line occurs, neither CR LF CR LF nor
    LF LF, has no header end, and only such a buffer has none; the decoder
    then reports that no message is ready and keeps the buffer, whatever
    the bytes are. *)
Theorem no_blank_line_no_verdict (buffer : bytes) :
  (Smoke._find_header_end buffer = None
   <-> (forall i, ~ occurs_at CRLFCRLF buffer i)
       /\ (forall i, ~ occurs_at LFLF buffer i))
  /\ ((forall i, ~ occurs_at CRLFCRLF buffer i) ->
      (forall i, ~ occurs_at LFLF buffer i) ->
      Smoke._try_parse_one buffer = (Ok None, buffer)).
Proof.
  split; [apply find_header_end_none_iff|].
  intros H1 H2. apply try_parse_one_no_header.
  apply find_header_end_none_iff. split; assumption.
Qed.

Lemma terminator_width_cases (buffer : bytes) (h : Z) :
  Smoke.terminator_width buffer h = 4 \/ Smoke.terminator_width buffer h = 2.
Proof.
  unfold Smoke.terminator_width.
  destruct (bytes_eqb _ _); [left | right]; reflexivity.
Qed.

Lemma decode_body_rest (body rest rest' : bytes) (r : result Smoke.exn (option value)) :
  Smoke.decode_body body rest = (r, rest') -> rest' = rest /\ cuts_frame r = true.
Proof.
  unfold Smoke.decode_body.
  destruct (Smoke.loads_body body) as [msg|].
  - destruct (negb (is_dict msg)); intros E; inversion E; split; reflexivity.
  - intros E; inversion E; split; reflexivity.
Qed.

Lemma try_parse_one_cases (buffer : bytes) :
  (Smoke._try_parse_one buffer = (Ok None, buffer))
  \/ (exists e, Smoke._try_parse_one buffer = (Raise e, buffer)
                /\ cuts_frame (Raise e) = false)
  \/ (exists h n,
        Smoke._find_header_end buffer = Some h
        /\ Smoke._parse_content_length (slice buffer 0 h) = Ok (Some n)
        /\ h + Smoke.terminator_width buffer h + n <= len buffer
        /\ Smoke._try_parse_one buffer
           = Smoke.decode_body
               (slice buffer (h + Smoke.terminator_width buffer h)
                             (h + Smoke.terminator_width buffer h + n))
               (del_front buffer (h + Smoke.terminator_width buffer h + n))).
Proof.
  destruct (Smoke._find_header_end buffer) as [h|] eqn:Eh.
  - destruct (Smoke._parse_content_length (slice buffer 0 h)) as [[n|]|e] eqn:Ep.
    + pose proof (try_parse_one_header buffer h n Eh Ep) as E. cbv zeta in E.
      destruct (len buffer <? h + Smoke.terminator_width buffer h + n) eqn:El.
      * left. exact E.
      * right. right. exists h, n. apply Z.ltb_ge in El. auto.
    + right. left. eexists. split; [apply (try_parse_one_invalid buffer h); assumption|reflexivity].
    + right. left. exists e. split; [apply (try_parse_one_raises buffer h); assumption|].
      unfold Smoke._parse_content_length in Ep.
      destruct e as [m| |]; try reflexivity.
      exfalso. revert Ep.
      generalize (split (replace (decode_utf8_replace (slice buffer 0 h))
                           [0x0D; 0x0A] [0x0A]) 0x0A).
      intros lines. induction lines as [|line lines IH]; cbn [Smoke.content_length_of_lines].
      * discriminate.
      * destruct (negb (contains line 0x3A)); [exact IH|].
        destruct (split_once line 0x3A) as [k v].
        destruct (text_eqb _ _); [|exact IH].
        destruct (negb (isdigit (strip v))); [discriminate|].
        destruct (int (strip v)); discriminate.
  - left. apply try_parse_one_no_header. exact Eh.
Qed.

Lemma try_parse_one_suffix (buffer buffer' : bytes)
  (r : result Smoke.exn (option value)) :
  Smoke._try_parse_one buffer = (r, buffer') ->
  exists taken,
    buffer = taken ++ buffer'
    /\ (cuts_frame r = false -> taken = [])
    /\ (cuts_frame r = true -> 2 <= len taken).
Proof.
  intros E.
  destruct (try_parse_one_cases buffer) as [E'|[(e & E' & He)|(h & n & Eh & Ep & Hl & E')]];
    rewrite E' in E.
  - inversion E; subst. exists []. split; [reflexivity|]. split; [reflexivity|discriminate].
  - inversion E; subst. exists []. split; [reflexivity|].
    split; [reflexivity|]. rewrite He. discriminate.
  - apply decode_body_rest in E. destruct E as [-> Hc].
    pose proof (find_header_end_range _ _ Eh) as Hr.
    pose proof (parse_content_length_nonneg _ _ Ep) as Hn.
    pose proof (terminator_width_cases buffer h) as Hw.
    exists (slice buffer 0 (h + Smoke.terminator_width buffer h + n)).
    split; [apply slice_del_front; lia|].
    split; [rewrite Hc; discriminate|].
    intros _. rewrite len_slice by lia. lia.
Qed.

Lemma try_parse_one_cut (buffer buffer' : bytes)
  (r : result Smoke.exn (option value)) :
  Smoke._try_parse_one buffer = (r, buffer') -> cuts_frame r = true ->
  exists taken, buffer = taken ++ buffer' /\ is_frame_of taken buffer' r.
Proof.
  intros E Hcut.
  destruct (try_parse_one_cases buffer) as [E'|[(e & E' & He)|(h & n & Eh & Ep & Hl & E')]];
    rewrite E' in E.
  - inversion E; subst. discriminate Hcut.
  - inversion E; subst. rewrite He in Hcut. discriminate Hcut.
  - pose proof (decode_body_rest _ _ _ _ E) as [-> _].
    pose proof (find_header_end_range _ _ Eh) as Hr.
    pose proof (parse_content_length_nonneg _ _ Ep) as Hn.
    set (w := Smoke.terminator_width buffer h) in *.
    assert (Hw : 0 <= w /\ ((w = 4 /\ slice buffer h (h + w) = CRLFCRLF)
                            \/ (w = 2 /\ slice buffer h (h + w) = LFLF))).
    { destruct (find_header_end_terminator _ _ Eh) as [[E4 S4]|[E2 S2]];
        fold w in E4 || fold w in E2.
      - rewrite E4. split; [lia|]. left. split; [reflexivity | exact S4].
      - rewrite E2. split; [lia|]. right. split; [reflexivity | exact S2]. }
    destruct Hw as [Hw0 Hw].
    pose proof (buffer_cut buffer h (h + w) (h + w + n) ltac:(lia) ltac:(lia)) as Hb.
    exists (slice buffer 0 h ++ slice buffer h (h + w)
              ++ slice buffer (h + w) (h + w + n)).
    split; [rewrite <- !app_assoc; exact Hb|].
    exists (slice buffer 0 h), (slice buffer h (h + w)),
           (slice buffer (h + w) (h + w + n)).
    assert (Hlh : len (slice buffer 0 h) = h) by (rewrite len_slice by lia; lia).
    assert (Hlb : len (slice buffer (h + w) (h + w + n)) = n)
      by (rewrite len_slice by lia; lia).
    rewrite Hlh, Hlb.
    split; [reflexivity|].
    split; [destruct Hw as [[_ Et]|[_ Et]]; [left | right]; exact Et|].
    split; [rewrite <- !app_assoc, <- Hb; exact Eh|].
    split; [exact Ep | exact E].
Qed.


(** X3.  A frame whose body is not JSON, or is JSON but not an object,
    is consumed all the same: the decoder raises and leaves exactly the
    bytes behind the frame, so that the frame that follows is decoded by
    the next call.  (The body is a bytes object, so it has at most
    [max_size] bytes.) *)
Theorem rejected_body_is_consumed (body rest : bytes)
  (items : list (text * value)) (dumped : text) (frame : bytes) :
  len body <= max_size ->
  Smoke.loads_body body = None
  \/ (exists v, Smoke.loads_body body = Some v /\ is_dict v = false) ->
  json_dumps (VDict items) = Some dumped ->
  json_loads dumped = Some (VDict items) ->
  Smoke.encode (VDict items) = Some frame ->
  exists m,
    Smoke._try_parse_one (Smoke.wire_frame CRLFCRLF body ++ frame ++ rest)
    = (Raise (Smoke.SmokeTestError m), frame ++ rest)
    /\ (m = Smoke.JsonDecodeFailed body \/ exists v, m = Smoke.NotAnObject v)
    /\ Smoke._try_parse_one (frame ++ rest) = (Ok (Some (VDict items)), rest).
Proof.
  intros Hsize Hb Hd Hl He.
  rewrite try_parse_one_frame by exact Hsize. unfold Smoke.decode_body.
  destruct Hb as [Hb|(v & Hb & Hv)]; rewrite Hb.
  - eexists. split; [reflexivity|]. split; [left; reflexivity|].
    eapply frame_decodes; eassumption.
  - rewrite Hv. cbn [negb]. eexists. split; [reflexivity|].
    split; [right; eexists; reflexivity|].
    eapply frame_decodes; eassumption.
Qed.

End DecoderEdges.



Lemma rejected_body_is_consumed_witness :
  exists m,
    Smoke._try_parse_one (U := Sample.unicode) (J := Sample.json)
      (Smoke.wire_frame CRLFCRLF (b "{x")
         ++ Scenario.frame_of Scenario.response_1 ++ b "tail")
    = (Raise (Smoke.SmokeTestError m), Scenario.frame_of Scenario.response_1 ++ b "tail")
    /\ (m = Smoke.JsonDecodeFailed (b "{x") \/ exists v, m = Smoke.NotAnObject v)
    /\ Smoke._try_parse_one (U := Sample.unicode) (J := Sample.json)
         (Scenario.frame_of Scenario.response_1 ++ b "tail")
       = (Ok (Some (VDict Scenario.response_1)), b "tail").
Proof.
  apply (@rejected_body_is_consumed Sample.unicode Sample.json (b "{x") (b "tail")
           Scenario.response_1
           (match json_dumps (JsonModule := Sample.json) (VDict Scenario.response_1) with
            | Some dumped => dumped
            | None => []
            end)
           (Scenario.frame_of Scenario.response_1)).
  - vm_compute. discriminate.
  - left. vm_compute. reflexivity.
  - vm_compute. reflexivity.
  - vm_compute. reflexivity.
  - vm_compute. reflexivity.
Defined.


(* ================================================================== *)
(** * Further properties of the header parser *)
(* ================================================================== *)

Section HeaderLines.
Context {U : UnicodeData}.

Lemma dropwhile_all (p : Z -> bool) (pre s : text) :
  Forall (fun c => p c = true) pre -> dropwhile p (pre ++ s) = dropwhile p s.
Proof.
  induction 1 as [|c pre Hc _ IH]; [reflexivity|].
  cbn [app dropwhile]. rewrite Hc. exact IH.
Qed.

Lemma dropwhile_none (p : Z -> bool) (core s : text) :
  Forall (fun c => p c = false) core -> core <> [] ->
  dropwhile p (core ++ s) = core ++ s.
Proof.
  intros H Hne. destruct H as [|c core Hc _]; [congruence|].
  cbn [app dropwhile]. rewrite Hc. reflexivity.
Qed.

Lemma strip_padded (pre core post : text) :
  Forall (fun c => isspace_cp c = true) pre ->
  Forall (fun c => isspace_cp c = true) post ->
  Forall (fun c => isspace_cp c = false) core ->
  strip (pre ++ core ++ post) = core.
Proof.
  intros Hpre Hpost Hcore. unfold strip. rewrite dropwhile_all by exact Hpre.
  destruct core as [|c core].
  - cbn [app]. rewrite <- (app_nil_r post) at 1. rewrite dropwhile_all by exact Hpost.
    reflexivity.
  - rewrite dropwhile_none by (assumption || discriminate).
    rewrite rev_app_distr. rewrite dropwhile_all by (apply Forall_rev; exact Hpost).
    rewrite <- (app_nil_r (rev (c :: core))).
    rewrite dropwhile_none.
    + rewrite app_nil_r. apply rev_involutive.
    + apply Forall_rev. exact Hcore.
    + intros E. apply (f_equal (@rev Z)) in E. rewrite rev_involutive in E.
      discriminate E.
Qed.

Lemma blanks_space (t : text) : blanks t -> Forall (fun c => isspace_cp c = true) t.
Proof.
  intros H. eapply Forall_impl; [|exact H]. cbv beta.
  intros c [->| ->]; rewrite isspace_ascii by lia; reflexivity.
Qed.

Lemma blanks_plain (t : text) (c : Z) :
  blanks t -> c <> 0x20 -> c <> 0x09 -> ~ In c t.
Proof.
  intros H H1 H2 Hin.
  pose proof (proj1 (Forall_forall _ _) H _ Hin) as [E|E]; congruence.
Qed.

Lemma blanks_ascii (t : text) : blanks t -> is_ascii t.
Proof.
  intros H. eapply Forall_impl; [|exact H]. cbv beta. intros c [->| ->]; lia.
Qed.

Lemma ascii_lower_name (c d : Z) :
  ascii_lower c = d -> 0x61 <= d <= 0x7A \/ d = 0x2D -> name_char c.
Proof.
  unfold ascii_lower, name_char.
  destruct ((0x41 <=? c) && (c <=? 0x5A)) eqn:E; intros <- H; [|lia].
  apply andb_prop in E. destruct E as [E1 E2].
  apply Z.leb_le in E1, E2. lia.
Qed.

Lemma spelling_chars (name target : text) :
  Forall (fun d => 0x61 <= d <= 0x7A \/ d = 0x2D) target ->
  map ascii_lower name = target -> Forall name_char name.
Proof.
  intros Ht. revert name.
  induction Ht as [|d target Hd _ IH]; intros [|c name] E; try discriminate.
  - constructor.
  - cbn [map] in E. injection E as E1 E2. constructor.
    + eapply ascii_lower_name; [exact E1 | exact Hd].
    + apply IH. exact E2.
Qed.

Lemma content_length_spelling (name : text) :
  map ascii_lower name = u "content-length" -> Forall name_char name.
Proof.
  apply spelling_chars.
  apply Forall_forall. intros d Hd.
  assert (Hc : forallb (fun d => ((0x61 <=? d) && (d <=? 0x7A)) || (d =? 0x2D))
                 (u "content-length") = true) by reflexivity.
  pose proof (proj1 (forallb_forall _ _) Hc d Hd) as H.
  apply orb_prop in H. destruct H as [H|H].
  - apply andb_prop in H. destruct H as [H1 H2]. apply Z.leb_le in H1, H2. lia.
  - apply Z.eqb_eq in H. lia.
Qed.

Lemma split_joined_lines (lines : list text) :
  Forall plain_line lines -> lines <> [] ->
  split (replace (join_crlf lines) [0x0D; 0x0A] [0x0A]) 0x0A = lines.
Proof.
  unfold replace.
  induction 1 as [|line lines (Ha & Hcr & Hlf) Hl IH]; intros Hne; [congruence|].
  destruct lines as [|line2 lines].
  - cbn [join_crlf]. rewrite <- (app_nil_r line) at 1.
    rewrite replace_absent_app by exact Hcr. cbn [replace_go].
    rewrite app_nil_r. apply split_absent. exact Hlf.
  - change (join_crlf (line :: line2 :: lines))
      with (line ++ 0x0D :: 0x0A :: join_crlf (line2 :: lines)).
    rewrite replace_absent_app by exact Hcr.
    change (replace_go [0x0D; 0x0A] [0x0A] 0 (0x0D :: 0x0A :: join_crlf (line2 :: lines)))
      with (0x0A :: replace_go [0x0D; 0x0A] [0x0A] 0 (join_crlf (line2 :: lines))).
    rewrite split_absent_app by exact Hlf.
    rewrite IH by discriminate. reflexivity.
Qed.

Lemma join_crlf_ascii (lines : list text) :
  Forall plain_line lines -> is_ascii (join_crlf lines).
Proof.
  induction 1 as [|line lines (Ha & _) Hl IH]; [constructor|].
  destruct lines as [|line2 lines]; [exact Ha|].
  change (join_crlf (line :: line2 :: lines))
    with (line ++ 0x0D :: 0x0A :: join_crlf (line2 :: lines)).
  apply Forall_app. split; [exact Ha|].
  constructor; [lia|]. constructor; [lia|]. exact IH.
Qed.

Lemma parse_content_length_lines (lines : list text) :
  Forall plain_line lines -> lines <> [] ->
  Smoke._parse_content_length (to_bytes (join_crlf lines))
  = Smoke.content_length_of_lines lines.
Proof.
  intros Hl Hne. unfold Smoke._parse_content_length.
  rewrite decode_utf8_replace_ascii by (apply join_crlf_ascii; exact Hl).
  rewrite split_joined_lines by assumption. reflexivity.
Qed.

Lemma content_length_skip (line : text) (lines : list text) :
  is_length_line line = false ->
  Smoke.content_length_of_lines (line :: lines) = Smoke.content_length_of_lines lines.
Proof.
  unfold is_length_line. intros H. cbn [Smoke.content_length_of_lines].
  destruct (contains line 0x3A); cbn [negb andb] in *; [|reflexivity].
  destruct (split_once line 0x3A) as [k v]. cbn [fst] in H. rewrite H. reflexivity.
Qed.

Lemma content_length_first (line : text) (lines : list text) :
  is_length_line line = true ->
  Smoke.content_length_of_lines (line :: lines) = Smoke.content_length_of_lines [line].
Proof.
  unfold is_length_line. intros H. cbn [Smoke.content_length_of_lines].
  destruct (contains line 0x3A); cbn [negb andb] in *; [|discriminate].
  destruct (split_once line 0x3A) as [k v]. cbn [fst] in H. rewrite H.
  destruct (negb (isdigit (strip v))); [reflexivity|].
  destruct (int (strip v)); reflexivity.
Qed.

(** X4.  The header name is matched in any mix of upper and lower case,
    and spaces and tabs around the name and around the number are ignored;
    the number may have leading zeros.  This holds for a number of at most
    4300 digits, leading zeros counted; with more digits the parser raises
    the [ValueError] of [int]. *)
Theorem header_line_is_read_leniently (name digits p0 p1 p2 p3 : text) :
  map ascii_lower name = u "content-length" ->
  is_digits digits -> digits <> [] ->
  blanks p0 -> blanks p1 -> blanks p2 -> blanks p3 ->
  Smoke._parse_content_length
    (to_bytes (p0 ++ name ++ p1 ++ [0x3A] ++ p2 ++ digits ++ p3))
  = if Z.of_nat (List.length digits) <=? int_max_str_digits
    then Ok (Some (digits_value digits))
    else Raise Smoke.ValueError.
Proof.
  intros Hname Hd Hne H0 H1 H2 H3.
  pose proof (content_length_spelling name Hname) as Hc.
  assert (Hna : is_ascii name).
  { eapply Forall_impl; [|exact Hc]. unfold name_char. cbv beta. intros; lia. }
  assert (Hnn : forall c, ~ name_char c -> ~ In c name).
  { intros c Hn Hin. apply Hn. exact (proj1 (Forall_forall _ _) Hc _ Hin). }
  assert (Hns : Forall (fun c => isspace_cp c = false) name).
  { eapply Forall_impl; [|exact Hc]. unfold name_char. cbv beta. intros c Hcc.
    rewrite isspace_ascii by lia. unfold ascii_isspace.
    apply orb_false_iff. split; apply andb_false_iff.
    - right. apply Z.leb_gt. lia.
    - right. apply Z.leb_gt. lia. }
  assert (Hdn : forall c, ~ (0x30 <= c <= 0x39) -> ~ In c digits).
  { intros c Hn. apply is_digits_not_in; assumption. }
  assert (Hin : forall c, c <> 0x20 -> c <> 0x09 -> ~ name_char c -> c <> 0x3A ->
                          ~ (0x30 <= c <= 0x39) ->
                          ~ In c (p0 ++ name ++ p1 ++ [0x3A] ++ p2 ++ digits ++ p3)).
  { intros c Ha Hb Hcn Hd' He Hin.
    repeat (apply in_app_or in Hin; destruct Hin as [Hin|Hin]);
      try (revert Hin; apply blanks_plain; assumption).
    - revert Hin. apply Hnn. exact Hcn.
    - destruct Hin as [Hin|[]]. congruence.
    - revert Hin. apply Hdn. exact He. }
  change (to_bytes (p0 ++ name ++ p1 ++ [0x3A] ++ p2 ++ digits ++ p3))
    with (to_bytes (join_crlf [p0 ++ name ++ p1 ++ [0x3A] ++ p2 ++ digits ++ p3])).
  rewrite parse_content_length_lines.
  2:{ constructor; [|constructor].
      split; [|split; apply Hin; unfold name_char; lia].
      apply Forall_app; split; [apply blanks_ascii; exact H0|].
      apply Forall_app; split; [exact Hna|].
      apply Forall_app; split; [apply blanks_ascii; exact H1|].
      apply Forall_app; split; [constructor; [lia|constructor]|].
      apply Forall_app; split; [apply blanks_ascii; exact H2|].
      apply Forall_app; split; [apply is_digits_ascii; exact Hd|].
      apply blanks_ascii; exact H3. }
  2: discriminate.
  cbn [Smoke.content_length_of_lines].
  replace (p0 ++ name ++ p1 ++ [0x3A] ++ p2 ++ digits ++ p3)
    with ((p0 ++ name ++ p1) ++ 0x3A :: (p2 ++ digits ++ p3))
    by (rewrite <- !app_assoc; reflexivity).
  rewrite contains_at. cbn [negb].
  rewrite split_once_at.
  2:{ intros Hi. repeat (apply in_app_or in Hi; destruct Hi as [Hi|Hi]);
      try (revert Hi; apply blanks_plain; (assumption || lia)).
      revert Hi. apply Hnn. unfold name_char. lia. }
  rewrite strip_padded by auto using blanks_space.
  rewrite lower_ascii_text by exact Hna. rewrite Hname.
  change (text_eqb (u "content-length") (u "content-length")) with true. cbv iota.
  rewrite strip_padded by auto using blanks_space, digits_no_space.
  rewrite isdigit_digits by assumption. cbn [negb].
  destruct (Z.leb_spec (Z.of_nat (List.length digits)) int_max_str_digits) as [Hs|Hs].
  - rewrite int_digits by assumption. reflexivity.
  - rewrite int_long by exact Hs. reflexivity.
Qed.

(** X5.  Only the first [Content-Length] line of a header counts.  The
    lines before it that are not [Content-Length] lines are passed over, and
    the lines after it are never looked at: the header is read as if it
    were that line alone, also when the value of that line is not a
    number. *)
Theorem first_length_line_decides (before after : list text) (line : text) :
  Forall plain_line (before ++ line :: after) ->
  Forall (fun l => is_length_line l = false) before ->
  is_length_line line = true ->
  Smoke._parse_content_length (to_bytes (join_crlf (before ++ line :: after)))
  = Smoke._parse_content_length (to_bytes line).
Proof.
  intros Hp Hb Hl.
  rewrite parse_content_length_lines by (assumption || (destruct before; discriminate)).
  change (to_bytes line) with (to_bytes (join_crlf [line])).
  rewrite parse_content_length_lines.
  2:{ constructor; [|constructor]. apply Forall_app in Hp. destruct Hp as [_ Hp].
      inversion Hp; assumption. }
  2: discriminate.
  clear Hp. induction Hb as [|l before Hlb _ IH].
  - cbn [app]. apply content_length_first. exact Hl.
  - cbn [app]. rewrite content_length_skip by exact Hlb. exact IH.
Qed.

End HeaderLines.


Lemma header_line_is_read_leniently_witness :
  Smoke._parse_content_length (U := Sample.unicode)
    (to_bytes ([0x20] ++ u "CONTENT-length" ++ [0x09] ++ [0x3A] ++ [0x20; 0x20]
                 ++ u "007" ++ [0x20]))
  = Ok (Some (digits_value (u "007"))).
Proof.
  apply (@header_line_is_read_leniently Sample.unicode (u "CONTENT-length") (u "007")
           [0x20] [0x09] [0x20; 0x20] [0x20]).
  - reflexivity.
  - repeat (constructor; [cbn; lia|]). constructor.
  - discriminate.
  - constructor; [left; reflexivity | constructor].
  - constructor; [right; reflexivity | constructor].
  - constructor; [left; reflexivity |]. constructor; [left; reflexivity | constructor].
  - constructor; [left; reflexivity | constructor].
Defined.

Lemma first_length_line_decides_witness :
  Smoke._parse_content_length (U := Sample.unicode)
    (to_bytes (join_crlf ([u "Content-Type: application/json"]
                            ++ u "Content-Length: abc" :: [u "Content-Length: 5"])))
  = Smoke._parse_content_length (U := Sample.unicode)
      (to_bytes (u "Content-Length: abc")).
Proof.
  apply (@first_length_line_decides Sample.unicode
           [u "Content-Type: application/json"] [u "Content-Length: 5"]
           (u "Content-Length: abc")).
  - repeat (constructor;
            [split; [apply is_ascii_check; reflexivity
                    |split; apply not_in_check; reflexivity]|]).
    constructor.
  - constructor; [vm_compute; reflexivity | constructor].
  - vm_compute. reflexivity.
Defined.


(* ================================================================== *)
(** * Further properties of the smoke-test client *)
(* ================================================================== *)

Section ClientEdges.
Context {U : UnicodeData} {J : JsonModule}.

Lemma to_bytes_below_128 (t : text) :
  is_ascii t -> Forall (fun x => byte_val x < 0x80) (to_bytes t).
Proof.
  intros H. unfold to_bytes. apply Forall_map.
  eapply Forall_impl; [|exact H]. cbv beta. intros c Hc.
  rewrite byte_val_of by lia. lia.
Qed.

(** X6.  [send] asks whether the server has exited before anything else:
    if it has, the error for that is raised whatever the message and the
    state of the pipe.  What [send] writes otherwise is one frame: the
    header line with the number of characters of the JSON text, a blank
    line written CR LF CR LF, and the JSON text; every byte of it is
    ASCII. *)
Theorem send_writes_one_ascii_frame (c : Smoke.client) (broken_pipe : bool)
  (message : value) :
  (forall code, Smoke.returncode c = Some code ->
     Smoke.send c broken_pipe message
     = Raise (Smoke.SmokeTestError (Smoke.ServerExitedBeforeSend code)))
  /\ (forall frame, Smoke.send c broken_pipe message = Ok frame ->
        Smoke.returncode c = None /\ broken_pipe = false
        /\ Forall (fun x => byte_val x < 0x80) frame
        /\ exists dumped,
             json_dumps message = Some dumped
             /\ frame = Smoke.header_line (Z.of_nat (List.length dumped))
                          ++ CRLFCRLF ++ to_bytes dumped).
Proof.
  split.
  - intros code Hc. unfold Smoke.send. rewrite Hc. reflexivity.
  - intros frame. unfold Smoke.send.
    destruct (Smoke.returncode c); [discriminate|].
    destruct (Smoke.encode message) as [frame'|] eqn:Ee; [|discriminate].
    destruct broken_pipe; [discriminate|].
    intros E. injection E as <-.
    apply encode_wire_frame in Ee. destruct Ee as (dumped & Hd & ->).
    pose proof (json_dumps_ascii _ _ Hd) as Ha.
    split; [reflexivity|]. split; [reflexivity|]. split.
    + unfold Smoke.wire_frame, Smoke.header_line.
      apply Forall_app. split.
      * apply to_bytes_below_128. apply header_text_ascii. apply len_nonneg.
      * apply Forall_app. split; [repeat constructor|].
        apply to_bytes_below_128. exact Ha.
    + exists dumped. split; [exact Hd|].
      unfold Smoke.wire_frame. rewrite len_to_bytes. reflexivity.
Qed.

Lemma try_parse_one_idle (buffer buffer' : bytes) :
  Smoke._try_parse_one buffer = (Ok None, buffer') -> buffer' = buffer.
Proof.
  intros E. destruct (try_parse_one_suffix _ _ _ E) as (taken & Hb & Hn & _).
  rewrite (Hn eq_refl) in Hb. symmetry. exact Hb.
Qed.

Ltac nothing_cut consumed :=
  exists consumed, (@nil byte); cbn;
  split; [reflexivity|];
  split; [try apply app_nil_r; try reflexivity|];
  split; [reflexivity|];
  split; [intros ? Habs; discriminate Habs
         |intros ? Habs Hcut;
          first [discriminate Habs | injection Habs as <-; discriminate Hcut]].

Lemma recv_loop_account (deadline : Z) (out : list Smoke.select_result) :
  forall (c c' : Smoke.client) (o : Smoke.outcome value),
    Smoke.recv_loop deadline out c = (o, c') ->
    exists consumed taken,
      out = consumed ++ Smoke.stdout c'
      /\ Smoke._buffer c ++ data_of consumed = taken ++ Smoke._buffer c'
      /\ (cuts_nothing o = true -> taken = [])
      /\ (forall msg, o = Smoke.Return msg ->
                      is_frame_of taken (Smoke._buffer c') (Ok (Some msg)))
      /\ (forall e, o = Smoke.Raises e -> cuts_frame (Raise e) = true ->
                    is_frame_of taken (Smoke._buffer c') (Raise e)).
Proof.
  assert (Hmsg : forall (c c' : Smoke.client) (o : Smoke.outcome value) msg buf
                        (out' : list Smoke.select_result),
             Smoke._try_parse_one (Smoke._buffer c) = (Ok (Some msg), buf) ->
             (Smoke.Return msg, Smoke.with_stdout (Smoke.with_buffer c buf) out')
             = (o, c') ->
             exists consumed taken,
               out' = consumed ++ Smoke.stdout c'
               /\ Smoke._buffer c ++ data_of consumed = taken ++ Smoke._buffer c'
               /\ (cuts_nothing o = true -> taken = [])
               /\ (forall m, o = Smoke.Return m ->
                             is_frame_of taken (Smoke._buffer c') (Ok (Some m)))
               /\ (forall e, o = Smoke.Raises e -> cuts_frame (Raise e) = true ->
                             is_frame_of taken (Smoke._buffer c') (Raise e))).
  { intros c c' o msg buf out' Ep E. inversion E; subst; clear E.
    destruct (try_parse_one_cut _ _ _ Ep eq_refl) as (taken & Hb & Hf).
    exists [], taken. cbn.
    split; [reflexivity|]. split; [rewrite app_nil_r; exact Hb|].
    split; [discriminate|]. split.
    - intros m Hm. injection Hm as <-. exact Hf.
    - intros e He. discriminate He. }
  assert (Hraise : forall (c c' : Smoke.client) (o : Smoke.outcome value) e buf
                          (out' : list Smoke.select_result),
             Smoke._try_parse_one (Smoke._buffer c) = (Raise e, buf) ->
             (Smoke.Raises e, Smoke.with_stdout (Smoke.with_buffer c buf) out')
             = (o, c') ->
             exists consumed taken,
               out' = consumed ++ Smoke.stdout c'
               /\ Smoke._buffer c ++ data_of consumed = taken ++ Smoke._buffer c'
               /\ (cuts_nothing o = true -> taken = [])
               /\ (forall m, o = Smoke.Return m ->
                             is_frame_of taken (Smoke._buffer c') (Ok (Some m)))
               /\ (forall e', o = Smoke.Raises e' -> cuts_frame (Raise e') = true ->
                              is_frame_of taken (Smoke._buffer c') (Raise e'))).
  { intros c c' o e buf out' Ep E. inversion E; subst; clear E.
    destruct (cuts_frame (Raise e)) eqn:Hcut.
    - destruct (try_parse_one_cut _ _ _ Ep Hcut) as (taken & Hb & Hf).
      exists [], taken. cbn [app data_of Smoke.stdout Smoke.with_stdout
                             Smoke._buffer Smoke.with_buffer cuts_nothing].
      split; [reflexivity|]. split; [rewrite app_nil_r; exact Hb|].
      split; [rewrite Hcut; discriminate|]. split.
      + intros m Hm. discriminate Hm.
      + intros e' He' _. injection He' as <-. exact Hf.
    - destruct (try_parse_one_suffix _ _ _ Ep) as (taken & Hb & Hn & _).
      rewrite (Hn Hcut) in Hb.
      exists [], []. cbn [app data_of Smoke.stdout Smoke.with_stdout
                          Smoke._buffer Smoke.with_buffer cuts_nothing].
      split; [reflexivity|]. split; [rewrite app_nil_r; exact Hb|].
      split; [reflexivity|]. split.
      + intros m Hm. discriminate Hm.
      + intros e' He' Hc'. injection He' as <-. rewrite Hcut in Hc'. discriminate Hc'. }
  induction out as [|answer out IH]; intros c c' o; cbn [Smoke.recv_loop];
    destruct (Smoke._try_parse_one (Smoke._buffer c)) as [r buf] eqn:Ep;
    destruct r as [[msg|]|e];
    try (apply (Hmsg c c' o msg buf); exact Ep);
    try (apply (Hraise c c' o e buf); exact Ep).
  - rewrite (try_parse_one_idle _ _ Ep).
    cbn [Smoke.clock Smoke.with_buffer].
    destruct (Smoke.clock c) as [|now later];
      [|cbn [Smoke.with_clock]; destruct (deadline - now <=? 0)];
      intros E; inversion E; subst; clear E; nothing_cut (@nil Smoke.select_result).
  - rewrite (try_parse_one_idle _ _ Ep).
    cbn [Smoke.clock Smoke.with_buffer].
    destruct (Smoke.clock c) as [|now later].
    { intros E; inversion E; subst; clear E. nothing_cut (@nil Smoke.select_result). }
    cbn [Smoke.with_clock]. destruct (deadline - now <=? 0).
    { intros E; inversion E; subst; clear E. nothing_cut (@nil Smoke.select_result). }
    destruct answer as [|[chunk|]].
    + intros E; inversion E; subst; clear E. nothing_cut [Smoke.NotReady].
    + destruct chunk as [|x chunk].
      * intros E; inversion E; subst; clear E.
        nothing_cut [Smoke.Ready (Smoke.Data [])].
      * intros E. apply IH in E.
        destruct E as (consumed & taken' & Ho & Hd & Hk & Hm & Hr).
        exists (Smoke.Ready (Smoke.Data (x :: chunk)) :: consumed), taken'.
        split; [rewrite Ho; reflexivity|].
        split; [|split; [exact Hk|split; assumption]].
        cbn [data_of]. cbn [Smoke._buffer Smoke.with_buffer] in Hd.
        rewrite <- Hd. rewrite <- app_assoc. reflexivity.
    + intros E. apply IH in E.
      destruct E as (consumed & taken' & Ho & Hd & Hk & Hm & Hr).
      exists (Smoke.Ready Smoke.WouldBlock :: consumed), taken'.
      split; [rewrite Ho; reflexivity|].
      split; [exact Hd|split; [exact Hk|split; assumption]].
Qed.

(** X7.  [recv_message] loses no byte.  The answers of the selector it
    has used up are a prefix of those it was given, and the buffer it
    leaves is the old buffer followed by the bytes that arrived, less what
    was cut from the front.  Nothing is cut when the call ends on a timeout,
    on a closed stdout, on an invalid header or on the [ValueError] of
    [int]: the bytes received so far are all still in the buffer.  When
    the call returns a message, or rejects a body, what is cut is exactly
    one frame, the first of the buffer: the header, its terminator and the
    body of the declared length from which the message was read; every
    byte behind that frame is still in the buffer. *)
Theorem recv_message_loses_no_byte (timeout_s : option Z) (c c' : Smoke.client)
  (o : Smoke.outcome value) :
  Smoke.recv_message timeout_s c = (o, c') ->
  exists consumed taken,
    Smoke.stdout c = consumed ++ Smoke.stdout c'
    /\ Smoke._buffer c ++ data_of consumed = taken ++ Smoke._buffer c'
    /\ (cuts_nothing o = true -> taken = [])
    /\ (forall msg, o = Smoke.Return msg ->
                    is_frame_of taken (Smoke._buffer c') (Ok (Some msg)))
    /\ (forall e, o = Smoke.Raises e -> cuts_frame (Raise e) = true ->
                  is_frame_of taken (Smoke._buffer c') (Raise e)).
Proof.
  unfold Smoke.recv_message. destruct (Smoke.clock c) as [|now later].
  - intros E; inversion E; subst; clear E. nothing_cut (@nil Smoke.select_result).
  - intros E. apply recv_loop_account in E. exact E.
Qed.

Lemma recv_loop_expired (deadline now : Z) (later : list Z)
  (out : list Smoke.select_result) (c : Smoke.client) :
  Smoke._try_parse_one (Smoke._buffer c) = (Ok None, Smoke._buffer c) ->
  Smoke.clock c = now :: later -> deadline <= now ->
  Smoke.recv_loop deadline out c
  = (Smoke.Raises (Smoke.SmokeTestError Smoke.TimedOutFrame),
     Smoke.with_stdout (Smoke.with_clock c later) out).
Proof.
  intros Hp Hc Hd.
  destruct out as [|answer out]; cbn [Smoke.recv_loop]; rewrite Hp;
    cbn [Smoke.clock Smoke.with_buffer]; rewrite Hc;
    (destruct (Z.leb_spec (deadline - now) 0); [reflexivity|lia]).
Qed.

Lemma recv_loop_raises (deadline : Z) (out : list Smoke.select_result)
  (c : Smoke.client) (e : Smoke.exn) (buffer' : bytes) :
  Smoke._try_parse_one (Smoke._buffer c) = (Raise e, buffer') ->
  Smoke.recv_loop deadline out c
  = (Smoke.Raises e, Smoke.with_stdout (Smoke.with_buffer c buffer') out).
Proof.
  intros Hp. destruct out; cbn [Smoke.recv_loop]; rewrite Hp; reflexivity.
Qed.

(** X8.  With a timeout that is zero or negative, on a clock that does
    not run backwards, [recv_message] makes one decode attempt on the
    buffer and never looks at the server's stdout.  What the attempt gives
    decides: a message is returned; an error of the decoder is raised, with
    the buffer as the decoder left it; and when the buffer holds no
    complete frame the call raises the frame timeout with the buffer as it
    was.  The answers of the selector are untouched in every case. *)
Theorem nonpositive_timeout_polls_the_buffer (timeout_s : Z) (c : Smoke.client)
  (t0 t1 : Z) (later : list Z) :
  timeout_s <= 0 -> Smoke.clock c = t0 :: t1 :: later -> t0 <= t1 ->
  Smoke.recv_message (Some timeout_s) c
  = match Smoke._try_parse_one (Smoke._buffer c) with
    | (Ok (Some msg), buffer') =>
      (Smoke.Return msg, Smoke.after c buffer' (t1 :: later))
    | (Ok None, buffer') =>
      (Smoke.Raises (Smoke.SmokeTestError Smoke.TimedOutFrame),
       Smoke.after c buffer' later)
    | (Raise e, buffer') =>
      (Smoke.Raises e, Smoke.after c buffer' (t1 :: later))
    end.
Proof.
  intros Ht Hc Hm. unfold Smoke.recv_message. rewrite Hc.
  destruct (Smoke._try_parse_one (Smoke._buffer c)) as [[[msg|]|e] buffer'] eqn:Ep.
  - rewrite (recv_loop_buffered _ _ _ msg buffer') by exact Ep. reflexivity.
  - pose proof (try_parse_one_idle _ _ Ep) as ->.
    rewrite (recv_loop_expired _ t1 later); [reflexivity|exact Ep|reflexivity|lia].
  - rewrite (recv_loop_raises _ _ _ e buffer') by exact Ep. reflexivity.
Qed.

Lemma response_loop_hit (fuel : nat) (request_id deadline : Z) (c : Smoke.client)
  (msg : value) (buffer' : bytes) (now now' : Z) (later : list Z) :
  Smoke.clock c = now :: now' :: later -> now < deadline ->
  Smoke._try_parse_one (Smoke._buffer c) = (Ok (Some msg), buffer') ->
  Smoke.answers msg request_id = true ->
  Smoke.response_loop (S fuel) request_id deadline c
  = (Smoke.Return msg, Smoke.after c buffer' later).
Proof.
  intros Hc Hlt Hp Ha. cbn [Smoke.response_loop]. rewrite Hc.
  destruct (Z.leb_spec (deadline - now) 0); [lia|].
  rewrite (recv_message_buffered _ _ now' later msg buffer'); [|reflexivity|exact Hp].
  rewrite Ha. reflexivity.
Qed.

Lemma response_loop_backlog (request_id deadline : Z) (response : value)
  (rest : bytes) (later : list Z) (unrelated : list value) :
  Forall (fun msg => Smoke.answers msg request_id = false) unrelated ->
  Smoke.answers response request_id = true ->
  forall (c : Smoke.client) (ts : list Z) (fuel : nat),
    decodes_in_turn (Smoke._buffer c) (unrelated ++ [response]) rest ->
    Smoke.clock c = ts ++ later ->
    List.length ts = (2 * S (List.length unrelated))%nat ->
    Forall (fun t => t < deadline) ts ->
    (List.length unrelated < fuel)%nat ->
    Smoke.response_loop fuel request_id deadline c
    = (Smoke.Return response, Smoke.after c rest later).
Proof.
  intros Hu Hr. induction Hu as [|msg unrelated Hm _ IH];
    intros c ts fuel Hd Hc Hl Ht Hf.
  - destruct Hd as (buffer' & Hp & ->).
    destruct ts as [|now [|now' [|? ?]]]; try discriminate Hl.
    destruct fuel as [|fuel]; [cbn in Hf; lia|].
    inversion Ht; subst.
    apply (response_loop_hit _ _ _ _ _ _ now now'); assumption.
  - destruct Hd as (buffer' & Hp & Hd).
    destruct ts as [|now [|now' ts]]; try discriminate Hl.
    destruct fuel as [|fuel]; [cbn in Hf; lia|].
    inversion Ht as [|? ? Hnow Ht']; subst. inversion Ht' as [|? ? _ Ht'']; subst.
    rewrite (response_loop_skip _ _ _ _ msg buffer' now now' (ts ++ later));
      [|exact Hc|exact Hnow|exact Hp|exact Hm].
    rewrite (IH (Smoke.after c buffer' (ts ++ later)) ts fuel);
      [reflexivity|exact Hd|reflexivity| |exact Ht''|cbn in Hf; lia].
    cbn [List.length] in Hl |- *. lia.
Qed.

(** X9.  When the buffer holds any number of messages that do not answer
    the request, then the response, then more bytes, [recv_response_for_id]
    returns the response without reading from the server; the messages in
    front of it are dropped and the bytes behind it stay in the buffer.
    It reads the clock twice for every message it takes. *)
Theorem response_found_behind_a_backlog (request_id timeout_s t0 : Z)
  (c : Smoke.client) (unrelated : list value) (response : value) (rest : bytes)
  (ts later : list Z) :
  Forall (fun msg => Smoke.answers msg request_id = false) unrelated ->
  Smoke.answers response request_id = true ->
  decodes_in_turn (Smoke._buffer c) (unrelated ++ [response]) rest ->
  Smoke.clock c = t0 :: ts ++ later ->
  List.length ts = (2 * S (List.length unrelated))%nat ->
  Forall (fun t => t < t0 + timeout_s) ts ->
  Smoke.recv_response_for_id request_id (Some timeout_s) c
  = (Smoke.Return response, Smoke.after c rest later).
Proof.
  intros Hu Hr Hd Hc Hl Ht. unfold Smoke.recv_response_for_id. rewrite Hc.
  rewrite (response_loop_backlog request_id (t0 + timeout_s) response rest later
             unrelated Hu Hr (Smoke.with_clock c (ts ++ later)) ts);
    [reflexivity|exact Hd|reflexivity|exact Hl|exact Ht|].
  rewrite length_app. lia.
Qed.

End ClientEdges.


Lemma recv_message_loses_no_byte_witness :
  exists consumed taken,
    Smoke.stdout Scenario.two_frames_client
    = consumed
        ++ Smoke.stdout
             (Smoke.with_stdout
                (Smoke.after Scenario.two_frames_client
                   (Scenario.frame_of Scenario.response_1) [2; 3; 4; 5]) [])
    /\ Smoke._buffer Scenario.two_frames_client ++ data_of consumed
       = taken
           ++ Smoke._buffer
                (Smoke.with_stdout
                   (Smoke.after Scenario.two_frames_client
                      (Scenario.frame_of Scenario.response_1) [2; 3; 4; 5]) [])
    /\ (cuts_nothing (Smoke.Return (VDict Scenario.notification)) = true -> taken = [])
    /\ (forall msg,
          Smoke.Return (VDict Scenario.notification) = Smoke.Return msg ->
          is_frame_of (U := Sample.unicode) (J := Sample.json) taken
            (Smoke._buffer
               (Smoke.with_stdout
                  (Smoke.after Scenario.two_frames_client
                     (Scenario.frame_of Scenario.response_1) [2; 3; 4; 5]) []))
            (Ok (Some msg)))
    /\ (forall e,
          Smoke.Return (VDict Scenario.notification) = Smoke.Raises e ->
          cuts_frame (Raise e) = true ->
          is_frame_of (U := Sample.unicode) (J := Sample.json) taken
            (Smoke._buffer
               (Smoke.with_stdout
                  (Smoke.after Scenario.two_frames_client
                     (Scenario.frame_of Scenario.response_1) [2; 3; 4; 5]) []))
            (Raise e)).
Proof.
  apply (@recv_message_loses_no_byte Sample.unicode Sample.json (Some 30)
           Scenario.two_frames_client).
  vm_compute. reflexivity.
Defined.

Lemma nonpositive_timeout_polls_the_buffer_witness :
  Smoke.recv_message (U := Sample.unicode) (J := Sample.json) (Some 0)
    Scenario.buffered_client
  = (Smoke.Return (VDict Scenario.response_1),
     Smoke.after Scenario.buffered_client [] [1; 2; 3; 4; 5])
  /\ Smoke.recv_message (U := Sample.unicode) (J := Sample.json) (Some 0)
       Scenario.two_frames_client
     = (Smoke.Raises (Smoke.SmokeTestError Smoke.TimedOutFrame),
        Smoke.after Scenario.two_frames_client [] [2; 3; 4; 5])
  /\ Smoke.recv_message (U := Sample.unicode) (J := Sample.json) (Some 0)
       Scenario.garbled_client
     = (Smoke.Raises (Smoke.SmokeTestError (Smoke.JsonDecodeFailed (b "{x"))),
        Smoke.after Scenario.garbled_client (b "tail") [1; 2; 3; 4; 5]).
Proof.
  split; [|split].
  - rewrite (@nonpositive_timeout_polls_the_buffer Sample.unicode Sample.json 0
               Scenario.buffered_client 0 1 [2; 3; 4; 5]);
      [vm_compute; reflexivity | lia | reflexivity | lia].
  - rewrite (@nonpositive_timeout_polls_the_buffer Sample.unicode Sample.json 0
               Scenario.two_frames_client 0 1 [2; 3; 4; 5]);
      [vm_compute; reflexivity | lia | reflexivity | lia].
  - rewrite (@nonpositive_timeout_polls_the_buffer Sample.unicode Sample.json 0
               Scenario.garbled_client 0 1 [2; 3; 4; 5]);
      [vm_compute; reflexivity | lia | reflexivity | lia].
Defined.

Lemma response_found_behind_a_backlog_witness :
  Smoke.recv_response_for_id (U := Sample.unicode) (J := Sample.json) 1 (Some 30)
    Scenario.backlog_client
  = (Smoke.Return (VDict Scenario.response_1),
     Smoke.after Scenario.backlog_client [] [5]).
Proof.
  apply (@response_found_behind_a_backlog Sample.unicode Sample.json 1 30 0
           Scenario.backlog_client [VDict Scenario.notification]
           (VDict Scenario.response_1) [] [1; 2; 3; 4] [5]).
  - constructor; [reflexivity | constructor].
  - reflexivity.
  - exists (Scenario.frame_of Scenario.response_1).
    split; [vm_compute; reflexivity|].
    exists []. split; [vm_compute; reflexivity | reflexivity].
  - reflexivity.
  - reflexivity.
  - repeat (constructor; [lia|]). constructor.
Defined.


(* ================================================================== *)
(** * Properties of the checks on responses *)
(* ================================================================== *)

Section Checks.

Lemma eq_str_iff (v : value) (s : text) : eq_str v s = true <-> v = VStr s.
Proof.
  destruct v; cbn [eq_str]; try (split; [discriminate | intros E; discriminate E]).
  rewrite text_eqb_eq. split; [intros ->; reflexivity | intros E; injection E as ->; reflexivity].
Qed.

Lemma tool_names_in (tools : list value) (v : value) :
  In v (SmokeChecks.tool_names tools)
  <-> exists tool, In (VDict tool) tools /\ v = get tool (u "name").
Proof.
  unfold SmokeChecks.tool_names. rewrite in_map_iff. split.
  - intros (t & <- & Ht). apply filter_In in Ht. destruct Ht as [Ht Hd].
    destruct t; try discriminate Hd. eexists. split; [exact Ht | reflexivity].
  - intros (tool & Ht & ->). exists (VDict tool). split; [reflexivity|].
    apply filter_In. split; [exact Ht | reflexivity].
Qed.

Lemma listed_iff (tools : list value) (name : text) :
  existsb (fun n => eq_str n name) (SmokeChecks.tool_names tools) = true
  <-> exists tool, In (VDict tool) tools /\ get tool (u "name") = VStr name.
Proof.
  rewrite existsb_exists. split.
  - intros (v & Hv & He). apply tool_names_in in Hv. destruct Hv as (tool & Ht & ->).
    apply eq_str_iff in He. eauto.
  - intros (tool & Ht & He). exists (VStr name). split.
    + apply tool_names_in. exists tool. split; [exact Ht | symmetry; exact He].
    + apply eq_str_iff. reflexivity.
Qed.

(** X10.  [_validate_initialize_response] accepts a response exactly when
    it has no [error] key, its [result] is an object whose
    [protocolVersion] is the string expected, and [serverInfo] is an object
    whose [name] is truthy; the name need not be a string. *)
Theorem initialize_response_accepted_iff (resp : list (text * value))
  (protocol_version : text) :
  SmokeChecks._validate_initialize_response resp protocol_version = Ok tt
  <-> has_key resp (u "error") = false
      /\ exists result info,
           get resp (u "result") = VDict result
           /\ get result (u "protocolVersion") = VStr protocol_version
           /\ get result (u "serverInfo") = VDict info
           /\ truthy (get info (u "name")) = true.
Proof.
  unfold SmokeChecks._validate_initialize_response. split.
  - destruct (has_key resp (u "error")); [discriminate|].
    destruct (get resp (u "result")) as [| | | | | |result] eqn:Er; try discriminate.
    destruct (eq_str (get result (u "protocolVersion")) protocol_version) eqn:Ev;
      cbn [negb]; [|discriminate].
    destruct (get result (u "serverInfo")) as [| | | | | |info] eqn:Ei;
      try discriminate.
    destruct (truthy (get info (u "name"))) eqn:Et; cbn [negb]; [|discriminate].
    intros _. split; [reflexivity|]. exists result, info.
    apply eq_str_iff in Ev. auto.
  - intros (He & result & info & Hr & Hv & Hi & Ht).
    rewrite He, Hr, Hv, Hi, Ht.
    rewrite (proj2 (eq_str_iff _ _) eq_refl). reflexivity.
Qed.

(** X11.  [_validate_tools_list] with a non-empty expected name returns a
    count exactly when the response has no [error] key, [result] is an
    object, [tools] is a list, no object in the list has a list or an object
    for its name, and some object in the list has the expected name.  The
    count is the length of the list, entries that are not objects
    included. *)
Theorem tools_list_accepted_iff (resp : list (text * value)) (name : text) (n : Z) :
  name <> [] ->
  (SmokeChecks._validate_tools_list resp (Some name) = Ok n
   <-> has_key resp (u "error") = false
       /\ exists result tools,
            get resp (u "result") = VDict result
            /\ get result (u "tools") = VList tools
            /\ n = Z.of_nat (List.length tools)
            /\ forallb hashable (SmokeChecks.tool_names tools) = true
            /\ exists tool, In (VDict tool) tools
                            /\ get tool (u "name") = VStr name).
Proof.
  intros Hne. destruct name as [|ch name]; [congruence|]. clear Hne.
  unfold SmokeChecks._validate_tools_list. cbn [SmokeChecks.given]. split.
  - destruct (has_key resp (u "error")); [discriminate|].
    destruct (get resp (u "result")) as [| | | | | |result] eqn:Er; try discriminate.
    destruct (get result (u "tools")) as [| | | | |tools|] eqn:Et; try discriminate.
    destruct (forallb hashable (SmokeChecks.tool_names tools)) eqn:Eh;
      cbn [negb]; [|discriminate].
    destruct (existsb _ (SmokeChecks.tool_names tools)) eqn:El; cbn [negb].
    + intros E. injection E as <-. split; [reflexivity|].
      exists result, tools. split; [reflexivity|]. split; [exact Et|].
      split; [reflexivity|]. split; [exact Eh|].
      apply listed_iff. exact El.
    + destruct (sortable _); discriminate.
  - intros (He & result & tools & Hr & Ht & -> & Hh & Hl).
    rewrite He, Hr, Ht, Hh. cbn [negb].
    rewrite (proj2 (listed_iff tools (ch :: name)) Hl). reflexivity.
Qed.

(** X12.  One tool whose [name] is a list or an object makes
    [_validate_tools_list] raise [TypeError] as soon as a tool is expected,
    even when the expected tool is in the list: the set of names cannot be
    built.  This is not the script's own error class. *)
Theorem unhashable_tool_name_raises_TypeError (resp result : list (text * value))
  (tools : list value) (tool : list (text * value)) (name : text) :
  has_key resp (u "error") = false ->
  get resp (u "result") = VDict result ->
  get result (u "tools") = VList tools ->
  In (VDict tool) tools -> hashable (get tool (u "name")) = false ->
  name <> [] ->
  SmokeChecks._validate_tools_list resp (Some name) = Raise SmokeChecks.TypeError.
Proof.
  intros He Hr Ht Hin Hh Hne. destruct name as [|ch name]; [congruence|].
  unfold SmokeChecks._validate_tools_list. cbn [SmokeChecks.given].
  rewrite He, Hr, Ht.
  assert (E : forallb hashable (SmokeChecks.tool_names tools) = false).
  { destruct (forallb hashable (SmokeChecks.tool_names tools)) eqn:E; [|reflexivity].
    rewrite forallb_forall in E.
    rewrite E in Hh; [discriminate|].
    apply tool_names_in. exists tool. split; [exact Hin | reflexivity]. }
  rewrite E. reflexivity.
Qed.

Lemma existsb_mapped (A B : Type) (f : B -> bool) (g : A -> B) (l : list A) :
  existsb f (map g l) = existsb (fun x => f (g x)) l.
Proof.
  induction l as [|x l IH]; [reflexivity|]. cbn [map existsb]. rewrite IH. reflexivity.
Qed.

Lemma sortable_strings (names : list value) :
  Forall (fun v => is_str v = true) names -> sortable (filter truthy names) = true.
Proof.
  intros H. unfold sortable. apply orb_true_iff. left.
  apply forallb_forall. intros v Hv. apply filter_In in Hv.
  exact (proj1 (Forall_forall _ _) H v (proj1 Hv)).
Qed.

(** X13.  On a list in which every tool is an object with a string for
    its name the check raises nothing but the script's own error: it
    returns the length of the list when the expected name is listed, and
    reports the expected tool as not found when it is not. *)
Theorem tools_with_string_names (resp result : list (text * value))
  (tools : list value) (name : text) :
  has_key resp (u "error") = false ->
  get resp (u "result") = VDict result ->
  get result (u "tools") = VList tools ->
  Forall (fun t => exists tool s, t = VDict tool /\ get tool (u "name") = VStr s) tools ->
  name <> [] ->
  SmokeChecks._validate_tools_list resp (Some name)
  = if existsb (fun t => eq_str (dict_get t (u "name")) name) tools
    then Ok (Z.of_nat (List.length tools))
    else Raise (SmokeChecks.SmokeTestError (SmokeChecks.ExpectedToolNotFound name)).
Proof.
  intros He Hr Ht Hs Hne. destruct name as [|ch name]; [congruence|].
  unfold SmokeChecks._validate_tools_list. cbn [SmokeChecks.given].
  rewrite He, Hr, Ht.
  assert (Hf : filter is_dict tools = tools).
  { clear Ht. induction Hs as [|t tools (tool & s & -> & _) _ IH]; [reflexivity|].
    cbn [filter is_dict]. rewrite IH. reflexivity. }
  assert (Hn : Forall (fun v => is_str v = true) (SmokeChecks.tool_names tools)).
  { unfold SmokeChecks.tool_names. rewrite Hf. apply Forall_map.
    eapply Forall_impl; [|exact Hs]. cbv beta.
    intros t (tool & s & -> & E). cbn [dict_get]. unfold get in E.
    destruct (lookup tool (u "name")); rewrite E; reflexivity. }
  assert (Hh : forallb hashable (SmokeChecks.tool_names tools) = true).
  { apply forallb_forall. intros v Hv.
    pose proof (proj1 (Forall_forall _ _) Hn v Hv) as Hv'.
    destruct v; try discriminate Hv'. reflexivity. }
  rewrite Hh. cbn [negb].
  unfold SmokeChecks.tool_names at 1. rewrite Hf.
  rewrite existsb_mapped.
  destruct (existsb _ tools); cbn [negb]; [reflexivity|].
  rewrite sortable_strings by exact Hn. reflexivity.
Qed.

(** X14.  [_validate_resources_list] returns a count exactly when the
    response has no [error] key, [result] is an object and [resources] is a
    list; the count is the length of the list, whatever its entries. *)
Theorem resources_list_accepted_iff (resp : list (text * value)) (n : Z) :
  SmokeChecks._validate_resources_list resp = Ok n
  <-> has_key resp (u "error") = false
      /\ exists result resources,
           get resp (u "result") = VDict result
           /\ get result (u "resources") = VList resources
           /\ n = Z.of_nat (List.length resources).
Proof.
  unfold SmokeChecks._validate_resources_list. split.
  - destruct (has_key resp (u "error")); [discriminate|].
    destruct (get resp (u "result")) as [| | | | | |result] eqn:Er; try discriminate.
    destruct (get result (u "resources")) as [| | | | |resources|] eqn:El;
      try discriminate.
    intros E. injection E as <-. split; [reflexivity|].
    exists result, resources. auto.
  - intros (He & result & resources & Hr & Hl & ->).
    rewrite He, Hr, Hl. reflexivity.
Qed.

End Checks.

Section ExpectedTool.
Context {U : UnicodeData}.

(** X15.  An expected tool name made of blanks only, as [main] passes it
    on, switches the search for the tool off: the tools list is accepted
    with its length whatever the names in it, those that cannot be put in
    a set included. *)
Theorem blank_expected_tool_is_no_expectation (resp result : list (text * value))
  (tools : list value) (name : text) :
  strip name = [] ->
  has_key resp (u "error") = false ->
  get resp (u "result") = VDict result ->
  get result (u "tools") = VList tools ->
  SmokeChecks._validate_tools_list resp
    (SmokeChecks.normalize_expected_tool (Some name))
  = Ok (Z.of_nat (List.length tools)).
Proof.
  intros Hs He Hr Ht. unfold SmokeChecks.normalize_expected_tool. rewrite Hs.
  unfold SmokeChecks._validate_tools_list. cbn [SmokeChecks.given].
  rewrite He, Hr, Ht. reflexivity.
Qed.

End ExpectedTool.


Lemma tools_list_accepted_iff_witness :
  SmokeChecks._validate_tools_list Scenario.tools_response (Some (u "store_node")) = Ok 2
  <-> has_key Scenario.tools_response (u "error") = false
      /\ exists result tools,
           get Scenario.tools_response (u "result") = VDict result
           /\ get result (u "tools") = VList tools
           /\ 2 = Z.of_nat (List.length tools)
           /\ forallb hashable (SmokeChecks.tool_names tools) = true
           /\ exists tool, In (VDict tool) tools
                           /\ get tool (u "name") = VStr (u "store_node").
Proof.
  apply (tools_list_accepted_iff Scenario.tools_response (u "store_node") 2).
  discriminate.
Defined.

Lemma unhashable_tool_name_raises_TypeError_witness :
  SmokeChecks._validate_tools_list Scenario.odd_tools_response (Some (u "store_node"))
  = Raise SmokeChecks.TypeError.
Proof.
  apply (unhashable_tool_name_raises_TypeError Scenario.odd_tools_response
           Scenario.odd_tools_result
           [VDict Scenario.store_node_tool; VDict Scenario.odd_tool]
           Scenario.odd_tool (u "store_node")).
  - reflexivity.
  - reflexivity.
  - reflexivity.
  - right. left. reflexivity.
  - reflexivity.
  - discriminate.
Defined.

Lemma tools_with_string_names_witness :
  SmokeChecks._validate_tools_list Scenario.tools_response (Some (u "delete_node"))
  = if existsb (fun t => eq_str (dict_get t (u "name")) (u "delete_node"))
         [VDict Scenario.store_node_tool; VDict [(u "name", VStr (u "retrieve_context"))]]
    then Ok (Z.of_nat (List.length
                         [VDict Scenario.store_node_tool;
                          VDict [(u "name", VStr (u "retrieve_context"))]]))
    else Raise (SmokeChecks.SmokeTestError
                  (SmokeChecks.ExpectedToolNotFound (u "delete_node"))).
Proof.
  apply (tools_with_string_names Scenario.tools_response Scenario.tools_result
           [VDict Scenario.store_node_tool; VDict [(u "name", VStr (u "retrieve_context"))]]
           (u "delete_node")).
  - reflexivity.
  - reflexivity.
  - reflexivity.
  - constructor; [eexists; eexists; split; reflexivity|].
    constructor; [eexists; eexists; split; reflexivity|]. constructor.
  - discriminate.
Defined.

Lemma blank_expected_tool_is_no_expectation_witness :
  SmokeChecks._validate_tools_list Scenario.odd_tools_response
    (SmokeChecks.normalize_expected_tool (U := Sample.unicode) (Some (u "  ")))
  = Ok (Z.of_nat (List.length [VDict Scenario.store_node_tool; VDict Scenario.odd_tool])).
Proof.
  apply (@blank_expected_tool_is_no_expectation Sample.unicode
           Scenario.odd_tools_response Scenario.odd_tools_result
           [VDict Scenario.store_node_tool; VDict Scenario.odd_tool] (u "  ")).
  - reflexivity.
  - reflexivity.
  - reflexivity.
  - reflexivity.
Defined.


(* ================================================================== *)
(** * Properties of the reading of tool payloads *)
(* ================================================================== *)

Section ToolPayloads.
Context {U : UnicodeData} {J : JsonModule}.

Lemma first_dict_under_dict (keys : list text) (item : list (text * value)) (p : value) :
  E2EClient.first_dict_under keys item = Some p -> is_dict p = true.
Proof.
  induction keys as [|key keys IH]; cbn [E2EClient.first_dict_under]; [discriminate|].
  destruct (get item key); try exact IH.
  intros E. injection E as <-. reflexivity.
Qed.

Lemma payload_of_item_dict (item : list (text * value)) (p : value) :
  E2EClient.payload_of_item item = Some p -> is_dict p = true.
Proof.
  unfold E2EClient.payload_of_item.
  destruct (get item (u "text")) as [| | | |text| |]; try apply first_dict_under_dict.
  destruct (strip text); [apply first_dict_under_dict|].
  destruct (json_loads text) as [[| | | | | |d]|]; try apply first_dict_under_dict.
  intros E. injection E as <-. reflexivity.
Qed.

Lemma payload_of_content_dict (content : list value) (p : value) :
  E2EClient.payload_of_content content = Ok p -> is_dict p = true.
Proof.
  induction content as [|v content IH]; cbn [E2EClient.payload_of_content];
    [discriminate|].
  destruct v; try exact IH.
  destruct (E2EClient.payload_of_item items) as [q|] eqn:E; [|exact IH].
  intros E'. injection E' as <-. eapply payload_of_item_dict. exact E.
Qed.

(** X16.  Whatever the server answered, what [_extract_tool_payload]
    returns is an object: a text that is JSON but not an object, and
    values under [json], [structured] or [data] that are not objects, are
    never handed to the caller. *)
Theorem tool_payload_is_an_object (tool_call_resp : list (text * value))
  (payload : value) :
  E2EClient._extract_tool_payload tool_call_resp = Ok payload ->
  is_dict payload = true.
Proof.
  unfold E2EClient._extract_tool_payload.
  destruct (has_key tool_call_resp (u "error")); [discriminate|].
  destruct (get tool_call_resp (u "result")) as [| | | | | |result]; try discriminate.
  destruct (get result (u "structuredContent")) as [| | | | | |structured];
    try (intros E; injection E as <-; reflexivity);
    (destruct (get result (u "content")) as [| | | | |[|item content]|];
     try (intros E; injection E as <-; reflexivity);
     apply payload_of_content_dict).
Qed.

(** X17.  A payload sent the standard way comes back: when the result
    has no [structuredContent] object and the first item of [content] is an
    object whose [text] is the JSON text of an object, that object is
    returned, whatever else the item and the items behind it hold. *)
Theorem text_payload_round_trip (tool_call_resp result item : list (text * value))
  (content : list value) (payload : list (text * value)) (dumped : text) :
  has_key tool_call_resp (u "error") = false ->
  get tool_call_resp (u "result") = VDict result ->
  is_dict (get result (u "structuredContent")) = false ->
  get result (u "content") = VList (VDict item :: content) ->
  get item (u "text") = VStr dumped ->
  json_dumps (VDict payload) = Some dumped ->
  json_loads dumped = Some (VDict payload) ->
  strip dumped <> [] ->
  E2EClient._extract_tool_payload tool_call_resp = Ok (VDict payload).
Proof.
  intros He Hr Hs Hc Ht _ Hl Hn. unfold E2EClient._extract_tool_payload.
  rewrite He, Hr.
  destruct (get result (u "structuredContent")); try discriminate Hs;
    rewrite Hc; cbn [E2EClient.payload_of_content];
    unfold E2EClient.payload_of_item; rewrite Ht;
    (destruct (strip dumped); [congruence|]); rewrite Hl; reflexivity.
Qed.

Lemma payload_of_content_none (content : list value) :
  Forall (fun v => is_dict v = false) content ->
  E2EClient.payload_of_content content
  = Raise (E2EClient.E2EError E2EClient.PayloadUnsupportedShape).
Proof.
  induction 1 as [|v content Hv _ IH]; [reflexivity|].
  cbn [E2EClient.payload_of_content]. destruct v; try exact IH. discriminate Hv.
Qed.

(** X18.  An absent or empty [content] and a [content] with nothing
    usable in it are told apart.  When the result has no
    [structuredContent] object, a [content] that is missing, not a list or
    the empty list gives the empty object; a non-empty list none of whose
    entries is an object raises the unsupported-shape error. *)
Theorem empty_content_is_normalised (tool_call_resp result : list (text * value)) :
  has_key tool_call_resp (u "error") = false ->
  get tool_call_resp (u "result") = VDict result ->
  is_dict (get result (u "structuredContent")) = false ->
  ((forall item content, get result (u "content") <> VList (item :: content)) ->
   E2EClient._extract_tool_payload tool_call_resp = Ok (VDict []))
  /\ (forall item content,
        get result (u "content") = VList (item :: content) ->
        Forall (fun v => is_dict v = false) (item :: content) ->
        E2EClient._extract_tool_payload tool_call_resp
        = Raise (E2EClient.E2EError E2EClient.PayloadUnsupportedShape)).
Proof.
  intros He Hr Hs. unfold E2EClient._extract_tool_payload. rewrite He, Hr. split.
  - intros Hc.
    destruct (get result (u "structuredContent")); try discriminate Hs;
      (destruct (get result (u "content")) as [| | | | |[|item content]|];
       try reflexivity; exfalso; eapply Hc; reflexivity).
  - intros item content Hc Hf.
    destruct (get result (u "structuredContent")); try discriminate Hs;
      rewrite Hc; apply payload_of_content_none; exact Hf.
Qed.

End ToolPayloads.

(* ================================================================== *)
(** * Properties of the stderr pump *)
(* ================================================================== *)

Section Pump.

Lemma nonempty_line (raw : bytes) (pipe : list SmokeChecks.readline_result)
  (tee : bool) (w : list (option text)) (st : SmokeChecks.pump_state) :
  raw <> [] ->
  SmokeChecks._pump_stderr (SmokeChecks.Line raw :: pipe) false w st
  = SmokeChecks._pump_stderr pipe false w
      {| SmokeChecks.sink := SmokeChecks.sink st ++ [decode_utf8_replace raw];
         SmokeChecks.mirrored := SmokeChecks.mirrored st |}.
Proof.
  destruct raw as [|x raw]; [congruence|]. reflexivity.
Qed.

Lemma pump_lines (raws : list bytes) (rest : list SmokeChecks.readline_result)
  (w : list (option text)) :
  Forall (fun raw => raw <> []) raws ->
  forall st,
    SmokeChecks._pump_stderr (map SmokeChecks.Line raws ++ rest) false w st
    = SmokeChecks._pump_stderr rest false w
        {| SmokeChecks.sink := SmokeChecks.sink st ++ map decode_utf8_replace raws;
           SmokeChecks.mirrored := SmokeChecks.mirrored st |}.
Proof.
  induction 1 as [|raw raws Hr _ IH]; intros st.
  - cbn [map app]. rewrite app_nil_r. destruct st; reflexivity.
  - cbn [map app]. rewrite (nonempty_line raw _ false) by exact Hr.
    rewrite IH. cbn [SmokeChecks.sink SmokeChecks.mirrored].
    rewrite <- app_assoc. reflexivity.
Qed.

(** X19.  Without mirroring, the pump appends to the sink the lines it
    reads, in order, each decoded leniently from UTF-8, up to the first
    empty read; what the pipe would give after that is never read, and
    nothing is mirrored to the script's own stderr. *)
Theorem pump_collects_lines_up_to_eof (raws : list bytes)
  (more : list SmokeChecks.readline_result) (w : list (option text))
  (st : SmokeChecks.pump_state) :
  Forall (fun raw => raw <> []) raws ->
  SmokeChecks._pump_stderr (map SmokeChecks.Line raws ++ SmokeChecks.Line [] :: more)
    false w st
  = {| SmokeChecks.sink := SmokeChecks.sink st ++ map decode_utf8_replace raws;
       SmokeChecks.mirrored := SmokeChecks.mirrored st |}
  /\ SmokeChecks._pump_stderr (map SmokeChecks.Line raws) false w st
     = {| SmokeChecks.sink := SmokeChecks.sink st ++ map decode_utf8_replace raws;
          SmokeChecks.mirrored := SmokeChecks.mirrored st |}.
Proof.
  intros Hr. split.
  - rewrite pump_lines by exact Hr. reflexivity.
  - rewrite <- (app_nil_r (map SmokeChecks.Line raws)).
    rewrite pump_lines by exact Hr. reflexivity.
Qed.

Lemma pump_lines_tee (raws : list bytes) (rest : list SmokeChecks.readline_result) :
  Forall (fun raw => raw <> []) raws ->
  forall (w : list (option text)) (st : SmokeChecks.pump_state),
    Forall (fun x => x = None) (firstn (List.length raws) w) ->
    SmokeChecks._pump_stderr (map SmokeChecks.Line raws ++ rest) true w st
    = SmokeChecks._pump_stderr rest true (skipn (List.length raws) w)
        {| SmokeChecks.sink := SmokeChecks.sink st ++ map decode_utf8_replace raws;
           SmokeChecks.mirrored :=
             SmokeChecks.mirrored st ++ map decode_utf8_replace raws |}.
Proof.
  induction 1 as [|raw raws Hr _ IH]; intros w st Hw.
  - cbn [map app List.length skipn]. rewrite !app_nil_r. destruct st; reflexivity.
  - destruct raw as [|x raw]; [congruence|].
    cbn [map app SmokeChecks._pump_stderr List.length].
    destruct w as [|[why|] w].
    + rewrite IH by (rewrite firstn_nil; constructor).
      cbn [SmokeChecks.sink SmokeChecks.mirrored]. rewrite !skipn_nil.
      rewrite <- !app_assoc. reflexivity.
    + cbn [firstn List.length] in Hw. inversion Hw as [|? ? Habs _]. discriminate Habs.
    + cbn [firstn List.length] in Hw. inversion Hw as [|? ? _ Hw']; subst.
      rewrite IH by exact Hw'.
      cbn [SmokeChecks.sink SmokeChecks.mirrored skipn].
      rewrite <- !app_assoc. reflexivity.
Qed.

(** X20.  A failure inside the pump is reported in the sink and not
    raised, with mirroring on or off.  When reading the pipe fails, the
    lines read before the failure stay in the sink (and, with mirroring on,
    have been shown), one line that reports the failure is appended behind
    them, and the pipe is not read again.  When writing a line to the
    script's own stderr fails, that line is in the sink already, the line
    that reports the failure is appended behind it, and the pump stops. *)
Theorem pump_reports_a_failure (raws : list bytes) (raw : bytes) (why : text)
  (more : list SmokeChecks.readline_result) (tee : bool)
  (w rest_w : list (option text)) (st : SmokeChecks.pump_state) :
  Forall (fun chunk => chunk <> []) raws -> raw <> [] ->
  (tee = true -> Forall (fun x => x = None) (firstn (List.length raws) w)) ->
  SmokeChecks._pump_stderr
    (map SmokeChecks.Line raws ++ SmokeChecks.ReadlineRaises why :: more) tee w st
  = {| SmokeChecks.sink :=
         SmokeChecks.sink st ++ map decode_utf8_replace raws
           ++ [SmokeChecks.pump_error why];
       SmokeChecks.mirrored :=
         if tee then SmokeChecks.mirrored st ++ map decode_utf8_replace raws
         else SmokeChecks.mirrored st |}
  /\ SmokeChecks._pump_stderr
       (map SmokeChecks.Line raws ++ SmokeChecks.Line raw :: more) true
       (repeat None (List.length raws) ++ Some why :: rest_w) st
     = {| SmokeChecks.sink :=
            SmokeChecks.sink st ++ map decode_utf8_replace raws
              ++ [decode_utf8_replace raw; SmokeChecks.pump_error why];
          SmokeChecks.mirrored :=
            SmokeChecks.mirrored st ++ map decode_utf8_replace raws |}.
Proof.
  intros Hr Hraw Hw. split.
  - destruct tee.
    + rewrite pump_lines_tee by auto.
      cbn [SmokeChecks._pump_stderr SmokeChecks.sink SmokeChecks.mirrored].
      rewrite <- app_assoc. reflexivity.
    + rewrite pump_lines by exact Hr.
      cbn [SmokeChecks._pump_stderr SmokeChecks.sink SmokeChecks.mirrored].
      rewrite <- app_assoc. reflexivity.
  - rewrite pump_lines_tee.
    + rewrite skipn_app, skipn_all2 by (rewrite repeat_length; lia).
      rewrite repeat_length, Nat.sub_diag. cbn [app skipn].
      destruct raw as [|x raw]; [congruence|].
      cbn [SmokeChecks._pump_stderr SmokeChecks.sink SmokeChecks.mirrored].
      rewrite <- !app_assoc. reflexivity.
    + exact Hr.
    + rewrite firstn_app, repeat_length, Nat.sub_diag. cbn [firstn].
      rewrite app_nil_r. rewrite firstn_all2 by (rewrite repeat_length; lia).
      apply Forall_forall. intros x Hx. apply repeat_spec in Hx. exact Hx.
Qed.

(** X21.  The pump only ever appends.  Whatever the pipe gives and
    whether or not writing to the script's own stderr fails, the lines that
    were in the sink stay in front in their order, and every line shown on
    stderr was put in the sink first: the lines shown are a prefix of the
    lines added.  Nothing is shown when mirroring is off. *)
Theorem pump_only_appends (pipe : list SmokeChecks.readline_result) (tee : bool) :
  forall (w : list (option text)) (st : SmokeChecks.pump_state),
  exists added shown,
    SmokeChecks.sink (SmokeChecks._pump_stderr pipe tee w st)
    = SmokeChecks.sink st ++ added
    /\ SmokeChecks.mirrored (SmokeChecks._pump_stderr pipe tee w st)
       = SmokeChecks.mirrored st ++ shown
    /\ (exists tail, added = shown ++ tail)
    /\ (tee = false -> shown = []).
Proof.
  induction pipe as [|answer pipe IH]; intros w st.
  - exists [], []. cbn. rewrite !app_nil_r. repeat split. exists []. reflexivity.
  - destruct answer as [raw|why].
    + destruct raw as [|x raw].
      * exists [], []. cbn. rewrite !app_nil_r. repeat split. exists []. reflexivity.
      * cbn [SmokeChecks._pump_stderr]. destruct tee.
        -- destruct w as [|[why|] w].
           ++ destruct (IH []
                 {| SmokeChecks.sink := SmokeChecks.sink st ++ [decode_utf8_replace (x :: raw)];
                    SmokeChecks.mirrored :=
                      SmokeChecks.mirrored st ++ [decode_utf8_replace (x :: raw)] |})
                as (added & shown & Hs & Hm & (tail & Ht) & _).
              cbn [SmokeChecks.sink SmokeChecks.mirrored] in *.
              exists (decode_utf8_replace (x :: raw) :: added),
                     (decode_utf8_replace (x :: raw) :: shown).
              rewrite Hs, Hm, <- !app_assoc. repeat split.
              ** exists tail. rewrite Ht. reflexivity.
              ** discriminate.
           ++ cbn [SmokeChecks.sink SmokeChecks.mirrored].
              exists [decode_utf8_replace (x :: raw); SmokeChecks.pump_error why], [].
              rewrite <- app_assoc, app_nil_r. repeat split.
              ** eexists. reflexivity.
           ++ destruct (IH w
                 {| SmokeChecks.sink := SmokeChecks.sink st ++ [decode_utf8_replace (x :: raw)];
                    SmokeChecks.mirrored :=
                      SmokeChecks.mirrored st ++ [decode_utf8_replace (x :: raw)] |})
                as (added & shown & Hs & Hm & (tail & Ht) & _).
              cbn [SmokeChecks.sink SmokeChecks.mirrored] in *.
              exists (decode_utf8_replace (x :: raw) :: added),
                     (decode_utf8_replace (x :: raw) :: shown).
              rewrite Hs, Hm, <- !app_assoc. repeat split.
              ** exists tail. rewrite Ht. reflexivity.
              ** discriminate.
        -- destruct (IH w
                 {| SmokeChecks.sink := SmokeChecks.sink st ++ [decode_utf8_replace (x :: raw)];
                    SmokeChecks.mirrored := SmokeChecks.mirrored st |})
             as (added & shown & Hs & Hm & (tail & Ht) & Hf).
           cbn [SmokeChecks.sink SmokeChecks.mirrored] in *.
           rewrite (Hf eq_refl) in *.
           exists (decode_utf8_replace (x :: raw) :: added), [].
           rewrite Hs, Hm, <- !app_assoc. repeat split.
           eexists. reflexivity.
    + cbn [SmokeChecks._pump_stderr SmokeChecks.sink SmokeChecks.mirrored].
      exists [SmokeChecks.pump_error why], []. rewrite app_nil_r. repeat split.
      eexists. reflexivity.
Qed.

End Pump.


Lemma tool_payload_is_an_object_witness :
  is_dict (VDict Scenario.tool_payload) = true.
Proof.
  apply (@tool_payload_is_an_object Sample.unicode Sample.json
           Scenario.tool_call_response (VDict Scenario.tool_payload)).
  vm_compute. reflexivity.
Defined.

Lemma text_payload_round_trip_witness :
  E2EClient._extract_tool_payload (U := Sample.unicode) (J := Sample.json)
    Scenario.tool_call_response
  = Ok (VDict Scenario.tool_payload).
Proof.
  apply (@text_payload_round_trip Sample.unicode Sample.json
           Scenario.tool_call_response Scenario.tool_call_result Scenario.text_item
           [] Scenario.tool_payload Scenario.tool_payload_text).
  - reflexivity.
  - reflexivity.
  - reflexivity.
  - reflexivity.
  - reflexivity.
  - vm_compute. reflexivity.
  - vm_compute. reflexivity.
  - vm_compute. discriminate.
Defined.

Lemma empty_content_is_normalised_witness :
  ((forall item content,
      get Scenario.bare_string_result (u "content") <> VList (item :: content)) ->
   E2EClient._extract_tool_payload (U := Sample.unicode) (J := Sample.json)
     Scenario.bare_string_response = Ok (VDict []))
  /\ (forall item content,
        get Scenario.bare_string_result (u "content") = VList (item :: content) ->
        Forall (fun v => is_dict v = false) (item :: content) ->
        E2EClient._extract_tool_payload (U := Sample.unicode) (J := Sample.json)
          Scenario.bare_string_response
        = Raise (E2EClient.E2EError E2EClient.PayloadUnsupportedShape)).
Proof.
  apply (@empty_content_is_normalised Sample.unicode Sample.json
           Scenario.bare_string_response Scenario.bare_string_result).
  - reflexivity.
  - reflexivity.
  - reflexivity.
Defined.

Lemma pump_collects_lines_up_to_eof_witness :
  SmokeChecks._pump_stderr
    (map SmokeChecks.Line Scenario.stderr_lines
       ++ SmokeChecks.Line [] :: [SmokeChecks.Line (b "late")])
    false [] Scenario.empty_pump
  = {| SmokeChecks.sink :=
         SmokeChecks.sink Scenario.empty_pump
           ++ map decode_utf8_replace Scenario.stderr_lines;
       SmokeChecks.mirrored := SmokeChecks.mirrored Scenario.empty_pump |}
  /\ SmokeChecks._pump_stderr (map SmokeChecks.Line Scenario.stderr_lines)
       false [] Scenario.empty_pump
     = {| SmokeChecks.sink :=
            SmokeChecks.sink Scenario.empty_pump
              ++ map decode_utf8_replace Scenario.stderr_lines;
          SmokeChecks.mirrored := SmokeChecks.mirrored Scenario.empty_pump |}.
Proof.
  apply (pump_collects_lines_up_to_eof Scenario.stderr_lines
           [SmokeChecks.Line (b "late")] [] Scenario.empty_pump).
  constructor; [discriminate|]. constructor; [discriminate|]. constructor.
Defined.

Lemma pump_reports_a_failure_witness :
  SmokeChecks._pump_stderr
    (map SmokeChecks.Line Scenario.stderr_lines
       ++ SmokeChecks.ReadlineRaises (u "I/O operation on closed file") :: [])
    true [] Scenario.empty_pump
  = {| SmokeChecks.sink :=
         SmokeChecks.sink Scenario.empty_pump
           ++ map decode_utf8_replace Scenario.stderr_lines
           ++ [SmokeChecks.pump_error (u "I/O operation on closed file")];
       SmokeChecks.mirrored :=
         if true
         then SmokeChecks.mirrored Scenario.empty_pump
                ++ map decode_utf8_replace Scenario.stderr_lines
         else SmokeChecks.mirrored Scenario.empty_pump |}
  /\ SmokeChecks._pump_stderr
       (map SmokeChecks.Line Scenario.stderr_lines
          ++ SmokeChecks.Line (b "last words" ++ [LF]) :: [])
       true
       (repeat None (List.length Scenario.stderr_lines)
          ++ Some (u "I/O operation on closed file") :: [])
       Scenario.empty_pump
     = {| SmokeChecks.sink :=
            SmokeChecks.sink Scenario.empty_pump
              ++ map decode_utf8_replace Scenario.stderr_lines
              ++ [decode_utf8_replace (b "last words" ++ [LF]);
                  SmokeChecks.pump_error (u "I/O operation on closed file")];
          SmokeChecks.mirrored :=
            SmokeChecks.mirrored Scenario.empty_pump
              ++ map decode_utf8_replace Scenario.stderr_lines |}.
Proof.
  apply (pump_reports_a_failure Scenario.stderr_lines (b "last words" ++ [LF])
           (u "I/O operation on closed file") [] true [] [] Scenario.empty_pump).
  - constructor; [discriminate|]. constructor; [discriminate|]. constructor.
  - discriminate.
  - intros _. constructor.
Defined.


(* ================================================================== *)
(** * Properties of the regression-test client *)
(* ================================================================== *)

Section E2EReader.
Context {U : UnicodeData} {J : JsonModule}.

Lemma content_length_of_lines_both (lines : list text) :
  match E2E.content_length_of_lines lines with
  | Ok n => Smoke.content_length_of_lines lines = Ok n
  | Raise e => Smoke.content_length_of_lines lines = Raise Smoke.ValueError
               /\ e = E2E.ValueError
  end.
Proof.
  induction lines as [|line lines IH];
    cbn [E2E.content_length_of_lines Smoke.content_length_of_lines]; [reflexivity|].
  destruct (negb (contains line 0x3A)); [exact IH|].
  destruct (split_once line 0x3A) as [k v].
  destruct (text_eqb (lower (strip k)) (u "content-length")); [|exact IH].
  destruct (negb (isdigit (strip v))); [reflexivity|].
  destruct (int (strip v)); [reflexivity | split; reflexivity].
Qed.

Ltac both_done :=
  eexists; eexists; eexists; split; [reflexivity|]; split; reflexivity.

Lemma try_parse_one_both (buffer : bytes) :
  exists r r' buffer',
    Smoke._try_parse_one buffer = (r, buffer')
    /\ E2E._try_parse_one buffer = (r', buffer')
    /\ match r, r' with
       | Ok a, Ok a' => a = a'
       | Raise e, Raise e' => E2EClient.of_decoder e' = Readers.e2e_exn e
       | _, _ => False
       end.
Proof.
  unfold Smoke._try_parse_one, E2E._try_parse_one.
  destruct buffer as [|c buffer]; [both_done|].
  change (E2E._find_header_end (c :: buffer))
    with (Smoke._find_header_end (c :: buffer)).
  destruct (Smoke._find_header_end (c :: buffer)) as [h|]; [|both_done].
  cbv zeta. set (header := slice (c :: buffer) 0 h).
  pose proof (content_length_of_lines_both
                (split (replace (decode_utf8_replace header) [0x0D; 0x0A] [0x0A]) 0x0A))
    as Hc.
  unfold Smoke._parse_content_length, E2E._parse_content_length.
  destruct (E2E.content_length_of_lines _) as [[n|]|e].
  - rewrite Hc.
    destruct (len (c :: buffer) <? _); [both_done|].
    unfold Smoke.loads_body, E2E.loads_body.
    destruct (decode_utf8 _) as [t|]; [|both_done].
    destruct (json_loads t) as [msg|]; [|both_done].
    destruct (negb (is_dict msg)); both_done.
  - rewrite Hc. both_done.
  - destruct Hc as [Hc ->]. rewrite Hc. both_done.
Qed.

Lemma recv_loop_carried (deadline : Z) (out : list Smoke.select_result) :
  forall c : E2EClient.client,
    E2EClient.recv_loop deadline out c
    = Readers.carried (Smoke.recv_loop deadline out (Readers.to_smoke c)) c.
Proof.
  induction out as [|answer out IH]; intros c;
    cbn [E2EClient.recv_loop Smoke.recv_loop];
    cbn [Readers.to_smoke Smoke._buffer];
    destruct (try_parse_one_both (E2EClient._buffer c))
      as (r & r' & buffer' & -> & -> & Hr);
    destruct r as [[msg|]|e], r' as [[msg'|]|e']; try contradiction;
    try discriminate Hr; try (injection Hr as ->).
  - reflexivity.
  - cbn [E2EClient.clock E2EClient.with_buffer Smoke.clock Smoke.with_buffer
         Readers.to_smoke].
    destruct (E2EClient.clock c) as [|now later]; [reflexivity|].
    cbn [E2EClient.with_clock Smoke.with_clock].
    destruct (deadline - now <=? 0); reflexivity.
  - unfold Readers.carried. cbn [fst snd Readers.e2e_outcome]. rewrite Hr. reflexivity.
  - reflexivity.
  - cbn [E2EClient.clock E2EClient.with_buffer Smoke.clock Smoke.with_buffer
         Readers.to_smoke].
    destruct (E2EClient.clock c) as [|now later]; [reflexivity|].
    cbn [E2EClient.with_clock Smoke.with_clock].
    destruct (deadline - now <=? 0); [reflexivity|].
    destruct answer as [|[chunk|]]; [reflexivity| |].
    + destruct chunk as [|x chunk]; [reflexivity|].
      cbn [E2EClient._buffer Smoke._buffer]. rewrite IH. reflexivity.
    + rewrite IH. reflexivity.
  - unfold Readers.carried. cbn [fst snd Readers.e2e_outcome]. rewrite Hr. reflexivity.
Qed.

Lemma of_smoke_same (c : E2EClient.client) :
  Readers.of_smoke (Readers.to_smoke c) c = c.
Proof. destruct c; reflexivity. Qed.

Lemma recv_message_carried (timeout_s : option Z) (c : E2EClient.client) :
  E2EClient.recv_message timeout_s c
  = Readers.carried (Smoke.recv_message timeout_s (Readers.to_smoke c)) c.
Proof.
  unfold E2EClient.recv_message, Smoke.recv_message.
  cbn [Readers.to_smoke Smoke.clock Smoke.io_timeout_s].
  destruct (E2EClient.clock c) as [|now later] eqn:Ec.
  - unfold Readers.carried. cbn [fst snd Readers.e2e_outcome].
    rewrite of_smoke_same. reflexivity.
  - rewrite recv_loop_carried. reflexivity.
Qed.

Lemma of_smoke_to_smoke (s : Smoke.client) (c : E2EClient.client) :
  Readers.to_smoke (Readers.of_smoke s c) = s.
Proof. destruct s; reflexivity. Qed.

Lemma response_loop_carried (request_id deadline : Z) (fuel : nat) :
  forall c : E2EClient.client,
    E2EClient.response_loop fuel request_id deadline c
    = Readers.carried
        (Smoke.response_loop fuel request_id deadline (Readers.to_smoke c)) c.
Proof.
  induction fuel as [|fuel IH]; intros c;
    cbn [E2EClient.response_loop Smoke.response_loop].
  - unfold Readers.carried. cbn [fst snd Readers.e2e_outcome].
    rewrite of_smoke_same. reflexivity.
  - cbn [Readers.to_smoke Smoke.clock].
    destruct (E2EClient.clock c) as [|now later] eqn:Ec.
    + unfold Readers.carried. cbn [fst snd Readers.e2e_outcome].
      rewrite of_smoke_same. reflexivity.
    + destruct (deadline - now <=? 0); [reflexivity|].
      rewrite recv_message_carried.
      change (Readers.to_smoke (E2EClient.with_clock c later))
        with (Smoke.with_clock (Readers.to_smoke c) later).
      destruct (Smoke.recv_message (Some (deadline - now))
                  (Smoke.with_clock (Readers.to_smoke c) later)) as [[msg| e |] s'];
        unfold Readers.carried at 1; cbn [fst snd Readers.e2e_outcome];
        [|reflexivity|reflexivity].
      change (E2EClient.answers msg request_id) with (Smoke.answers msg request_id).
      destruct (Smoke.answers msg request_id); [reflexivity|].
      rewrite IH. rewrite of_smoke_to_smoke. reflexivity.
Qed.

Lemma recv_response_for_id_carried (request_id : Z) (timeout_s : option Z)
  (c : E2EClient.client) :
  E2EClient.recv_response_for_id request_id timeout_s c
  = Readers.carried
      (Smoke.recv_response_for_id request_id timeout_s (Readers.to_smoke c)) c.
Proof.
  unfold E2EClient.recv_response_for_id, Smoke.recv_response_for_id.
  cbn [Readers.to_smoke Smoke.clock Smoke.io_timeout_s].
  destruct (E2EClient.clock c) as [|now later] eqn:Ec.
  - unfold Readers.carried. cbn [fst snd Readers.e2e_outcome].
    rewrite of_smoke_same. reflexivity.
  - rewrite response_loop_carried. reflexivity.
Qed.

(** X22.  The clients of the two scripts read alike.  On the same
    buffer, clock and server output, [recv_message] and
    [recv_response_for_id] of the regression test end as those of the smoke
    test do: with the same message, or with the error from the same raise
    site, each in its own exception class, and with the same buffer, clock
    readings and server output left.  Neither writes to the server. *)
Theorem readers_agree (c : E2EClient.client) (timeout_s : option Z) (request_id : Z) :
  E2EClient.recv_message timeout_s c
  = Readers.carried (Smoke.recv_message timeout_s (Readers.to_smoke c)) c
  /\ E2EClient.recv_response_for_id request_id timeout_s c
     = Readers.carried
         (Smoke.recv_response_for_id request_id timeout_s (Readers.to_smoke c)) c
  /\ E2EClient.written (snd (E2EClient.recv_response_for_id request_id timeout_s c))
     = E2EClient.written c.
Proof.
  split; [apply recv_message_carried|].
  split; [apply recv_response_for_id_carried|].
  rewrite recv_response_for_id_carried. reflexivity.
Qed.

Lemma try_parse_one_e2e (buffer buffer' : bytes) (msg : value) :
  Smoke._try_parse_one buffer = (Ok (Some msg), buffer') ->
  E2E._try_parse_one buffer = (Ok (Some msg), buffer').
Proof.
  intros E. destruct (try_parse_one_both buffer) as (r & r' & b' & Es & Ee & Hr).
  rewrite Es in E. injection E as -> ->.
  destruct r' as [a'|e']; [|contradiction]. subst a'. exact Ee.
Qed.

Lemma lookup_request_items (request_id : Z) (method : text) (params : value) :
  dict_get (VDict (E2EClient.request_items request_id method params)) (u "id")
  = VInt request_id
  /\ dict_get (VDict (E2EClient.request_items request_id method params)) (u "method")
     = VStr method
  /\ dict_get (VDict (E2EClient.request_items request_id method params)) (u "params")
     = params
  /\ has_key (E2EClient.request_items request_id method params) (u "params")
     = match params with VNone => false | _ => true end.
Proof.
  destruct params; repeat split; reflexivity.
Qed.

(** X23.  [request] on a live server writes exactly one frame, and that
    frame decodes to the request: an object with the [id] and the [method]
    given, and with [params] exactly when the caller gave some.  Nothing
    else is written while the response is waited for. *)
Theorem request_writes_the_request (c : E2EClient.client) (request_id : Z)
  (method : text) (params : value) (dumped : text) :
  E2EClient.returncode c = None -> E2EClient.broken_pipe c = false ->
  json_dumps (VDict (E2EClient.request_items request_id method params)) = Some dumped ->
  json_loads dumped = Some (VDict (E2EClient.request_items request_id method params)) ->
  exists frame,
    E2EClient.written (snd (E2EClient.request c request_id method params))
    = E2EClient.written c ++ frame
    /\ E2E._try_parse_one frame
       = (Ok (Some (VDict (E2EClient.request_items request_id method params))), [])
    /\ dict_get (VDict (E2EClient.request_items request_id method params)) (u "id")
       = VInt request_id
    /\ dict_get (VDict (E2EClient.request_items request_id method params)) (u "method")
       = VStr method
    /\ dict_get (VDict (E2EClient.request_items request_id method params)) (u "params")
       = params
    /\ has_key (E2EClient.request_items request_id method params) (u "params")
       = match params with VNone => false | _ => true end.
Proof.
  intros Hc Hb Hd Hl.
  assert (He : Smoke.encode (VDict (E2EClient.request_items request_id method params))
               = Some (Smoke.wire_frame CRLFCRLF (to_bytes dumped))).
  { apply encode_wire_frame. exists dumped. split; [exact Hd | reflexivity]. }
  exists (Smoke.wire_frame CRLFCRLF (to_bytes dumped)). split.
  - unfold E2EClient.request, E2EClient.send. rewrite Hc.
    change (E2EClient.encode (VDict (E2EClient.request_items request_id method params)))
      with (Smoke.encode (VDict (E2EClient.request_items request_id method params))).
    rewrite He, Hb. rewrite recv_response_for_id_carried. reflexivity.
  - split; [|apply lookup_request_items].
    apply try_parse_one_e2e.
    rewrite <- (app_nil_r (Smoke.wire_frame CRLFCRLF (to_bytes dumped))).
    eapply frame_decodes; eassumption.
Qed.

Lemma recv_response_for_id_returns (request_id : Z) (timeout_s : option Z)
  (c c' : Smoke.client) (msg : value) :
  Smoke.recv_response_for_id request_id timeout_s c = (Smoke.Return msg, c') ->
  Smoke.answers msg request_id = true.
Proof.
  unfold Smoke.recv_response_for_id. destruct (Smoke.clock c); [discriminate|].
  apply response_loop_returns.
Qed.

(** X24.  [request] hands back nothing but the answer to its own
    request: a message it returns is an object whose [id] equals the
    request id.  When the server has exited, or the pipe to it is broken,
    it raises at once and leaves the client as it was: nothing written, no
    clock reading, no read from the server. *)
Theorem request_returns_only_the_answer (c : E2EClient.client) (request_id : Z)
  (method : text) (params : value) :
  (forall msg c',
     E2EClient.request c request_id method params = (E2EClient.Return msg, c') ->
     is_dict msg = true /\ eq_int (dict_get msg (u "id")) request_id = true)
  /\ (forall code,
        E2EClient.returncode c = Some code ->
        E2EClient.request c request_id method params
        = (E2EClient.Raises (E2EClient.E2EError (E2EClient.ServerExitedBeforeSend code)),
           c))
  /\ (forall frame,
        E2EClient.returncode c = None -> E2EClient.broken_pipe c = true ->
        E2EClient.encode (VDict (E2EClient.request_items request_id method params))
        = Some frame ->
        E2EClient.request c request_id method params
        = (E2EClient.Raises (E2EClient.E2EError E2EClient.BrokenPipe), c)).
Proof.
  split; [|split].
  - intros msg c'. unfold E2EClient.request.
    destruct (E2EClient.send c _) as [[[]|e|] c1]; try discriminate.
    rewrite recv_response_for_id_carried. unfold Readers.carried.
    destruct (Smoke.recv_response_for_id request_id None (Readers.to_smoke c1))
      as [[m|e|] s'] eqn:Er; cbn [fst snd Readers.e2e_outcome]; try discriminate.
    intros E. injection E as <- _.
    apply recv_response_for_id_returns in Er. unfold Smoke.answers in Er.
    apply andb_prop in Er. exact Er.
  - intros code Hc. unfold E2EClient.request, E2EClient.send. rewrite Hc. reflexivity.
  - intros frame Hc Hb He. unfold E2EClient.request, E2EClient.send.
    rewrite Hc, He, Hb. reflexivity.
Qed.

Lemma response_loop_step (fuel : nat) (request_id deadline now : Z)
  (later : list Z) (c c' : Smoke.client) (msg : value) :
  Smoke.clock c = now :: later -> now < deadline ->
  Smoke.recv_message (Some (deadline - now)) (Smoke.with_clock c later)
  = (Smoke.Return msg, c') ->
  Smoke.answers msg request_id = true ->
  Smoke.response_loop (S fuel) request_id deadline c = (Smoke.Return msg, c').
Proof.
  intros Hc Hlt Hr Ha. cbn [Smoke.response_loop]. rewrite Hc.
  destruct (Z.leb_spec (deadline - now) 0); [lia|].
  rewrite Hr, Ha. reflexivity.
Qed.

(** X25.  A tool call from end to end.  On a live server with an empty
    buffer, when the server answers the request with one frame that arrives
    in one piece before the deadline, [_tool_call] writes the request,
    reads that frame and returns what [_extract_tool_payload] makes of the
    response; the buffer is empty again and what the server writes later is
    still to be read. *)
Theorem tool_call_returns_the_payload (c : E2EClient.client) (req_id : Z)
  (name : text) (arguments payload : value) (response : list (text * value))
  (dumped_request dumped_response : text) (frame : bytes)
  (t0 t1 t2 t3 : Z) (later : list Z) (rest : list Smoke.select_result) :
  E2EClient.returncode c = None -> E2EClient.broken_pipe c = false ->
  E2EClient._buffer c = [] ->
  json_dumps (VDict (E2EClient.request_items req_id (u "tools/call")
                       (VDict [(u "name", VStr name); (u "arguments", arguments)])))
  = Some dumped_request ->
  json_dumps (VDict response) = Some dumped_response ->
  json_loads dumped_response = Some (VDict response) ->
  Smoke.encode (VDict response) = Some frame ->
  eq_int (get response (u "id")) req_id = true ->
  E2EClient._extract_tool_payload response = Ok payload ->
  E2EClient.clock c = t0 :: t1 :: t2 :: t3 :: later ->
  t1 < t0 + E2EClient.io_timeout_s c ->
  t3 < t2 + (t0 + E2EClient.io_timeout_s c - t1) ->
  E2EClient.stdout c = Smoke.Ready (Smoke.Data frame) :: rest ->
  exists c',
    E2EClient._tool_call c req_id name arguments = (E2EClient.Return payload, c')
    /\ E2EClient.written c'
       = E2EClient.written c ++ Smoke.wire_frame CRLFCRLF (to_bytes dumped_request)
    /\ E2EClient._buffer c' = [] /\ E2EClient.stdout c' = rest
    /\ E2EClient.clock c' = later.
Proof.
  intros Hc Hb Hbuf Hq Hd Hl He Hid Hp Hk H1 H3 Ho.
  assert (Heq : Smoke.encode
                  (VDict (E2EClient.request_items req_id (u "tools/call")
                            (VDict [(u "name", VStr name); (u "arguments", arguments)])))
                = Some (Smoke.wire_frame CRLFCRLF (to_bytes dumped_request))).
  { apply encode_wire_frame. exists dumped_request. split; [exact Hq | reflexivity]. }
  set (c1 := E2EClient.with_written c
               (E2EClient.written c
                  ++ Smoke.wire_frame CRLFCRLF (to_bytes dumped_request))).
  destruct (recv_message_chunks response dumped_response frame [frame]
              (Smoke.with_clock (Readers.to_smoke c1) (t2 :: t3 :: later))
              (t0 + E2EClient.io_timeout_s c - t1) t2 [t3] later rest)
    as (s' & Hr & Hb' & Hc' & Ho'); try assumption.
  { cbn [List.concat]. apply app_nil_r. }
  { constructor; [|constructor]. eapply encode_nonempty. exact He. }
  { reflexivity. }
  { reflexivity. }
  { constructor; [exact H3 | constructor]. }
  exists (Readers.of_smoke s' c1).
  split; [|split; [reflexivity|split; [exact Hb'|split; [exact Ho'|exact Hc']]]].
  unfold E2EClient._tool_call, E2EClient.request, E2EClient.send. rewrite Hc.
  change (E2EClient.encode ?v) with (Smoke.encode v).
  rewrite Heq, Hb. fold c1.
  rewrite recv_response_for_id_carried.
  unfold Smoke.recv_response_for_id.
  cbn [Readers.to_smoke Smoke.clock Smoke.io_timeout_s c1 E2EClient.with_written
       E2EClient.clock E2EClient.io_timeout_s].
  rewrite Hk. cbn [List.length].
  rewrite (response_loop_step _ req_id _ t1 (t2 :: t3 :: later) _ s' (VDict response));
    [| reflexivity | exact H1 | exact Hr
     | unfold Smoke.answers; cbn [is_dict andb]; exact Hid ].
  unfold Readers.carried. cbn [fst snd Readers.e2e_outcome].
  rewrite Hp. reflexivity.
Qed.

End E2EReader.

Lemma request_writes_the_request_witness :
  exists frame,
    E2EClient.written
      (snd (E2EClient.request (U := Sample.unicode) (J := Sample.json)
              Scenario.regression_client 1 (u "initialize") Scenario.initialize_params))
    = E2EClient.written Scenario.regression_client ++ frame
    /\ E2E._try_parse_one (U := Sample.unicode) (J := Sample.json) frame
       = (Ok (Some (VDict (E2EClient.request_items 1 (u "initialize")
                             Scenario.initialize_params))), [])
    /\ dict_get (VDict (E2EClient.request_items 1 (u "initialize")
                          Scenario.initialize_params)) (u "id")
       = VInt 1
    /\ dict_get (VDict (E2EClient.request_items 1 (u "initialize")
                          Scenario.initialize_params)) (u "method")
       = VStr (u "initialize")
    /\ dict_get (VDict (E2EClient.request_items 1 (u "initialize")
                          Scenario.initialize_params)) (u "params")
       = Scenario.initialize_params
    /\ has_key (E2EClient.request_items 1 (u "initialize") Scenario.initialize_params)
         (u "params")
       = match Scenario.initialize_params with VNone => false | _ => true end.
Proof.
  apply (@request_writes_the_request Sample.unicode Sample.json
           Scenario.regression_client 1 (u "initialize") Scenario.initialize_params
           (Scenario.dumped (VDict Scenario.initialize_request))).
  - reflexivity.
  - reflexivity.
  - vm_compute. reflexivity.
  - vm_compute. reflexivity.
Defined.

Lemma tool_call_returns_the_payload_witness :
  exists c',
    E2EClient._tool_call (U := Sample.unicode) (J := Sample.json)
      Scenario.regression_client 3 (u "store_node") Scenario.tool_arguments
    = (E2EClient.Return (VDict Scenario.tool_payload), c')
    /\ E2EClient.written c'
       = E2EClient.written Scenario.regression_client
           ++ Smoke.wire_frame CRLFCRLF
                (to_bytes (Scenario.dumped (VDict Scenario.tool_call_request)))
    /\ E2EClient._buffer c' = [] /\ E2EClient.stdout c' = []
    /\ E2EClient.clock c' = [4].
Proof.
  apply (@tool_call_returns_the_payload Sample.unicode Sample.json
           Scenario.regression_client 3 (u "store_node") Scenario.tool_arguments
           (VDict Scenario.tool_payload) Scenario.tool_call_response
           (Scenario.dumped (VDict Scenario.tool_call_request))
           (Scenario.dumped (VDict Scenario.tool_call_response))
           (Scenario.frame_of Scenario.tool_call_response) 0 1 2 3 [4] []).
  - reflexivity.
  - reflexivity.
  - reflexivity.
  - vm_compute. reflexivity.
  - vm_compute. reflexivity.
  - vm_compute. reflexivity.
  - vm_compute. reflexivity.
  - reflexivity.
  - vm_compute. reflexivity.
  - reflexivity.
  - vm_compute. reflexivity.
  - vm_compute. reflexivity.
  - reflexivity.
Defined.


(* ================================================================== *)
(** * What the smoke-test reader never does *)
(* ================================================================== *)

Section ReaderNever.
Context {U : UnicodeData} {J : JsonModule}.

Lemma try_parse_one_object (buffer buffer' : bytes) (msg : value) :
  Smoke._try_parse_one buffer = (Ok (Some msg), buffer') -> is_dict msg = true.
Proof.
  intros E. destruct (try_parse_one_message _ _ _ E) as (? & ? & ? & _ & _ & _ & _ & _ & H).
  exact H.
Qed.

Lemma recv_loop_object (deadline : Z) (out : list Smoke.select_result) :
  forall (c c' : Smoke.client) (msg : value),
    Smoke.recv_loop deadline out c = (Smoke.Return msg, c') -> is_dict msg = true.
Proof.
  induction out as [|answer out IH]; intros c c' msg; cbn [Smoke.recv_loop];
    destruct (Smoke._try_parse_one (Smoke._buffer c)) as [[[m|]|e] buf] eqn:Ep;
    try discriminate;
    try (intros E; injection E as <- _; eapply try_parse_one_object; exact Ep).
  - destruct (Smoke.clock (Smoke.with_buffer c buf)) as [|now later]; [discriminate|].
    destruct (deadline - now <=? 0); discriminate.
  - destruct (Smoke.clock (Smoke.with_buffer c buf)) as [|now later]; [discriminate|].
    destruct (deadline - now <=? 0); [discriminate|].
    destruct answer as [|[[|x chunk]|]]; try discriminate; apply IH.
Qed.

(** X26.  What [recv_message] and [recv_response_for_id] return is
    always a JSON object: a frame whose body is a list, a string or a
    number is never handed to the caller, it ends the call with an error. *)
Theorem reader_returns_objects_only (c : Smoke.client) (timeout_s : option Z)
  (request_id : Z) :
  (forall msg c', Smoke.recv_message timeout_s c = (Smoke.Return msg, c') ->
                  is_dict msg = true)
  /\ (forall msg c',
        Smoke.recv_response_for_id request_id timeout_s c = (Smoke.Return msg, c') ->
        is_dict msg = true).
Proof.
  split.
  - intros msg c'. unfold Smoke.recv_message.
    destruct (Smoke.clock c); [discriminate|]. apply recv_loop_object.
  - intros msg c' E. unfold Smoke.recv_response_for_id in E.
    destruct (Smoke.clock c); [discriminate|].
    apply response_loop_returns in E. unfold Smoke.answers in E.
    apply andb_prop in E. exact (proj1 E).
Qed.

(** X27.  On a header made of ASCII bytes only the decoder gives a
    message or none, or raises [SmokeTestError]; the one other outcome is
    the [ValueError] of [int], and it needs a header of more than 4300
    bytes (a length of more than 4300 digits).  On an ASCII header of at
    most 4300 bytes nothing but the script's own error is raised. *)
Theorem ascii_header_raises_only_SmokeTestError (buffer : bytes) (h : Z) :
  Smoke._find_header_end buffer = Some h ->
  Forall (fun x => byte_val x < 0x80) (slice buffer 0 h) ->
  (exists r, fst (Smoke._try_parse_one buffer) = Ok r)
  \/ (exists m, fst (Smoke._try_parse_one buffer) = Raise (Smoke.SmokeTestError m))
  \/ (int_max_str_digits < h
      /\ Smoke._try_parse_one buffer = (Raise Smoke.ValueError, buffer)).
Proof.
  intros Hh Ha.
  destruct (Smoke._parse_content_length (slice buffer 0 h)) as [[n|]|e] eqn:Hp.
  - rewrite (try_parse_one_header buffer h n Hh Hp). cbv zeta.
    destruct (len buffer <? h + Smoke.terminator_width buffer h + n).
    + left. eexists. reflexivity.
    + unfold Smoke.decode_body.
      destruct (Smoke.loads_body _) as [msg|].
      * destruct (negb (is_dict msg));
          [right; left | left]; eexists; reflexivity.
      * right. left. eexists. reflexivity.
  - rewrite (try_parse_one_invalid buffer h Hh Hp). right. left. eexists. reflexivity.
  - right. right.
    pose proof (content_length_raises_ValueError _ _ Hp) as ->.
    split; [|exact (try_parse_one_raises buffer h _ Hh Hp)].
    destruct (Z.le_gt_cases h int_max_str_digits) as [Hle|Hgt]; [|lia].
    exfalso.
    assert (Hl : len (slice buffer 0 h) <= int_max_str_digits).
    { pose proof (find_header_end_range _ _ Hh). rewrite len_slice by lia. lia. }
    destruct (parse_content_length_ascii _ Ha Hl) as (r & Hr).
    rewrite Hr in Hp. discriminate Hp.
Qed.

End ReaderNever.

Lemma ascii_header_raises_only_SmokeTestError_witness :
  (exists r, fst (Smoke._try_parse_one (U := Sample.unicode) (J := Sample.json)
                    (b "Content-Length: abc" ++ CRLFCRLF)) = Ok r)
  \/ (exists m, fst (Smoke._try_parse_one (U := Sample.unicode) (J := Sample.json)
                       (b "Content-Length: abc" ++ CRLFCRLF))
                = Raise (Smoke.SmokeTestError m))
  \/ (int_max_str_digits < 19
      /\ Smoke._try_parse_one (U := Sample.unicode) (J := Sample.json)
           (b "Content-Length: abc" ++ CRLFCRLF)
         = (Raise Smoke.ValueError, b "Content-Length: abc" ++ CRLFCRLF)).
Proof.
  apply (@ascii_header_raises_only_SmokeTestError Sample.unicode Sample.json
           (b "Content-Length: abc" ++ CRLFCRLF) 19).
  - reflexivity.
  - repeat (constructor; [cbn; lia|]). constructor.
Defined.
